(** * pypage: a shallow embedding of the tag scanner, the execution engine
      and the document assembler of [pypage.py], with the properties of its
      specification.

    A Python [str] is a sequence of Unicode code points: it is modelled as a
    list of [N].  Python exceptions are modelled by an outcome type with an
    explicit [Raise] case, so that a failed assertion or an error raised by
    the evaluated code is visible in the result of every function that can
    let it through. *)

From Stdlib Require Import String Ascii NArith ZArith List Lia.
From Stdlib Require Import DecimalNat DecimalFacts.
From stdpp Require Import base option list gmap.

Set Warnings "-register-all".

(** ** Text *)

Abbreviation pystr := (list N).

Definition s2l (s : string) : pystr :=
  map N_of_ascii (list_ascii_of_string s).
Arguments s2l s%_string.

(** The line feed and the double quote, which have no escape in a literal. *)
Definition NL : N := 10.
Definition DQ : N := 34.

(** A line of a document or of a script: the text and a line feed. *)
Definition ln (s : string) : pystr := s2l s ++ [NL].
Arguments ln s%_string.

Definition spaces (k : nat) : pystr := replicate k 32%N.

(** [a[i:j]] for indices within [0 .. len a]: empty when [j <= i]. *)
Definition slice (i j : nat) (a : pystr) : pystr := take (j - i) (drop i a).

(** [sep.join(l)]. *)
Fixpoint join (sep : pystr) (l : list pystr) : pystr :=
  match l with
  | [] => []
  | [x] => x
  | x :: r => x ++ sep ++ join sep r
  end.

(** [s.split('\n')]: never the empty list, [''.split('\n') == ['']]. *)
Fixpoint split_nl (s : pystr) : list pystr :=
  match s with
  | [] => [[]]
  | c :: r =>
      if (c =? NL)%N then [] :: split_nl r
      else match split_nl r with
           | h :: t => (c :: h) :: t
           | [] => [[c]]
           end
  end.

(** ["%d" % n] for a natural number. *)
Fixpoint uint_chars (d : Decimal.uint) : pystr :=
  match d with
  | Decimal.Nil => []
  | Decimal.D0 r => 48%N :: uint_chars r
  | Decimal.D1 r => 49%N :: uint_chars r
  | Decimal.D2 r => 50%N :: uint_chars r
  | Decimal.D3 r => 51%N :: uint_chars r
  | Decimal.D4 r => 52%N :: uint_chars r
  | Decimal.D5 r => 53%N :: uint_chars r
  | Decimal.D6 r => 54%N :: uint_chars r
  | Decimal.D7 r => 55%N :: uint_chars r
  | Decimal.D8 r => 56%N :: uint_chars r
  | Decimal.D9 r => 57%N :: uint_chars r
  end.

Definition fmt_d (n : nat) : pystr := uint_chars (Nat.to_uint n).

(** ** Outcomes

    A call returns a value, raises an exception, or gives no result (the
    evaluated script does not terminate, or lies outside the fragment of
    Python that [MiniPy] interprets). *)

(** An exception is identified by its class. *)
Record exn := PyExn { exn_class : pystr }.

Definition AssertionError : exn := PyExn (s2l "AssertionError").
Definition AttributeError : exn := PyExn (s2l "AttributeError").
Definition IndexError : exn := PyExn (s2l "IndexError").
Definition StopIteration : exn := PyExn (s2l "StopIteration").
Definition TypeError : exn := PyExn (s2l "TypeError").

Inductive outcome (A : Type) :=
  | Ret (a : A)
  | Raise (e : exn)
  | NoResult.
Arguments Ret {A} a.
Arguments Raise {A} e.
Arguments NoResult {A}.

Global Instance outcome_ret : MRet outcome := fun A a => Ret a.
Global Instance outcome_bind : MBind outcome := fun A B f m =>
  match m with
  | Ret a => f a
  | Raise e => Raise e
  | NoResult => NoResult
  end.

(** ** Regular expressions

    The patterns of [process_python_tags] are concatenations of single
    characters, the class [\s] and the escape [\n], some of them starred.
    [re_compile] reads that fragment of the pattern syntax; [match_here]
    is a backtracking matcher with Python's priorities (a star is greedy),
    and returns the length of the match. *)

Inductive atom := Chr (c : N) | Space.
Inductive item := One (a : atom) | Star (a : atom).

(** Unicode white space, as [\s] matches it in a [str] pattern. *)
Definition isspace (c : N) : bool :=
  ((9 <=? c) && (c <=? 13) || (28 <=? c) && (c <=? 32) || (c =? 133)
   || (c =? 160) || (c =? 5760) || (8192 <=? c) && (c <=? 8202)
   || (c =? 8232) || (c =? 8233) || (c =? 8239) || (c =? 8287)
   || (c =? 12288))%N.

Definition atom_matches (a : atom) (c : N) : bool :=
  match a with
  | Chr d => (d =? c)%N
  | Space => isspace c
  end.

Definition escape (d : N) : atom :=
  if (d =? 115)%N then Space            (* \s *)
  else if (d =? 110)%N then Chr NL      (* \n *)
  else Chr d.

Fixpoint re_compile (p : pystr) : list item :=
  match p with
  | [] => []
  | c :: r =>
      if (c =? 92)%N then               (* backslash *)
        match r with
        | d :: r' =>
            match r' with
            | e :: r'' =>
                if (e =? 42)%N then Star (escape d) :: re_compile r''
                else One (escape d) :: re_compile r'
            | [] => [One (escape d)]
            end
        | [] => [One (Chr c)]
        end
      else
        match r with
        | e :: r' =>
            if (e =? 42)%N then Star (Chr c) :: re_compile r'
            else One (Chr c) :: re_compile r
        | [] => [One (Chr c)]
        end
  end.

(** A starred atom: as many characters as possible, then the rest of the
    pattern [k]; one character fewer when the rest fails. *)
Fixpoint star (a : atom) (k : pystr -> option nat) (s : pystr) : option nat :=
  match s with
  | c :: s' =>
      if atom_matches a c then
        match star a k s' with
        | Some n => Some (S n)
        | None => k s
        end
      else k s
  | [] => k s
  end.

Fixpoint match_here (p : list item) (s : pystr) {struct p} : option nat :=
  match p with
  | [] => Some 0
  | One a :: p' =>
      match s with
      | c :: s' => if atom_matches a c then S <$> match_here p' s' else None
      | [] => None
      end
  | Star a :: p' => star a (match_here p') s
  end.

(** A match object: its [start()] and its [end()]. *)
Definition re_match (p : list item) (s : pystr) : option (nat * nat) :=
  n ← match_here p s; Some (0, n).

Fixpoint re_search_from (p : list item) (i : nat) (s : pystr)
  : option (nat * nat) :=
  match match_here p s with
  | Some n => Some (i, i + n)
  | None =>
      match s with
      | [] => None
      | _ :: s' => re_search_from p (S i) s'
      end
  end.

Definition re_search (p : list item) (s : pystr) : option (nat * nat) :=
  re_search_from p 0 s.

(** ** The tag scanner: [process_python_tags] *)

Record PythonCode := mkPythonCode { code : pystr; id_level : nat }.

(** An element of the scanned list: a plain [str] or a [PythonCode]. *)
Inductive element :=
  | Text (s : pystr)
  | Py (c : PythonCode).

Inductive collect_mode := mode_plain | mode_code.

Definition multiline_delimiter_open : pystr := s2l "<python>".
Definition multiline_delimiter_close : pystr := s2l "</python>".
Definition inline_delimiter_open : pystr := s2l "<py>".
Definition inline_delimiter_close : pystr := s2l "</py>".

Definition re_delimiter_open : list item :=
  re_compile (s2l "\s*" ++ multiline_delimiter_open ++ s2l "\s*\n").
Definition re_delimiter_open_tag_only : list item :=
  re_compile multiline_delimiter_open.
Definition re_delimiter_close : list item :=
  re_compile (s2l "\s*" ++ multiline_delimiter_close ++ s2l "\s*\n").
Definition re_short_open : list item := re_compile inline_delimiter_open.
Definition re_short_close : list item := re_compile inline_delimiter_close.

Definition find_indentation_level (opening_line : pystr) : outcome nat :=
  match re_search re_delimiter_open_tag_only opening_line with
  | None => Raise AssertionError
  | Some m => Ret (fst m)
  end.

(** The variables of the loop over the lines. *)
Record scan_state := mkScan {
  st_result : list element;
  st_collect : pystr;
  st_id_level : nat;
  st_mode : collect_mode
}.

Definition scan_init : scan_state := mkScan [] [] 0 mode_plain.

(** What a line contributes to [collect] in code mode. *)
Definition dedent (k : nat) (line : pystr) : pystr :=
  if decide (k < length line) then drop k line else [NL].

(** One iteration of the loop. *)
Definition scan_line (st : scan_state) (line : pystr) : outcome scan_state :=
  let op := re_match re_delimiter_open line in
  let cl := re_match re_delimiter_close line in
  let ops := re_search re_short_open line in
  let cls := re_search re_short_close line in
  match op, cl, ops, cls with
  | Some _, _, _, _ =>
      lvl ← find_indentation_level line;
      mret (mkScan (st_result st ++ [Text (st_collect st)]) [] lvl mode_code)
  | None, Some _, _, _ =>
      mret (mkScan
              (st_result st ++ [Py (mkPythonCode (st_collect st) (st_id_level st))])
              [NL] 0 mode_plain)
  | None, None, Some mo, Some mc =>
      let pre_py := take (fst mo) line in
      let in_py := slice (snd mo) (fst mc) line in
      let post_py := drop (snd mc) line in
      mret (mkScan
              (st_result st ++ [Text (st_collect st ++ pre_py);
                                Py (mkPythonCode in_py 0)])
              post_py (st_id_level st) (st_mode st))
  | None, None, _, _ =>
      match st_mode st with
      | mode_plain =>
          mret (mkScan (st_result st) (st_collect st ++ line)
                  (st_id_level st) (st_mode st))
      | mode_code =>
          mret (mkScan (st_result st)
                  (st_collect st ++ dedent (st_id_level st) line)
                  (st_id_level st) (st_mode st))
      end
  end.

Fixpoint scan_lines (st : scan_state) (lines : list pystr)
  : outcome scan_state :=
  match lines with
  | [] => mret st
  | line :: rest => st' ← scan_line st line; scan_lines st' rest
  end.

Definition process_python_tags (lines : list pystr) : outcome (list element) :=
  st ← scan_lines scan_init lines;
  mret (st_result st ++ [Text (st_collect st)]).

(** ** Scripts: syntax and values

    The abstract syntax of the fragment of Python that [MiniPy] interprets,
    and the values a module namespace holds after [exec]. *)

Inductive expr :=
  | EInt (n : Z)
  | EStr (s : pystr)
  | EName (x : pystr)
  | EList (e : expr)                 (* [e] *)
  | EAdd (a b : expr)
  | EMul (a b : expr)
  | ECall (f arg : expr).            (* f(arg) *)

Inductive stmt :=
  | SPass
  | SExpr (e : expr)
  | SAssign (x : pystr) (e : expr)               (* x = e *)
  | SAugSub (x : pystr) (i e : expr)             (* x[i] += e *)
  | SFor (x : pystr) (it : expr) (body : list stmt)
  | SDef (f param : pystr) (body : list stmt)
  | SRaise (e : expr).

Inductive value :=
  | VNone
  | VInt (n : Z)
  | VStr (s : pystr)
  | VList (l : list value)
  | VRange (n : nat)
  | VFun (param : pystr) (body : list stmt)
  | VBuiltin (name : pystr)
  | VExnClass (cls : pystr)
  | VExn (cls : pystr).

Abbreviation namespace := (gmap pystr value).

(** [imp.new_module(name).__dict__] *)
Definition new_module (name : pystr) : namespace :=
  <[s2l "__name__" := VStr name]>
    (<[s2l "__doc__" := VNone]>
       (<[s2l "__package__" := VNone]>
          (<[s2l "__loader__" := VNone]>
             (<[s2l "__spec__" := VNone]> ∅)))).

(** ** The execution engine: [importCode] and [execPythonCode]

    [exec] is the host's evaluation facility: it is given the program text
    and the namespace of a fresh module, and returns the namespace the
    program leaves, raises what the program raises, or gives no result. *)

(** The text of the generated program before [{code}]. *)
Definition prelude (count : nat) : pystr :=
  [NL] ++ s2l "__output__ = [" ++ [DQ; DQ] ++ s2l "]*" ++ fmt_d count ++ [NL]
  ++ [NL] ++ ln "def write(s):"
  ++ ln "    __output__[__section__] += str(s)"
  ++ [NL].

(** ["__section__ = %d\n" % i + "".join(str(c) for c in co.code)] *)
Definition section_text (i : nat) (co : PythonCode) : pystr :=
  s2l "__section__ = " ++ fmt_d i ++ [NL] ++ code co.

Definition program (code_objects : list PythonCode) : pystr :=
  prelude (length code_objects)
  ++ join [NL] (imap section_text code_objects).

(** ['\n'.join(' ' * k + s for s in o.split('\n'))] *)
Definition reindent (k : nat) (o : pystr) : pystr :=
  join [NL] (map (fun s => spaces k ++ s) (split_nl o)).

(** The loop that applies the indentation to [__output__], from index [i]
    on.  A [str] entry past the last code object has no indentation level.
    Of the other values of the fragment only the class [str] has a [split]:
    [str.split('\n')] is ['\n'.split()], the empty list, so the generator
    yields nothing, no indentation level is looked up and the entry becomes
    the empty text.  Every other value has no [split]. *)
Fixpoint apply_indentation (id_levels : list nat) (i : nat) (out : list value)
  : outcome (list pystr) :=
  match out with
  | [] => mret []
  | o :: rest =>
      match o with
      | VStr s =>
          match id_levels !! i with
          | Some k =>
              r ← apply_indentation id_levels (S i) rest;
              mret (reindent k s :: r)
          | None => Raise IndexError
          end
      | VBuiltin name =>
          if bool_decide (name = s2l "str") then
            r ← apply_indentation id_levels (S i) rest;
            mret ([] :: r)
          else Raise AttributeError
      | _ => Raise AttributeError
      end
  end.

Section Engine.

Variable exec : pystr -> namespace -> outcome namespace.

Definition importCode (code name : pystr) : outcome namespace :=
  exec code (new_module name).

(** [execPythonCode(code_objects)], as the list its iterator yields.  A
    module whose [__output__] was rebound to something that is not a list
    is outside the model. *)
Definition execPythonCode (code_objects : list PythonCode)
  : outcome (list pystr) :=
  m ← importCode (program code_objects) (s2l "pypage_transient");
  match m !! s2l "__output__" with
  | None => Raise AttributeError
  | Some (VList out) =>
      apply_indentation (map id_level code_objects) 0 out
  | Some _ => NoResult
  end.

(** [filter(lambda x: type(x) == PythonCode, result)] *)
Fixpoint code_objects_of (result : list element) : list PythonCode :=
  match result with
  | [] => []
  | Text _ :: r => code_objects_of r
  | Py c :: r => c :: code_objects_of r
  end.

(** The loop of [pypage] that replaces every [PythonCode] of [result] by
    the next output; [next] raises [StopIteration] on an exhausted
    iterator. *)
Fixpoint substitute (result : list element) (outputIter : list pystr)
  : outcome (list pystr) :=
  match result with
  | [] => mret []
  | Text s :: r => r' ← substitute r outputIter; mret (s :: r')
  | Py _ :: r =>
      match outputIter with
      | [] => Raise StopIteration
      | o :: outputIter' => r' ← substitute r outputIter'; mret (o :: r')
      end
  end.

(** [pypage], from the lines that [readlines] returns. *)
Definition pypage (lines : list pystr) : outcome pystr :=
  result ← process_python_tags lines;
  output ← execPythonCode (code_objects_of result);
  result' ← substitute result output;
  mret (concat result').

End Engine.

(** ** MiniPy: the evaluation facility on a fragment of Python

    [exec] of the host, for programs made of [pass], expression statements,
    assignments to a name, [x[i] += e], [for x in range(n):], [def f(p):]
    with a body of simple statements, and [raise]; expressions are integer
    and string literals, names, one-element list displays, [+], [*] and
    calls with one argument.  Every other program, and every evaluation
    that exhausts the fuel, has [NoResult]: the model says nothing about
    it. *)

Module MiniPy.

Inductive token :=
  | TName (x : pystr)
  | TInt (n : Z)
  | TStr (s : pystr)
  | TPunct (c : N)
  | TPlusEq.

Definition is_digit (c : N) : bool := ((48 <=? c) && (c <=? 57))%N.
Definition is_name_start (c : N) : bool :=
  ((65 <=? c) && (c <=? 90) || (97 <=? c) && (c <=? 122) || (c =? 95))%N.
Definition is_name_char (c : N) : bool := is_name_start c || is_digit c.
Definition is_punct (c : N) : bool :=
  bool_decide (c ∈ s2l "()[]:=*,+").

Fixpoint span (p : N -> bool) (s : pystr) : pystr * pystr :=
  match s with
  | c :: r => if p c then let '(a, b) := span p r in (c :: a, b) else ([], s)
  | [] => ([], [])
  end.

Definition digit_of (c : N) (d : Decimal.uint) : option Decimal.uint :=
  match c with
  | 48 => Some (Decimal.D0 d) | 49 => Some (Decimal.D1 d)
  | 50 => Some (Decimal.D2 d) | 51 => Some (Decimal.D3 d)
  | 52 => Some (Decimal.D4 d) | 53 => Some (Decimal.D5 d)
  | 54 => Some (Decimal.D6 d) | 55 => Some (Decimal.D7 d)
  | 56 => Some (Decimal.D8 d) | 57 => Some (Decimal.D9 d)
  | _ => None
  end%N.

Fixpoint chars_uint (s : pystr) : option Decimal.uint :=
  match s with
  | [] => Some Decimal.Nil
  | c :: r => d ← chars_uint r; digit_of c d
  end.

(** A decimal integer literal; one with a leading zero is not read. *)
Definition number (ds : pystr) : option Z :=
  d ← chars_uint ds;
  match ds with
  | 48%N :: _ :: _ => None
  | _ => Some (Z.of_nat (Nat.of_uint d))
  end.

Fixpoint tokenize (fuel : nat) (s : pystr) : option (list token) :=
  match fuel with
  | 0 => None
  | S f =>
      match s with
      | [] => Some []
      | c :: r =>
          if (c =? 32)%N then tokenize f r
          else if is_digit c then
            let '(ds, rest) := span is_digit s in
            match rest with
            | d :: _ => if is_name_char d || (d =? 46)%N then None
                        else n ← number ds; ts ← tokenize f rest;
                             Some (TInt n :: ts)
            | [] => n ← number ds; Some [TInt n]
            end
          else if is_name_start c then
            let '(x, rest) := span is_name_char s in
            ts ← tokenize f rest; Some (TName x :: ts)
          else if (c =? DQ)%N || (c =? 39)%N then
            let '(body, rest) :=
              span (fun d => negb ((d =? c) || (d =? 92) || (d =? NL))%N) r in
            match rest with
            | q :: rest' =>
                if (q =? c)%N then ts ← tokenize f rest'; Some (TStr body :: ts)
                else None
            | [] => None
            end
          else if (c =? 43)%N then
            match r with
            | e :: r' =>
                if (e =? 61)%N then ts ← tokenize f r'; Some (TPlusEq :: ts)
                else ts ← tokenize f r; Some (TPunct c :: ts)
            | [] => Some [TPunct c]
            end
          else if is_punct c then ts ← tokenize f r; Some (TPunct c :: ts)
          else None
      end
  end.

Definition keywords : list pystr :=
  map s2l
    ["False"; "None"; "True"; "and"; "as"; "assert"; "async"; "await";
     "break"; "class"; "continue"; "def"; "del"; "elif"; "else"; "except";
     "finally"; "for"; "from"; "global"; "if"; "import"; "in"; "is";
     "lambda"; "nonlocal"; "not"; "or"; "pass"; "raise"; "return"; "try";
     "while"; "with"; "yield"]%string.

Definition is_keyword (x : pystr) : bool := bool_decide (x ∈ keywords).

(** Expressions, by recursive descent:
    [expr := term ('+' term)*], [term := call ('*' call)*],
    [call := atom ('(' expr ')')*],
    [atom := INT | STR | NAME | '[' expr ']' | '(' expr ')']. *)
Fixpoint parse_expr (fuel : nat) (ts : list token)
  : option (expr * list token) :=
  match fuel with
  | 0 => None
  | S f => '(a, r) ← parse_term f ts; parse_add_rest f a r
  end
with parse_add_rest (fuel : nat) (a : expr) (ts : list token)
  : option (expr * list token) :=
  match fuel with
  | 0 => None
  | S f =>
      match ts with
      | TPunct 43 :: r =>
          '(b, r') ← parse_term f r; parse_add_rest f (EAdd a b) r'
      | _ => Some (a, ts)
      end
  end
with parse_term (fuel : nat) (ts : list token)
  : option (expr * list token) :=
  match fuel with
  | 0 => None
  | S f => '(a, r) ← parse_call f ts; parse_mul_rest f a r
  end
with parse_mul_rest (fuel : nat) (a : expr) (ts : list token)
  : option (expr * list token) :=
  match fuel with
  | 0 => None
  | S f =>
      match ts with
      | TPunct 42 :: r =>
          '(b, r') ← parse_call f r; parse_mul_rest f (EMul a b) r'
      | _ => Some (a, ts)
      end
  end
with parse_call (fuel : nat) (ts : list token)
  : option (expr * list token) :=
  match fuel with
  | 0 => None
  | S f => '(a, r) ← parse_atom f ts; parse_call_rest f a r
  end
with parse_call_rest (fuel : nat) (a : expr) (ts : list token)
  : option (expr * list token) :=
  match fuel with
  | 0 => None
  | S f =>
      match ts with
      | TPunct 40 :: r =>
          '(b, r') ← parse_expr f r;
          match r' with
          | TPunct 41 :: r'' => parse_call_rest f (ECall a b) r''
          | _ => None
          end
      | _ => Some (a, ts)
      end
  end
with parse_atom (fuel : nat) (ts : list token)
  : option (expr * list token) :=
  match fuel with
  | 0 => None
  | S f =>
      match ts with
      | TInt n :: r => Some (EInt n, r)
      | TStr s :: r => Some (EStr s, r)
      | TName x :: r => if is_keyword x then None else Some (EName x, r)
      | TPunct 91 :: r =>
          '(a, r') ← parse_expr f r;
          match r' with
          | TPunct 93 :: r'' => Some (EList a, r'')
          | _ => None
          end
      | TPunct 40 :: r =>
          '(a, r') ← parse_expr f r;
          match r' with
          | TPunct 41 :: r'' => Some (a, r'')
          | _ => None
          end
      | _ => None
      end
  end.

Definition expr_fuel (ts : list token) : nat := 8 * S (length ts).

(** An expression that uses all the tokens. *)
Definition parse_whole (ts : list token) : option expr :=
  '(e, r) ← parse_expr (expr_fuel ts) ts;
  match r with [] => Some e | _ => None end.

(** A logical line: a simple statement, or the head of a compound one. *)
Inductive header :=
  | HSimple (s : stmt)
  | HFor (x : pystr) (it : expr)
  | HDef (f param : pystr).

Definition parse_line (ts : list token) : option header :=
  match ts with
  | TName x :: r =>
      if bool_decide (x = s2l "pass") then
        match r with [] => Some (HSimple SPass) | _ => None end
      else if bool_decide (x = s2l "raise") then
        e ← parse_whole r; Some (HSimple (SRaise e))
      else if bool_decide (x = s2l "def") then
        match r with
        | [TName f; TPunct 40; TName p; TPunct 41; TPunct 58] =>
            if is_keyword f || is_keyword p then None else Some (HDef f p)
        | _ => None
        end
      else if bool_decide (x = s2l "for") then
        match r with
        | TName y :: TName i :: r' =>
            if is_keyword y || negb (bool_decide (i = s2l "in")) then None
            else
              '(e, r'') ← parse_expr (expr_fuel r') r';
              match r'' with
              | [TPunct 58] => Some (HFor y e)
              | _ => None
              end
        | _ => None
        end
      else if is_keyword x then None
      else
        match r with
        | TPunct 61 :: r' => e ← parse_whole r'; Some (HSimple (SAssign x e))
        | TPunct 91 :: r' =>
            '(i, r'') ← parse_expr (expr_fuel r') r';
            match r'' with
            | TPunct 93 :: TPlusEq :: r3 =>
                e ← parse_whole r3; Some (HSimple (SAugSub x i e))
            | _ => None
            end
        | _ => e ← parse_whole ts; Some (HSimple (SExpr e))
        end
  | _ => e ← parse_whole ts; Some (HSimple (SExpr e))
  end.

(** The statements of the block indented by [ind], and the lines after
    it.  The body of a compound statement is the block of the next line,
    which must be indented further. *)
Fixpoint parse_block (fuel : nat) (ind : nat) (ls : list (nat * header))
  : option (list stmt * list (nat * header)) :=
  match fuel with
  | 0 => None
  | S f =>
      match ls with
      | [] => Some ([], [])
      | (k, h) :: r =>
          if k <? ind then Some ([], ls)
          else if ind <? k then None
          else
            match h with
            | HSimple s =>
                '(ss, r') ← parse_block f ind r; Some (s :: ss, r')
            | HFor x e =>
                match r with
                | (k', _) :: _ =>
                    if ind <? k' then
                      '(body, r1) ← parse_block f k' r;
                      '(ss, r2) ← parse_block f ind r1;
                      Some (SFor x e body :: ss, r2)
                    else None
                | [] => None
                end
            | HDef g p =>
                match r with
                | (k', _) :: _ =>
                    if ind <? k' then
                      '(body, r1) ← parse_block f k' r;
                      '(ss, r2) ← parse_block f ind r1;
                      Some (SDef g p body :: ss, r2)
                    else None
                | [] => None
                end
            end
      end
  end.

(** The non-blank lines of a text, each with its indentation. *)
Fixpoint parse_lines (ls : list pystr) : option (list (nat * header)) :=
  match ls with
  | [] => Some []
  | l :: r =>
      let '(ind, content) := span (fun c => (c =? 32)%N) l in
      match content with
      | [] => parse_lines r
      | _ =>
          ts ← tokenize (S (length content)) content;
          h ← parse_line ts;
          hs ← parse_lines r;
          Some ((length ind, h) :: hs)
      end
  end.

Definition parse_program (text : pystr) : option (list stmt) :=
  hs ← parse_lines (split_nl text);
  '(ss, r) ← parse_block (S (length hs)) 0 hs;
  match r with [] => Some ss | _ => None end.

(** *** Evaluation *)

Definition exception_classes : list pystr :=
  map s2l
    ["BaseException"; "Exception"; "ArithmeticError"; "AssertionError";
     "AttributeError"; "IndexError"; "KeyError"; "LookupError";
     "NameError"; "NotImplementedError"; "RuntimeError"; "StopIteration";
     "TypeError"; "ValueError"; "ZeroDivisionError"]%string.

(** The built-in names the fragment knows. *)
Definition builtin (x : pystr) : option value :=
  if bool_decide (x = s2l "str") then Some (VBuiltin x)
  else if bool_decide (x = s2l "range") then Some (VBuiltin x)
  else if bool_decide (x ∈ exception_classes) then Some (VExnClass x)
  else None.

(** A function has one local name, its parameter; every other name is
    looked up in the module namespace, then among the built-in names. *)
Definition lookup_name (loc : option (pystr * value)) (g : namespace)
    (x : pystr) : option value :=
  match loc with
  | Some (p, v) =>
      if bool_decide (x = p) then Some v
      else match g !! x with Some w => Some w | None => builtin x end
  | None => match g !! x with Some w => Some w | None => builtin x end
  end.

Definition str_of_Z (n : Z) : pystr :=
  match n with
  | Zneg p => 45%N :: fmt_d (Pos.to_nat p)
  | _ => fmt_d (Z.to_nat n)
  end.

(** [str(v)] *)
Definition str_value (v : value) : outcome value :=
  match v with
  | VNone => mret (VStr (s2l "None"))
  | VInt n => mret (VStr (str_of_Z n))
  | VStr s => mret (VStr s)
  | _ => NoResult
  end.

Definition add_values (a b : value) : outcome value :=
  match a, b with
  | VInt m, VInt n => mret (VInt (m + n))
  | VStr s, VStr t => mret (VStr (s ++ t))
  | VList _, _ | _, VList _ => NoResult
  | _, _ => Raise TypeError
  end.

Definition immutable (v : value) : bool :=
  match v with VList _ => false | _ => true end.

Definition mul_values (a b : value) : outcome value :=
  match a, b with
  | VInt m, VInt n => mret (VInt (m * n))
  | VStr s, VInt n | VInt n, VStr s =>
      mret (VStr (concat (replicate (Z.to_nat n) s)))
  | VList l, VInt n | VInt n, VList l =>
      if forallb immutable l then
        mret (VList (concat (replicate (Z.to_nat n) l)))
      else NoResult
  | VList _, _ | _, VList _ => NoResult
  | _, _ => Raise TypeError
  end.

Definition call_builtin (name : pystr) (arg : value) : outcome value :=
  if bool_decide (name = s2l "str") then str_value arg
  else if bool_decide (name = s2l "range") then
    match arg with
    | VInt n => mret (VRange (Z.to_nat n))
    | VList _ => NoResult
    | _ => Raise TypeError
    end
  else NoResult.

(** The statements a function body may hold: none of them binds a name,
    so the parameter is the only local name of the function. *)
Definition simple_stmt (s : stmt) : bool :=
  match s with
  | SPass | SExpr _ | SAugSub _ _ _ | SRaise _ => true
  | _ => false
  end.

Fixpoint eval_expr (fuel : nat) (loc : option (pystr * value))
    (g : namespace) (e : expr) {struct fuel} : outcome (value * namespace) :=
  match fuel with
  | 0 => NoResult
  | S f =>
      match e with
      | EInt n => mret (VInt n, g)
      | EStr s => mret (VStr s, g)
      | EName x =>
          match lookup_name loc g x with
          | Some (VList _) => NoResult   (* no second reference to a list *)
          | Some v => mret (v, g)
          | None => NoResult
          end
      | EList a =>
          '(v, g1) ← eval_expr f loc g a; mret (VList [v], g1)
      | EAdd a b =>
          '(va, g1) ← eval_expr f loc g a;
          '(vb, g2) ← eval_expr f loc g1 b;
          v ← add_values va vb; mret (v, g2)
      | EMul a b =>
          '(va, g1) ← eval_expr f loc g a;
          '(vb, g2) ← eval_expr f loc g1 b;
          v ← mul_values va vb; mret (v, g2)
      | ECall fe arg =>
          '(vf, g1) ← eval_expr f loc g fe;
          '(va, g2) ← eval_expr f loc g1 arg;
          match vf with
          | VFun p body =>
              g3 ← exec_block f (Some (p, va)) g2 body; mret (VNone, g3)
          | VBuiltin name => v ← call_builtin name va; mret (v, g2)
          | VExnClass c => mret (VExn c, g2)
          | _ => Raise TypeError
          end
      end
  end
with exec_stmt (fuel : nat) (loc : option (pystr * value))
    (g : namespace) (s : stmt) {struct fuel} : outcome namespace :=
  match fuel with
  | 0 => NoResult
  | S f =>
      match s with
      | SPass => mret g
      | SExpr e => '(_, g1) ← eval_expr f loc g e; mret g1
      | SAssign x e =>
          match loc with
          | Some _ => NoResult
          | None => '(v, g1) ← eval_expr f loc g e; mret (<[x := v]> g1)
          end
      | SAugSub x i e =>
          match loc with
          | Some (p, _) => if bool_decide (x = p) then NoResult
                           else aug_sub f loc g x i e
          | None => aug_sub f loc g x i e
          end
      | SFor x it body =>
          match loc with
          | Some _ => NoResult
          | None =>
              '(v, g1) ← eval_expr f loc g it;
              match v with
              | VRange n =>
                  (fix loop (ks : list nat) (g : namespace)
                     : outcome namespace :=
                     match ks with
                     | [] => mret g
                     | k :: ks' =>
                         g' ← exec_block f loc
                                (<[x := VInt (Z.of_nat k)]> g) body;
                         loop ks' g'
                     end) (seq 0 n) g1
              | _ => NoResult
              end
          end
      | SDef h p body =>
          match loc with
          | Some _ => NoResult
          | None =>
              if forallb simple_stmt body then mret (<[h := VFun p body]> g)
              else NoResult
          end
      | SRaise e =>
          '(v, _) ← eval_expr f loc g e;
          match v with
          | VExnClass c | VExn c => Raise (PyExn c)
          | _ => Raise TypeError
          end
      end
  end
with exec_block (fuel : nat) (loc : option (pystr * value))
    (g : namespace) (ss : list stmt) {struct fuel} : outcome namespace :=
  match fuel with
  | 0 => NoResult
  | S f =>
      match ss with
      | [] => mret g
      | s :: r => g1 ← exec_stmt f loc g s; exec_block f loc g1 r
      end
  end
(** [x[i] += e] for a list [x] of the module namespace: the entry is read
    once [i] is known, the sum is stored once [e] is known. *)
with aug_sub (fuel : nat) (loc : option (pystr * value))
    (g : namespace) (x : pystr) (i e : expr) {struct fuel}
  : outcome namespace :=
  match fuel with
  | 0 => NoResult
  | S f =>
      '(vi, g1) ← eval_expr f loc g i;
      match g1 !! x, vi with
      | Some (VList l), VInt n =>
          let idx := if (n <? 0)%Z then (n + Z.of_nat (length l))%Z else n in
          if (idx <? 0)%Z then Raise IndexError
          else
            match l !! Z.to_nat idx with
            | None => Raise IndexError
            | Some old =>
                if immutable old then
                  '(v, g2) ← eval_expr f loc g1 e;
                  new ← add_values old v;
                  match g2 !! x with
                  | Some (VList l2) =>
                      mret (<[x := VList (<[Z.to_nat idx := new]> l2)]> g2)
                  | _ => NoResult
                  end
                else NoResult
            end
      | Some (VList _), VList _ => NoResult
      | Some (VList _), _ => Raise TypeError
      | _, _ => NoResult
      end
  end.

Definition fuel : nat := 1000.

Definition exec (text : pystr) (g : namespace) : outcome namespace :=
  match parse_program text with
  | None => NoResult
  | Some ss => exec_block fuel None g ss
  end.

End MiniPy.

(** A document, rendered with [MiniPy.exec] as the host's facility. *)
Definition render (lines : list pystr) : outcome pystr :=
  pypage MiniPy.exec lines.

(** ** Classes of lines

    The tests of the loop of [process_python_tags] as predicates on a line,
    to state what the scanner does with each kind of line. *)

(** The pattern of a literal text. *)
Definition lit (w : pystr) : list item := map (fun c => One (Chr c)) w.

Definition block_open (line : pystr) : bool :=
  if re_match re_delimiter_open line is Some _ then true else false.

Definition block_close (line : pystr) : bool :=
  if re_match re_delimiter_close line is Some _ then true else false.

Definition inline_pair (line : pystr) : bool :=
  match re_search re_short_open line, re_search re_short_close line with
  | Some _, Some _ => true
  | _, _ => false
  end.

(** A line that takes one of the last two branches of the loop. *)
Definition plain_line (line : pystr) : bool :=
  negb (block_open line || block_close line || inline_pair line).

(** What a plain line adds to [collect]. *)
Definition contribution (m : collect_mode) (k : nat) (line : pystr) : pystr :=
  match m with
  | mode_plain => line
  | mode_code => dedent k line
  end.

(** ** Classes of documents *)

(** A document without block tags and without inline tags. *)
Definition tag_free (lines : list pystr) : bool := forallb plain_line lines.

(** Whether the last block delimiter line of [lines] is a block-open line,
    [b] standing for the lines before. *)
Fixpoint pending_open_from (b : bool) (lines : list pystr) : bool :=
  match lines with
  | [] => b
  | l :: r =>
      pending_open_from
        (if block_open l then true else if block_close l then false else b) r
  end.

(** Whether [lines] ends inside a block that was opened and not closed. *)
Definition pending_open (lines : list pystr) : bool :=
  pending_open_from false lines.

Definition mode_is_code (m : collect_mode) : bool :=
  match m with mode_code => true | mode_plain => false end.

(** ** Occurrences of a text *)

Fixpoint starts_with (w s : pystr) : bool :=
  match w, s with
  | [], _ => true
  | c :: w', d :: s' => (c =? d)%N && starts_with w' s'
  | _ :: _, [] => false
  end.

(** Whether [w] occurs in [s]. *)
Fixpoint occurs (w s : pystr) : bool :=
  starts_with w s || match s with [] => false | _ :: s' => occurs w s' end.

(** ** States of the scanner *)

(** The variables of the loop after a line with an inline pair, [mo] and
    [mc] being the matches of the opening and of the closing delimiter. *)
Definition after_inline (st : scan_state) (line : pystr) (mo mc : nat * nat)
  : scan_state :=
  mkScan
    (st_result st ++ [Text (st_collect st ++ take (fst mo) line);
                      Py (mkPythonCode (slice (snd mo) (fst mc) line) 0)])
    (drop (snd mc) line) (st_id_level st) (st_mode st).

(** [collect] after the plain lines [rest], from the state [st]. *)
Definition collected (st : scan_state) (rest : list pystr) : pystr :=
  st_collect st
  ++ concat (map (contribution (st_mode st) (st_id_level st)) rest).

(** ** Parts of the program *)

(** A string literal in double quotes. *)
Definition quoted (s : string) : pystr := DQ :: s2l s ++ [DQ].
Arguments quoted s%_string.

(** The position of a code object in the scanned list and its ordinal: the
    number of code objects before it. *)
Definition ordinal (result : list element) (j : nat) : nat :=
  length (code_objects_of (take j result)).

(** The first statement of the program, the directive of a section, and the
    body of [write]. *)
Definition output_line (count : nat) : pystr :=
  s2l "__output__ = [" ++ [DQ; DQ] ++ s2l "]*" ++ fmt_d count.

Definition section_line (i : nat) : pystr := s2l "__section__ = " ++ fmt_d i.

Definition write_body : list stmt :=
  [SAugSub (s2l "__output__") (EName (s2l "__section__"))
     (ECall (EName (s2l "str")) (EName (s2l "s")))].

(** Logical lines that start at the margin. *)
Definition at_margin (hs : list (nat * MiniPy.header)) : Prop :=
  match hs with
  | [] => True
  | (k, _) :: _ => k = 0
  end.

(** The statements of a section whose code is parsed into [ss], and of the
    program of [n] sections whose codes are parsed into [sss]. *)
Definition section_stmts (i : nat) (ss : list stmt) : list stmt :=
  SAssign (s2l "__section__") (EInt (Z.of_nat i)) :: ss.

Definition prelude_stmts (n : nat) : list stmt :=
  [SAssign (s2l "__output__") (EMul (EList (EStr [])) (EInt (Z.of_nat n)));
   SDef (s2l "write") (s2l "s") write_body].

Definition program_stmts (n : nat) (sss : list (list stmt)) : list stmt :=
  prelude_stmts n ++ concat (imap section_stmts sss).

(** The namespace after the statements of the prelude. *)
Definition prelude_namespace (n : nat) (g : namespace) : namespace :=
  <[s2l "write" := VFun (s2l "s") write_body]>
    (<[s2l "__output__" := VList (replicate n (VStr []))]> g).

(** ** Counting lines *)

(** A line that takes the inline branch of the loop. *)
Definition inline_line (line : pystr) : bool :=
  negb (block_open line) && negb (block_close line) && inline_pair line.

(** The number of the lines that satisfy [p]. *)
Definition count_lines (p : pystr -> bool) (lines : list pystr) : nat :=
  length (List.filter p lines).

(** The indentation level after [lines], [k] being the level before: the
    column of the opening delimiter of the last block-open line, when no
    block-close line follows it. *)
Fixpoint open_level_from (k : nat) (lines : list pystr) : nat :=
  match lines with
  | [] => k
  | l :: r =>
      open_level_from
        (if block_open l then
           from_option fst 0 (re_search re_delimiter_open_tag_only l)
         else if block_close l then 0 else k) r
  end.

(** ** The text of the scanned list *)

(** All the text of the elements, literal or code, in order. *)
Definition pieces (result : list element) : pystr :=
  concat (map (fun e => match e with Text s => s | Py c => code c end) result).

(** A line without the delimiters of the pair that the inline branch takes:
    the three slices that the branch makes of it. *)
Definition inline_stripped (line : pystr) : pystr :=
  match re_search re_short_open line, re_search re_short_close line with
  | Some mo, Some mc =>
      take (fst mo) line ++ slice (snd mo) (fst mc) line ++ drop (snd mc) line
  | _, _ => line
  end.

(** A line as [readlines] gives it when it is not the last line of a file
    without final line feed: some text without line feed, and a line feed. *)
Definition is_line (l : pystr) : Prop := exists s, l = s ++ [NL] /\ NL ∉ s.

(** ** Files: [pypage] from a path, [main], [preprocess_multiple_files]

    The text of a file is what reading it in text mode gives, after the
    decoding and the translation of line ends.  A file system gives the
    text of every path that can be opened for reading and, for every other
    path, the exception that [open] raises there: [FileNotFoundError] for a
    path at which nothing exists, [IsADirectoryError] for a directory,
    [PermissionError] for a file that may not be read. *)

Definition FileNotFoundError : exn := PyExn (s2l "FileNotFoundError").
Definition IsADirectoryError : exn := PyExn (s2l "IsADirectoryError").

Record file_system := mkFileSystem {
  fs_files : gmap pystr pystr;
  fs_open_error : pystr -> exn
}.

(** [fs !! input_file] is the text of a file that can be opened. *)
#[global] Instance file_system_lookup : Lookup pystr pystr file_system :=
  fun input_file fs => fs_files fs !! input_file.

(** [f.readlines()]: the lines of the text, each with its line feed; the
    last one has none when the text does not end with a line feed. *)
Fixpoint readlines (s : pystr) : list pystr :=
  match s with
  | [] => []
  | c :: r =>
      if (c =? NL)%N then [NL] :: readlines r
      else match readlines r with
           | h :: t => (c :: h) :: t
           | [] => [[c]]
           end
  end.

(** [open(input_file)] followed by [f.read()]. *)
Definition open_read (fs : file_system) (input_file : pystr) : outcome pystr :=
  match fs !! input_file with
  | Some text => Ret text
  | None => Raise (fs_open_error fs input_file)
  end.

(** ["Preprocessing file %s" % input_file], as [print] writes it. *)
Definition notice (input_file : pystr) : pystr :=
  s2l "Preprocessing file " ++ input_file ++ [NL].

Section Files.

Variable exec : pystr -> namespace -> outcome namespace.
Variable fs : file_system.

(** [BeautifulSoup(result).prettify()], with the import of [bs4] before
    it: the collaborator of [main] that this development does not model. *)
Variable BeautifulSoup_prettify : pystr -> outcome pystr.

(** [pypage(input_file)]: [pypage] above, on the lines of the file. *)
Definition pypage_input_file (input_file : pystr) : outcome pystr :=
  text ← open_read fs input_file;
  pypage exec (readlines text).

(** [main(input_file, verbose, prettify)]: what it prints, and its outcome. *)
Definition main (input_file : pystr) (verbose prettify : bool)
  : pystr * outcome pystr :=
  (if verbose then notice input_file else [],
   result ← pypage_input_file input_file;
   if prettify then BeautifulSoup_prettify result else Ret result).

(** The dict comprehension of [preprocess_multiple_files], from the dict
    [acc] built so far: what it prints, and its outcome. *)
Fixpoint preprocess_files (path : pystr) (files : list pystr)
    (verbose prettify : bool) (acc : gmap pystr pystr)
  : pystr * outcome (gmap pystr pystr) :=
  match files with
  | [] => ([], Ret acc)
  | filename :: rest =>
      let (out, r) := main (path ++ s2l "/" ++ filename) verbose prettify in
      match r with
      | Ret text =>
          let (out', r') :=
            preprocess_files path rest verbose prettify (<[filename := text]> acc)
          in (out ++ out', r')
      | Raise e => (out, Raise e)
      | NoResult => (out, NoResult)
      end
  end.

Definition preprocess_multiple_files (path : pystr) (files : list pystr)
    (verbose prettify : bool) : pystr * outcome (gmap pystr pystr) :=
  preprocess_files path files verbose prettify ∅.

End Files.

(** A file system with two pages in a directory and nothing else, and a
    host without [bs4], for the examples. *)
Definition example_site : file_system :=
  mkFileSystem
    (<[s2l "pages/a.html" := ln "<p><py>write(1)</py></p>"]>
       (<[s2l "pages/b.html" := ln "<html>" ++ s2l "x"]> ∅))
    (fun input_file =>
       if bool_decide (input_file = s2l "pages") then IsADirectoryError
       else FileNotFoundError).

Definition no_bs4 (result : pystr) : outcome pystr :=
  Raise (PyExn (s2l "ImportError")).

(** * Properties *)

(** ** The matcher *)

Lemma match_here_lit_app (w : pystr) (p : list item) (s : pystr) (n : nat) :
  match_here (lit w ++ p) s = Some n <->
  exists s' m, s = w ++ s' /\ match_here p s' = Some m /\ n = length w + m.
Proof.
  revert s n. induction w as [|c w IH]; intros s n; simpl.
  - split; [intros H; exists s, n; auto | intros (s' & m & -> & H & ->); auto].
  - destruct s as [|d s]; simpl.
    + split; [discriminate | intros (s' & m & H & _); discriminate].
    + destruct (N.eqb_spec c d) as [->|Hne].
      * destruct (match_here (lit w ++ p) s) as [k|] eqn:E; simpl.
        -- apply IH in E as (s' & m & -> & Hm & ->).
           split.
           ++ intros [= <-]. exists s', m. auto.
           ++ intros (s'' & m' & Heq & Hm' & ->). injection Heq as Heq.
              apply app_inv_head in Heq as <-. congruence.
        -- split; [discriminate|].
           intros (s' & m & Heq & Hm & ->). injection Heq as ->.
           assert (match_here (lit w ++ p) (w ++ s') = Some (length w + m))
             by (apply IH; eauto).
           congruence.
      * split; [discriminate|]. intros (s' & m & Heq & _). congruence.
Qed.

Lemma match_here_lit (w s : pystr) : match_here (lit w) (w ++ s) = Some (length w).
Proof.
  rewrite <- (app_nil_r (lit w)). apply match_here_lit_app.
  exists s, 0. simpl. auto with lia.
Qed.

Lemma match_here_star (a : atom) (p : list item) (s : pystr) :
  match_here (Star a :: p) s = star a (match_here p) s.
Proof. reflexivity. Qed.

(** A starred atom takes a run of characters that match it. *)
Lemma star_inv (a : atom) (k : pystr -> option nat) (s : pystr) (n : nat) :
  star a k s = Some n ->
  exists j, j <= n /\ k (drop j s) = Some (n - j)
            /\ Forall (fun c => atom_matches a c = true) (take j s).
Proof.
  revert n. induction s as [|c s IH]; intros n; simpl.
  - intros H. exists 0. rewrite Nat.sub_0_r. auto with lia.
  - destruct (atom_matches a c) eqn:Hc.
    + destruct (star a k s) as [m|] eqn:E.
      * intros [= <-]. destruct (IH m eq_refl) as (j & Hj & Hk & Hall).
        exists (S j). simpl. repeat split; auto with lia.
      * intros H. exists 0. rewrite Nat.sub_0_r. simpl. auto with lia.
    + intros H. exists 0. rewrite Nat.sub_0_r. simpl. auto with lia.
Qed.

(** A run of matching characters before a character that does not match. *)
Lemma star_run (a : atom) (k : pystr -> option nat) (w s : pystr) (n : nat) :
  Forall (fun c => atom_matches a c = true) w ->
  match s with c :: _ => atom_matches a c = false | [] => True end ->
  k s = Some n ->
  star a k (w ++ s) = Some (length w + n).
Proof.
  intros Hw Hs Hk. induction Hw as [|c w Hc Hw IH]; simpl.
  - destruct s as [|d s]; simpl; [done|]. by rewrite Hs.
  - by rewrite Hc, IH.
Qed.

Lemma re_search_from_found (p : list item) (i j : nat) (s : pystr) :
  is_Some (match_here p (drop j s)) -> is_Some (re_search_from p i s).
Proof.
  revert i s. induction j as [|j IH]; intros i s [n Hn].
  - rewrite drop_0 in Hn. destruct s; simpl; rewrite Hn; eauto.
  - destruct s as [|c s]; simpl in *.
    + rewrite Hn. eauto.
    + destruct (match_here p (c :: s)); [eauto|]. apply IH. eauto.
Qed.

(** The result of a search is the first position where the pattern
    matches. *)
Lemma re_search_from_first (p : list item) (i : nat) (s : pystr) (m : nat * nat) :
  re_search_from p i s = Some m ->
  exists j n, m = (i + j, i + j + n) /\
              match_here p (drop j s) = Some n /\
              forall t, t < j -> match_here p (drop t s) = None.
Proof.
  revert i. induction s as [|c s IH]; intros i; simpl.
  - destruct (match_here p []) as [n|] eqn:E; [|discriminate].
    intros [= <-]. exists 0, n. rewrite Nat.add_0_r. repeat split; auto with lia.
  - destruct (match_here p (c :: s)) as [n|] eqn:E.
    + intros [= <-]. exists 0, n. rewrite Nat.add_0_r. repeat split; auto with lia.
    + intros H. apply IH in H as (j & n & -> & Hn & Hfirst).
      exists (S j), n. repeat split.
      * f_equal; lia.
      * done.
      * intros [|t] Ht; [done|]. apply Hfirst. lia.
Qed.

(** ** The scanner *)


Lemma re_delimiter_open_eq :
  re_delimiter_open
  = Star Space :: lit multiline_delimiter_open ++ [Star Space; One (Chr NL)].
Proof. reflexivity. Qed.

Lemma re_delimiter_close_eq :
  re_delimiter_close
  = Star Space :: lit multiline_delimiter_close ++ [Star Space; One (Chr NL)].
Proof. reflexivity. Qed.

Lemma re_delimiter_open_tag_only_eq :
  re_delimiter_open_tag_only = lit multiline_delimiter_open.
Proof. reflexivity. Qed.

(** On a block-open line the column lookup finds the delimiter, right
    after the leading white space. *)
Lemma find_indentation_level_open (line : pystr) :
  block_open line = true ->
  exists k, find_indentation_level line = Ret k
            /\ Forall (fun c => isspace c = true) (take k line)
            /\ take 8 (drop k line) = multiline_delimiter_open.
Proof.
  unfold block_open, re_match.
  destruct (match_here re_delimiter_open line) as [n|] eqn:E; [intros _|done].
  rewrite re_delimiter_open_eq, match_here_star in E.
  apply star_inv in E as (j & _ & E & Hws).
  apply match_here_lit_app in E as (s' & m & Hj & _ & _).
  assert (Hat : match_here (lit multiline_delimiter_open) (drop j line) = Some 8).
  { rewrite Hj. apply match_here_lit. }
  unfold find_indentation_level, re_search.
  rewrite re_delimiter_open_tag_only_eq.
  destruct (re_search_from (lit multiline_delimiter_open) 0 line) as [m'|] eqn:S.
  - apply re_search_from_first in S as (j' & n' & -> & Hn' & Hfirst).
    simpl. exists j'.
    assert (j' = j) as ->.
    { destruct (Nat.lt_trichotomy j' j) as [Hlt|[->|Hgt]]; [|done|].
      - exfalso.
        rewrite <- (app_nil_r (lit _)) in Hn'.
        apply match_here_lit_app in Hn' as (s'' & ? & Hj' & _ & _).
        assert (Hc : line !! j' = Some 60%N).
        { rewrite <- (Nat.add_0_r j'), <- lookup_drop, Hj'. reflexivity. }
        assert (Hc' : take j line !! j' = Some 60%N)
          by (rewrite lookup_take_lt; done).
        eapply Forall_lookup_1 in Hws; [|exact Hc']. discriminate.
      - rewrite (Hfirst j Hgt) in Hat. discriminate. }
    repeat split; [done|]. rewrite Hj. reflexivity.
  - exfalso. assert (H : is_Some (re_search_from (lit multiline_delimiter_open) 0 line)).
    { apply re_search_from_found with j. eauto. }
    rewrite S in H. by destruct H.
Qed.

Lemma scan_line_open (st : scan_state) (line : pystr) :
  block_open line = true ->
  exists k, find_indentation_level line = Ret k /\
    scan_line st line
    = Ret (mkScan (st_result st ++ [Text (st_collect st)]) [] k mode_code).
Proof.
  intros H. destruct (find_indentation_level_open line H) as (k & Hk & _).
  exists k. split; [done|]. unfold scan_line. unfold block_open in H.
  destruct (re_match re_delimiter_open line); [|done].
  rewrite Hk. reflexivity.
Qed.

Lemma scan_line_close (st : scan_state) (line : pystr) :
  block_open line = false -> block_close line = true ->
  scan_line st line
  = Ret (mkScan
           (st_result st ++ [Py (mkPythonCode (st_collect st) (st_id_level st))])
           [NL] 0 mode_plain).
Proof.
  unfold block_open, block_close, scan_line.
  destruct (re_match re_delimiter_open line); [done|].
  destruct (re_match re_delimiter_close line); done.
Qed.

Lemma scan_line_inline (st : scan_state) (line : pystr) (mo mc : nat * nat) :
  block_open line = false -> block_close line = false ->
  re_search re_short_open line = Some mo ->
  re_search re_short_close line = Some mc ->
  scan_line st line
  = Ret (mkScan
           (st_result st ++ [Text (st_collect st ++ take (fst mo) line);
                             Py (mkPythonCode (slice (snd mo) (fst mc) line) 0)])
           (drop (snd mc) line) (st_id_level st) (st_mode st)).
Proof.
  unfold block_open, block_close, scan_line. intros Ho Hc -> ->.
  destruct (re_match re_delimiter_open line); [done|].
  destruct (re_match re_delimiter_close line); done.
Qed.

Lemma scan_line_plain (st : scan_state) (line : pystr) :
  plain_line line = true ->
  scan_line st line
  = Ret (mkScan (st_result st)
           (st_collect st ++ contribution (st_mode st) (st_id_level st) line)
           (st_id_level st) (st_mode st)).
Proof.
  unfold plain_line, block_open, block_close, inline_pair, scan_line, contribution.
  destruct (re_match re_delimiter_open line); [done|].
  destruct (re_match re_delimiter_close line); [done|].
  destruct (re_search re_short_open line), (re_search re_short_close line),
    (st_mode st); done.
Qed.

(** No line makes the scanner fail. *)
Lemma scan_line_total (st : scan_state) (line : pystr) :
  exists st', scan_line st line = Ret st'.
Proof.
  destruct (block_open line) eqn:Ho.
  - destruct (scan_line_open st line Ho) as (k & _ & ->). eauto.
  - destruct (block_close line) eqn:Hc.
    + rewrite scan_line_close by done. eauto.
    + destruct (inline_pair line) eqn:Hi.
      * unfold inline_pair in Hi.
        destruct (re_search re_short_open line) as [mo|] eqn:Eo; [|done].
        destruct (re_search re_short_close line) as [mc|] eqn:Ec; [|done].
        rewrite (scan_line_inline st line mo mc Ho Hc Eo Ec). eauto.
      * rewrite scan_line_plain; [eauto|]. unfold plain_line.
        by rewrite Ho, Hc, Hi.
Qed.

Lemma scan_lines_app (st : scan_state) (a b : list pystr) :
  scan_lines st (a ++ b) = st' ← scan_lines st a; scan_lines st' b.
Proof.
  revert st. induction a as [|l a IH]; intros st; simpl; [done|].
  destruct (scan_line st l); simpl; auto.
Qed.

Lemma scan_lines_total (st : scan_state) (lines : list pystr) :
  exists st', scan_lines st lines = Ret st'.
Proof.
  revert st. induction lines as [|l lines IH]; intros st; simpl; [eauto|].
  destruct (scan_line_total st l) as [st1 ->]. simpl. apply IH.
Qed.

Lemma process_python_tags_total (lines : list pystr) :
  exists st, scan_lines scan_init lines = Ret st /\
             process_python_tags lines
             = Ret (st_result st ++ [Text (st_collect st)]).
Proof.
  destruct (scan_lines_total scan_init lines) as [st H]. exists st.
  split; [done|]. unfold process_python_tags. by rewrite H.
Qed.

(** Plain lines only extend [collect]. *)
Lemma scan_lines_plain (st : scan_state) (lines : list pystr) :
  forallb plain_line lines = true ->
  scan_lines st lines
  = Ret (mkScan (st_result st)
           (st_collect st
            ++ concat (map (contribution (st_mode st) (st_id_level st)) lines))
           (st_id_level st) (st_mode st)).
Proof.
  revert st. induction lines as [|l lines IH]; intros st; simpl.
  - intros _. rewrite app_nil_r. by destruct st.
  - intros [Hl Hr]%andb_prop. rewrite scan_line_plain by done. simpl.
    rewrite IH by done. simpl. by rewrite <- app_assoc.
Qed.

(** The white space before the delimiter of a block line is all the
    leading white space of the line. *)
Lemma delimiter_line_inv (w : pystr) (p : list item) (line : pystr) (n : nat) :
  match_here (Star Space :: lit w ++ p) line = Some n ->
  exists j s, Forall (fun c => isspace c = true) (take j line)
              /\ drop j line = w ++ s.
Proof.
  rewrite match_here_star. intros E.
  apply star_inv in E as (j & _ & E & Hws).
  apply match_here_lit_app in E as (s & m & Hj & _ & _). eauto.
Qed.

Lemma leading_space_unique (line : pystr) (j1 j2 : nat) (c1 c2 : N) :
  Forall (fun c => isspace c = true) (take j1 line) ->
  Forall (fun c => isspace c = true) (take j2 line) ->
  line !! j1 = Some c1 -> isspace c1 = false ->
  line !! j2 = Some c2 -> isspace c2 = false ->
  j1 = j2.
Proof.
  intros H1 H2 L1 S1 L2 S2.
  destruct (Nat.lt_trichotomy j1 j2) as [Hlt|[->|Hgt]]; [|done|]; exfalso.
  - assert (take j2 line !! j1 = Some c1) as Hc by (rewrite lookup_take_lt; done).
    eapply Forall_lookup_1 in H2; [|exact Hc]. congruence.
  - assert (take j1 line !! j2 = Some c2) as Hc by (rewrite lookup_take_lt; done).
    eapply Forall_lookup_1 in H1; [|exact Hc]. congruence.
Qed.

(** A line is not both a block-open and a block-close line. *)
Lemma block_close_not_open (line : pystr) :
  block_close line = true -> block_open line = false.
Proof.
  unfold block_close, block_open, re_match. intros Hc.
  destruct (match_here re_delimiter_close line) as [n|] eqn:Ec; [|done].
  destruct (match_here re_delimiter_open line) as [m|] eqn:Eo; [|done].
  exfalso.
  rewrite re_delimiter_close_eq in Ec. rewrite re_delimiter_open_eq in Eo.
  apply delimiter_line_inv in Ec as (j1 & s1 & W1 & D1).
  apply delimiter_line_inv in Eo as (j2 & s2 & W2 & D2).
  assert (line !! j1 = Some 60%N) as L1
    by (rewrite <- (Nat.add_0_r j1), <- lookup_drop, D1; reflexivity).
  assert (line !! j2 = Some 60%N) as L2
    by (rewrite <- (Nat.add_0_r j2), <- lookup_drop, D2; reflexivity).
  assert (j1 = j2) as -> by (eapply leading_space_unique; eauto).
  rewrite D1 in D2. discriminate.
Qed.

(** The mode after a line, and the invariant that the pending indentation
    level is 0 whenever the mode is plain. *)
Lemma scan_line_mode (st st' : scan_state) (line : pystr) :
  scan_line st line = Ret st' ->
  mode_is_code (st_mode st')
  = (if block_open line then true
     else if block_close line then false else mode_is_code (st_mode st))
  /\ ((st_mode st = mode_plain -> st_id_level st = 0) ->
      st_mode st' = mode_plain -> st_id_level st' = 0).
Proof.
  destruct (block_open line) eqn:Ho.
  - destruct (scan_line_open st line Ho) as (k & _ & ->).
    intros [= <-]. simpl. split; [done|]. intros _ [=].
  - destruct (block_close line) eqn:Hc.
    + rewrite scan_line_close by done. intros [= <-]. simpl. auto.
    + destruct (inline_pair line) eqn:Hi.
      * unfold inline_pair in Hi.
        destruct (re_search re_short_open line) as [mo|] eqn:Eo; [|done].
        destruct (re_search re_short_close line) as [mc|] eqn:Ec; [|done].
        rewrite (scan_line_inline st line mo mc Ho Hc Eo Ec). intros [= <-]. simpl. auto.
      * rewrite scan_line_plain by (unfold plain_line; by rewrite Ho, Hc, Hi).
        intros [= <-]. simpl. auto.
Qed.

Lemma scan_lines_mode (st st' : scan_state) (lines : list pystr) :
  scan_lines st lines = Ret st' ->
  mode_is_code (st_mode st')
  = pending_open_from (mode_is_code (st_mode st)) lines
  /\ ((st_mode st = mode_plain -> st_id_level st = 0) ->
      st_mode st' = mode_plain -> st_id_level st' = 0).
Proof.
  revert st. induction lines as [|l lines IH]; intros st; simpl.
  - intros [= <-]. auto.
  - destruct (scan_line st l) as [st1| |] eqn:E; simpl; [|done|done].
    intros H. apply scan_line_mode in E as [E1 E2].
    apply IH in H as [H1 H2]. rewrite H1, E1. auto.
Qed.

(** ** The engine and the assembler *)

Lemma code_objects_of_app (a b : list element) :
  code_objects_of (a ++ b) = code_objects_of a ++ code_objects_of b.
Proof.
  induction a as [|[s|c] a IH]; simpl; [done|done|]. by rewrite IH.
Qed.

Lemma substitute_snoc_text (r : list element) (t : pystr) (o : list pystr) :
  substitute (r ++ [Text t]) o = r' ← substitute r o; mret (r' ++ [t]).
Proof.
  revert o. induction r as [|[s|c] r IH]; intros o; simpl.
  - done.
  - rewrite IH. destruct (substitute r o); done.
  - destruct o as [|x o]; [done|]. rewrite IH. destruct (substitute r o); done.
Qed.

Lemma concat_snoc (l : list pystr) (t : pystr) : concat (l ++ [t]) = concat l ++ t.
Proof. rewrite concat_app. simpl. by rewrite app_nil_r. Qed.

(** [MiniPy] runs the program of a document without code: no buffer. *)
Lemma execPythonCode_nil : execPythonCode MiniPy.exec [] = Ret [].
Proof. vm_compute. reflexivity. Qed.

(** ** Documents without tags *)

Lemma process_python_tags_tag_free (lines : list pystr) :
  tag_free lines = true ->
  process_python_tags lines = Ret [Text (concat lines)].
Proof.
  intros H. unfold process_python_tags.
  rewrite scan_lines_plain by done. simpl. by rewrite map_id.
Qed.

(** With any evaluation facility that runs the program of a document
    without code and leaves the empty list of buffers. *)
Lemma pypage_tag_free (exec : pystr -> namespace -> outcome namespace)
    (m : namespace) (lines : list pystr) :
  tag_free lines = true ->
  exec (program []) (new_module (s2l "pypage_transient")) = Ret m ->
  m !! s2l "__output__" = Some (VList []) ->
  pypage exec lines = Ret (concat lines).
Proof.
  intros H He Hm. unfold pypage.
  rewrite process_python_tags_tag_free by done. simpl.
  unfold execPythonCode, importCode. rewrite He. simpl. rewrite Hm. simpl.
  by rewrite app_nil_r.
Qed.

(** C1.  A document with no block tag and no inline tag is scanned into a
    single literal, the concatenation of its lines, and is rendered
    unchanged: by every evaluation facility that runs the program of a
    document without code, and by [MiniPy]. *)
Theorem identity_on_tag_free_documents (lines : list pystr) :
  tag_free lines = true ->
  process_python_tags lines = Ret [Text (concat lines)]
  /\ (forall (exec : pystr -> namespace -> outcome namespace) (m : namespace),
        exec (program []) (new_module (s2l "pypage_transient")) = Ret m ->
        m !! s2l "__output__" = Some (VList []) ->
        pypage exec lines = Ret (concat lines))
  /\ render lines = Ret (concat lines).
Proof.
  intros H. split; [by apply process_python_tags_tag_free|].
  split; [intros exec m; by apply pypage_tag_free|].
  unfold render, pypage.
  rewrite process_python_tags_tag_free by done. simpl.
  rewrite execPythonCode_nil. simpl. by rewrite app_nil_r.
Qed.

Lemma identity_on_tag_free_documents_witness :
  tag_free [ln "<html>"; ln "  <p>x < y</p>"; s2l "</html>"] = true
  /\ (process_python_tags [ln "<html>"; ln "  <p>x < y</p>"; s2l "</html>"]
      = Ret [Text (concat [ln "<html>"; ln "  <p>x < y</p>"; s2l "</html>"])]
      /\ (forall (exec : pystr -> namespace -> outcome namespace)
            (m : namespace),
            exec (program []) (new_module (s2l "pypage_transient")) = Ret m ->
            m !! s2l "__output__" = Some (VList []) ->
            pypage exec [ln "<html>"; ln "  <p>x < y</p>"; s2l "</html>"]
            = Ret (concat [ln "<html>"; ln "  <p>x < y</p>"; s2l "</html>"]))
      /\ render [ln "<html>"; ln "  <p>x < y</p>"; s2l "</html>"]
         = Ret (concat [ln "<html>"; ln "  <p>x < y</p>"; s2l "</html>"])).
Proof.
  split; [reflexivity|].
  apply (identity_on_tag_free_documents
           [ln "<html>"; ln "  <p>x < y</p>"; s2l "</html>"]).
  reflexivity.
Defined.

(** ** The assertion of the column lookup *)

(** C8.  On a line that matches the block-open pattern, the search for the
    bare opening delimiter succeeds, at the end of the leading white space:
    the assertion of [find_indentation_level] holds, and no document makes
    [process_python_tags] raise. *)
Theorem block_open_assertion_unreachable
    (line : pystr) (m : nat * nat) (lines : list pystr) :
  re_match re_delimiter_open line = Some m ->
  (exists k, find_indentation_level line = Ret k
             /\ Forall (fun c => isspace c = true) (take k line)
             /\ take 8 (drop k line) = multiline_delimiter_open)
  /\ (exists r, process_python_tags lines = Ret r).
Proof.
  intros H. split.
  - apply find_indentation_level_open. unfold block_open. by rewrite H.
  - destruct (process_python_tags_total lines) as (st & _ & ->). eauto.
Qed.

Lemma block_open_assertion_unreachable_witness :
  re_match re_delimiter_open (ln "    <python>  ") = Some (0, 15)
  /\ ((exists k, find_indentation_level (ln "    <python>  ") = Ret k
                 /\ Forall (fun c => isspace c = true)
                      (take k (ln "    <python>  "))
                 /\ take 8 (drop k (ln "    <python>  "))
                    = multiline_delimiter_open)
      /\ (exists r, process_python_tags
                      [ln "    <python>  "; ln "    x = 1"; ln "    </python>"]
                    = Ret r)).
Proof.
  split; [reflexivity|].
  apply (block_open_assertion_unreachable (ln "    <python>  ") (0, 15)).
  reflexivity.
Defined.

(** ** A block that is never closed *)

(** C6, as the code has it.  When a block-open line is followed, up to the
    end of the document, only by lines that are neither block lines nor
    lines with an inline pair, the scan succeeds and ends with one more
    literal: those lines, each without its first [k] characters, [k] being
    the column of the opening delimiter, and a line of at most [k]
    characters counting as an empty line; when the lines are indented by
    [k] spaces, that is the lines without this indentation.  The code
    handed to the evaluation facility is the code of the lines before the
    block, and the rendered text is theirs followed by that literal. *)
Theorem unterminated_block_is_literal
    (exec : pystr -> namespace -> outcome namespace)
    (pre : list pystr) (ol : pystr) (body : list pystr) :
  block_open ol = true ->
  forallb plain_line body = true ->
  exists r k,
    process_python_tags pre = Ret r
    /\ find_indentation_level ol = Ret k
    /\ process_python_tags (pre ++ ol :: body)
       = Ret (r ++ [Text (concat
                           (map (fun line : pystr =>
                                   if decide (k < length line)
                                   then drop k line else [NL])
                              body))])
    /\ (forall ts : list pystr,
          body = map (fun t => spaces k ++ t) ts ->
          Forall (fun t => t <> []) ts ->
          process_python_tags (pre ++ ol :: body)
          = Ret (r ++ [Text (concat ts)]))
    /\ (forall t : pystr,
          code_objects_of (r ++ [Text t]) = code_objects_of r)
    /\ pypage exec (pre ++ ol :: body)
       = (out ← pypage exec pre;
          mret (out ++ concat
                         (map (fun line : pystr =>
                                 if decide (k < length line)
                                 then drop k line else [NL])
                            body))).
Proof.
  intros Ho Hb.
  destruct (process_python_tags_total pre) as (st & Hst & Hpre).
  destruct (scan_line_open st ol Ho) as (k & Hk & Hol).
  exists (st_result st ++ [Text (st_collect st)]), k.
  assert (Hall : process_python_tags (pre ++ ol :: body)
                 = Ret ((st_result st ++ [Text (st_collect st)])
                          ++ [Text (concat
                                      (map (fun line : pystr =>
                                              if decide (k < length line)
                                              then drop k line else [NL])
                                         body))])).
  { unfold process_python_tags. rewrite scan_lines_app, Hst. simpl.
    rewrite Hol. simpl. rewrite scan_lines_plain by done. reflexivity. }
  assert (Hco : forall t, code_objects_of
                            ((st_result st ++ [Text (st_collect st)]) ++ [Text t])
                          = code_objects_of (st_result st ++ [Text (st_collect st)])).
  { intros t. rewrite (code_objects_of_app _ [Text t]). simpl. apply app_nil_r. }
  split; [done|]. split; [done|]. split; [done|]. split; [|split; [done|]].
  - intros ts -> Hts. rewrite Hall. do 4 f_equal.
    clear -Hts. induction Hts as [|t ts Ht _ IH]; [done|]. cbn [map concat].
    rewrite IH. f_equal. rewrite length_app.
    assert (Hl : length (spaces k) = k) by apply length_replicate.
    rewrite Hl. destruct t as [|c t]; [done|]. simpl length.
    case_decide; [|lia]. by rewrite drop_app_length'.
  - unfold pypage. rewrite Hall, Hpre. simpl. rewrite Hco.
    destruct (execPythonCode exec _) as [o| |]; simpl; [|done|done].
    rewrite substitute_snoc_text.
    destruct (substitute _ o) as [r'| |]; simpl; [|done|done].
    by rewrite concat_snoc.
Qed.

Lemma unterminated_block_is_literal_witness :
  block_open (ln "  <python>") = true
  /\ forallb plain_line [ln "  write(1)"; ln "x"; s2l "    y"] = true
  /\ exists r k,
       process_python_tags [ln "a"] = Ret r
       /\ find_indentation_level (ln "  <python>") = Ret k
       /\ process_python_tags
            ([ln "a"] ++ ln "  <python>" :: [ln "  write(1)"; ln "x"; s2l "    y"])
          = Ret (r ++ [Text (concat
                              (map (fun line : pystr =>
                                      if decide (k < length line)
                                      then drop k line else [NL])
                                 [ln "  write(1)"; ln "x"; s2l "    y"]))])
       /\ (forall ts : list pystr,
             [ln "  write(1)"; ln "x"; s2l "    y"]
             = map (fun t => spaces k ++ t) ts ->
             Forall (fun t => t <> []) ts ->
             process_python_tags
               ([ln "a"] ++ ln "  <python>"
                :: [ln "  write(1)"; ln "x"; s2l "    y"])
             = Ret (r ++ [Text (concat ts)]))
       /\ (forall t : pystr,
             code_objects_of (r ++ [Text t]) = code_objects_of r)
       /\ pypage MiniPy.exec
            ([ln "a"] ++ ln "  <python>" :: [ln "  write(1)"; ln "x"; s2l "    y"])
          = (out ← pypage MiniPy.exec [ln "a"];
             mret (out ++ concat
                            (map (fun line : pystr =>
                                    if decide (k < length line)
                                    then drop k line else [NL])
                               [ln "  write(1)"; ln "x"; s2l "    y"]))).
Proof.
  split; [reflexivity|]. split; [reflexivity|].
  apply (unterminated_block_is_literal MiniPy.exec [ln "a"] (ln "  <python>")
           [ln "  write(1)"; ln "x"; s2l "    y"]); reflexivity.
Defined.

(** The rendering of that document: the script is text, [x] became an empty
    line. *)
Example unterminated_block_rendered :
  render [ln "a"; ln "  <python>"; ln "  write(1)"; ln "x"; s2l "    y"]
  = Ret (ln "a" ++ ln "write(1)" ++ [NL] ++ s2l "  y").
Proof. vm_compute. reflexivity. Qed.

(** The original statement of C6, for every document with a block-open
    line that no block-close line follows, fails when a line of the open
    block holds an inline pair: that line is split as everywhere else, its
    text keeps its indentation, and its inline code is evaluated. *)
Lemma unterminated_block_inline_counterexample :
  process_python_tags
    [ln "a"; ln "  <python>"; ln "  x = 1"; ln "  <b><py>write(7)</py></b>";
     ln "  y = 2"]
  = Ret [Text (ln "a"); Text (ln "x = 1" ++ s2l "  <b>");
         Py (mkPythonCode (s2l "write(7)") 0);
         Text (ln "</b>" ++ ln "y = 2")]
  /\ render
       [ln "a"; ln "  <python>"; ln "  x = 1"; ln "  <b><py>write(7)</py></b>";
        ln "  y = 2"]
     = Ret (ln "a" ++ ln "x = 1" ++ ln "  <b>7</b>" ++ ln "y = 2")
  /\ ~ (exists r : list element,
          process_python_tags [ln "a"] = Ret r
          /\ process_python_tags
               [ln "a"; ln "  <python>"; ln "  x = 1";
                ln "  <b><py>write(7)</py></b>"; ln "  y = 2"]
             = Ret (r ++ [Text (ln "x = 1" ++ ln "<b><py>write(7)</py></b>"
                                ++ ln "y = 2")]))
  /\ ~ (exists text : pystr,
          render
            [ln "a"; ln "  <python>"; ln "  x = 1";
             ln "  <b><py>write(7)</py></b>"; ln "  y = 2"]
          = Ret text
          /\ occurs (ln "x = 1" ++ ln "<b><py>write(7)</py></b>" ++ ln "y = 2")
               text = true).
Proof.
  assert (Hs : process_python_tags
                 [ln "a"; ln "  <python>"; ln "  x = 1";
                  ln "  <b><py>write(7)</py></b>"; ln "  y = 2"]
               = Ret [Text (ln "a"); Text (ln "x = 1" ++ s2l "  <b>");
                      Py (mkPythonCode (s2l "write(7)") 0);
                      Text (ln "</b>" ++ ln "y = 2")])
    by (vm_compute; reflexivity).
  assert (Hr : render
                 [ln "a"; ln "  <python>"; ln "  x = 1";
                  ln "  <b><py>write(7)</py></b>"; ln "  y = 2"]
               = Ret (ln "a" ++ ln "x = 1" ++ ln "  <b>7</b>" ++ ln "y = 2"))
    by (vm_compute; reflexivity).
  split; [exact Hs|]. split; [exact Hr|]. split.
  - rewrite Hs. intros (r & Hpre & [= E]).
    assert (Hp : process_python_tags [ln "a"] = Ret [Text (ln "a")])
      by (vm_compute; reflexivity).
    rewrite Hp in Hpre. injection Hpre as <-. discriminate E.
  - rewrite Hr. intros (text & [= <-] & Hocc). vm_compute in Hocc.
    discriminate Hocc.
Qed.

(** ** A block-close line outside a block *)



(** The text before a stray block-close line is run as a script. *)
Example stray_close_rendered :
  render [ln "write(1)"; ln "</python>"] = Ret (ln "1").
Proof. vm_compute. reflexivity. Qed.

(** ** Lines indented by [k] spaces *)

Lemma Forall_isspace_spaces (k : nat) :
  Forall (fun c => isspace c = true) (spaces k).
Proof. apply Forall_replicate. reflexivity. Qed.

Lemma length_spaces (k : nat) : length (spaces k) = k.
Proof. apply length_replicate. Qed.

Lemma re_search_from_shift (p : list item) (i : nat) (s : pystr) :
  re_search_from p i s
  = (fun m => (i + fst m, i + snd m)) <$> re_search_from p 0 s.
Proof.
  revert i. induction s as [|c s IH]; intros i; simpl.
  - destruct (match_here p []); simpl; [f_equal; f_equal; lia | done].
  - destruct (match_here p (c :: s)); simpl; [f_equal; f_equal; lia |].
    rewrite (IH 1), (IH (S i)).
    destruct (re_search_from p 0 s) as [[a b]|]; simpl; [|done].
    f_equal; f_equal; lia.
Qed.

(** A search for a text that does not start with a space skips the
    indentation. *)
Lemma re_search_spaces (c : N) (p : list item) (k : nat) (s : pystr) :
  c <> 32%N ->
  re_search (One (Chr c) :: p) (spaces k ++ s)
  = (fun m => (k + fst m, k + snd m)) <$> re_search (One (Chr c) :: p) s.
Proof.
  intros Hc. unfold re_search. rewrite <- re_search_from_shift.
  assert (H : forall i, re_search_from (One (Chr c) :: p) i (spaces k ++ s)
                        = re_search_from (One (Chr c) :: p) (i + k) s).
  { induction k as [|k IH]; intros i.
    - simpl. f_equal. lia.
    - change (spaces (S k) ++ s) with (32%N :: (spaces k ++ s)).
      cbn [re_search_from match_here atom_matches].
      destruct (N.eqb_spec c 32) as [->|_]; [done|].
      rewrite IH. f_equal. lia. }
  apply (H 0).
Qed.

Lemma star_fails (a : atom) (k : pystr -> option nat) (w s : pystr) :
  (forall j, j <= length w -> k (drop j (w ++ s)) = None) ->
  match s with c :: _ => atom_matches a c = false | [] => True end ->
  star a k (w ++ s) = None.
Proof.
  revert s. induction w as [|c w IH]; intros s Hk Hs.
  - specialize (Hk 0 (le_n _)). simpl in *.
    destruct s as [|d s]; simpl; [done|]. by rewrite Hs.
  - simpl. rewrite IH; [|intros j Hj; apply (Hk (S j)); simpl; lia|done].
    pose proof (Hk 0 (Nat.le_0_l _)) as H0. simpl in H0. rewrite H0.
    by destruct (atom_matches a c).
Qed.

(** Whether an indented line is a block line does not depend on its
    indentation, when its text does not start with white space. *)
Lemma delimiter_match_spaces (c : N) (p : list item) (k : nat) (s : pystr) :
  c <> 32%N ->
  match s with d :: _ => isspace d = false | [] => True end ->
  match_here (Star Space :: One (Chr c) :: p) (spaces k ++ s)
  = (fun n => k + n) <$> match_here (One (Chr c) :: p) s.
Proof.
  intros Hc Hs. rewrite match_here_star.
  destruct (match_here (One (Chr c) :: p) s) as [n|] eqn:E; simpl.
  - rewrite <- (length_spaces k) at 2.
    apply star_run; auto using Forall_isspace_spaces.
  - apply star_fails; [|done].
    intros j Hj. rewrite length_spaces in Hj.
    rewrite drop_app_le by (rewrite length_spaces; lia).
    unfold spaces. rewrite drop_replicate.
    destruct (k - j) as [|r] eqn:Hr; [done|]. simpl.
    by destruct (N.eqb_spec c 32).
Qed.

Lemma delimiter_match_unindented (c : N) (p : list item) (s : pystr) :
  c <> 32%N ->
  match s with d :: _ => isspace d = false | [] => True end ->
  match_here (Star Space :: One (Chr c) :: p) s
  = match_here (One (Chr c) :: p) s.
Proof.
  intros Hc Hs.
  pose proof (delimiter_match_spaces c p 0 s Hc Hs) as H.
  change (spaces 0 ++ s) with s in H.
  rewrite H. destruct (match_here (One (Chr c) :: p) s); reflexivity.
Qed.

Lemma block_open_spaces (k : nat) (s : pystr) :
  match s with d :: _ => isspace d = false | [] => True end ->
  block_open (spaces k ++ s) = block_open s.
Proof.
  intros Hs. unfold block_open, re_match.
  change re_delimiter_open
    with (Star Space :: One (Chr 60) :: lit (s2l "python>") ++ [Star Space; One (Chr NL)]).
  rewrite delimiter_match_spaces, delimiter_match_unindented by done.
  destruct (match_here (One (Chr 60) :: _) s); reflexivity.
Qed.

Lemma block_close_spaces (k : nat) (s : pystr) :
  match s with d :: _ => isspace d = false | [] => True end ->
  block_close (spaces k ++ s) = block_close s.
Proof.
  intros Hs. unfold block_close, re_match.
  change re_delimiter_close
    with (Star Space :: One (Chr 60) :: lit (s2l "/python>") ++ [Star Space; One (Chr NL)]).
  rewrite delimiter_match_spaces, delimiter_match_unindented by done.
  destruct (match_here (One (Chr 60) :: _) s); reflexivity.
Qed.

Lemma inline_pair_spaces (k : nat) (s : pystr) :
  inline_pair (spaces k ++ s) = inline_pair s.
Proof.
  unfold inline_pair.
  change re_short_open with (One (Chr 60) :: lit (s2l "py>")).
  change re_short_close with (One (Chr 60) :: lit (s2l "/py>")).
  rewrite !re_search_spaces by done.
  destruct (re_search _ s), (re_search _ s); reflexivity.
Qed.

Lemma plain_line_spaces (k : nat) (s : pystr) :
  match s with d :: _ => isspace d = false | [] => True end ->
  plain_line (spaces k ++ s) = plain_line s.
Proof.
  intros Hs. unfold plain_line.
  rewrite (block_open_spaces k s Hs), (block_close_spaces k s Hs),
    (inline_pair_spaces k s).
  reflexivity.
Qed.

Lemma find_indentation_level_spaces (k : nat) (s : pystr) :
  find_indentation_level (spaces k ++ s)
  = n ← find_indentation_level s; mret (k + n).
Proof.
  unfold find_indentation_level.
  change re_delimiter_open_tag_only with (One (Chr 60) :: lit (s2l "python>")).
  rewrite re_search_spaces by done.
  destruct (re_search _ s); reflexivity.
Qed.

Lemma dedent_spaces (k : nat) (s : pystr) :
  s <> [] -> dedent k (spaces k ++ s) = s.
Proof.
  intros Hs. unfold dedent. rewrite length_app, length_spaces.
  destruct s as [|c s]; [done|]. simpl length.
  case_decide; [|lia].
  rewrite drop_app_length'; [done | by rewrite length_spaces].
Qed.

(** ** One block in a plain document *)

Lemma scan_block (st : scan_state) (k : nat) (ol : pystr)
    (body : list pystr) (cl : pystr) :
  block_open ol = true ->
  find_indentation_level ol = Ret k ->
  forallb plain_line body = true ->
  block_close cl = true ->
  scan_lines st (ol :: body ++ [cl])
  = Ret (mkScan
           (st_result st
            ++ [Text (st_collect st);
                Py (mkPythonCode (concat (map (dedent k) body)) k)])
           [NL] 0 mode_plain).
Proof.
  intros Ho Hk Hb Hc. simpl.
  destruct (scan_line_open st ol Ho) as (k' & Hk' & ->).
  assert (k' = k) as -> by congruence. simpl.
  rewrite scan_lines_app, scan_lines_plain by done. simpl.
  rewrite scan_line_close by auto using block_close_not_open.
  simpl. by rewrite <- app_assoc.
Qed.

Lemma process_block_document (pre : list pystr) (k : nat) (ol : pystr)
    (body : list pystr) (cl : pystr) (post : list pystr) :
  tag_free pre = true ->
  block_open ol = true ->
  find_indentation_level ol = Ret k ->
  forallb plain_line body = true ->
  block_close cl = true ->
  tag_free post = true ->
  process_python_tags (pre ++ (ol :: body ++ [cl]) ++ post)
  = Ret [Text (concat pre);
         Py (mkPythonCode (concat (map (dedent k) body)) k);
         Text (NL :: concat post)].
Proof.
  intros Hpre Ho Hk Hb Hc Hpost. unfold process_python_tags.
  rewrite scan_lines_app, scan_lines_plain by done.
  cbn [mbind outcome_bind].
  rewrite scan_lines_app, (scan_block _ k) by done.
  cbn [mbind outcome_bind].
  rewrite scan_lines_plain by done. simpl. by rewrite !map_id.
Qed.

Lemma pypage_block_document (exec : pystr -> namespace -> outcome namespace)
    (pre : list pystr) (k : nat) (ol : pystr)
    (body : list pystr) (cl : pystr) (post : list pystr) (o : pystr) :
  tag_free pre = true ->
  block_open ol = true ->
  find_indentation_level ol = Ret k ->
  forallb plain_line body = true ->
  block_close cl = true ->
  tag_free post = true ->
  execPythonCode exec [mkPythonCode (concat (map (dedent k) body)) k] = Ret [o] ->
  pypage exec (pre ++ (ol :: body ++ [cl]) ++ post)
  = Ret (concat pre ++ o ++ NL :: concat post).
Proof.
  intros Hpre Ho Hk Hb Hc Hpost He. unfold pypage.
  rewrite (process_block_document pre k) by done. simpl.
  rewrite He. simpl. by rewrite app_nil_r.
Qed.

(** ** Re-indentation *)

Lemma reindent_empty (k : nat) : reindent k [] = spaces k.
Proof. unfold reindent. simpl. apply app_nil_r. Qed.

Lemma apply_indentation_lookup (ids : list nat) (j : nat) (out : list value)
    (outs : list pystr) (i : nat) (s : pystr) :
  apply_indentation ids j out = Ret outs ->
  out !! i = Some (VStr s) ->
  exists k, ids !! (j + i) = Some k /\ outs !! i = Some (reindent k s).
Proof.
  revert j outs i. induction out as [|o out IH]; intros j outs i; simpl; [done|].
  destruct o; try done.
  - destruct (ids !! j) as [k|] eqn:Hk; [|done].
    destruct (apply_indentation ids (S j) out) as [r| |] eqn:E; simpl;
      [|done|done].
    intros [= <-]. destruct i as [|i]; simpl.
    + intros [= ->]. exists k. by rewrite Nat.add_0_r.
    + intros Hi. destruct (IH _ _ _ E Hi) as (k' & Hk' & Hr).
      exists k'. split; [|done]. by rewrite <- Nat.add_succ_comm.
  - case_bool_decide; [|done].
    destruct (apply_indentation ids (S j) out) as [r| |] eqn:E; simpl;
      [|done|done].
    intros [= <-]. destruct i as [|i]; simpl; [done|].
    intros Hi. destruct (IH _ _ _ E Hi) as (k' & Hk' & Hr).
    exists k'. split; [|done]. by rewrite <- Nat.add_succ_comm.
Qed.

Lemma apply_indentation_length (ids : list nat) (j : nat) (out : list value)
    (outs : list pystr) :
  apply_indentation ids j out = Ret outs ->
  length outs = length out.
Proof.
  revert j outs. induction out as [|o out IH]; intros j outs; simpl.
  - by intros [= <-].
  - destruct o; try done.
    + destruct (ids !! j) as [k|] eqn:Hk; [|done].
      destruct (apply_indentation ids (S j) out) as [r| |] eqn:E; simpl;
        [|done|done].
      intros [= <-]. simpl. by rewrite (IH _ _ E).
    + case_bool_decide; [|done].
      destruct (apply_indentation ids (S j) out) as [r| |] eqn:E; simpl;
        [|done|done].
      intros [= <-]. simpl. by rewrite (IH _ _ E).
Qed.

Lemma exec_pass_block :
  (m ← MiniPy.exec (program [mkPythonCode (ln "pass") 0])
         (new_module (s2l "pypage_transient"));
   mret (m !! s2l "__output__"))
  = Ret (Some (VList [VStr []])).
Proof. vm_compute. reflexivity. Qed.

Lemma execPythonCode_pass (k : nat) :
  execPythonCode MiniPy.exec [mkPythonCode (ln "pass") k] = Ret [spaces k].
Proof.
  pose proof exec_pass_block as H.
  unfold execPythonCode, importCode.
  change (program [mkPythonCode (ln "pass") k])
    with (program [mkPythonCode (ln "pass") 0]).
  destruct (MiniPy.exec _ _) as [m| |]; [|done|done].
  cbn [mbind outcome_bind mret outcome_ret] in *. injection H as ->.
  cbn [apply_indentation map id_level lookup list_lookup mbind outcome_bind
         mret outcome_ret].
  by rewrite reindent_empty.
Qed.



(** The block of the witness, between two plain lines. *)
Example empty_block_rendered :
  render [ln "<ul>"; ln "  <python>"; ln "  pass"; ln "  </python>"; ln "</ul>"]
  = Ret (ln "<ul>" ++ ln "  " ++ ln "</ul>").
Proof. vm_compute. reflexivity. Qed.

(** ** A loop that writes three numbers *)

Lemma execPythonCode_range3 :
  execPythonCode MiniPy.exec
    [mkPythonCode (ln "for i in range(3):" ++ ln "    write(i)") 4]
  = Ret [s2l "    012"].
Proof. vm_compute. reflexivity. Qed.

(** C3, as the code has it.  A block opening at column 4 whose body is
    [for i in range(3):] and an indented [write(i)] is replaced by the one
    line [012] after 4 spaces: [write] appends the text of its argument to
    the buffer and no line feed, and the re-indentation prefixes each line
    of the buffer. *)
Theorem block_loop_renders_one_line (pre post : list pystr) :
  tag_free pre = true ->
  tag_free post = true ->
  render (pre ++ [ln "    <python>"; ln "    for i in range(3):";
                  ln "        write(i)"; ln "    </python>"] ++ post)
  = Ret (concat pre ++ s2l "    012" ++ NL :: concat post).
Proof.
  intros Hpre Hpost. unfold render.
  apply (pypage_block_document MiniPy.exec pre 4 (ln "    <python>")
           [ln "    for i in range(3):"; ln "        write(i)"]
           (ln "    </python>") post (s2l "    012"));
    [exact Hpre | reflexivity | reflexivity | reflexivity | reflexivity
    | exact Hpost | apply execPythonCode_range3].
Qed.

Lemma block_loop_renders_one_line_witness :
  tag_free [ln "<ul>"] = true
  /\ tag_free [ln "</ul>"] = true
  /\ render ([ln "<ul>"] ++ [ln "    <python>"; ln "    for i in range(3):";
                             ln "        write(i)"; ln "    </python>"]
             ++ [ln "</ul>"])
     = Ret (concat [ln "<ul>"] ++ s2l "    012" ++ NL :: concat [ln "</ul>"]).
Proof.
  split; [reflexivity|]. split; [reflexivity|].
  apply (block_loop_renders_one_line [ln "<ul>"] [ln "</ul>"]); reflexivity.
Defined.

(** The document of claim C3 is rendered as one line; three lines [0], [1],
    [2], each after 4 spaces, occur nowhere in the rendered text. *)
Lemma block_loop_three_lines_counterexample :
  render [ln "    <python>"; ln "    for i in range(3):";
          ln "        write(i)"; ln "    </python>"]
  = Ret (ln "    012")
  /\ ~ (exists a b : pystr,
          render [ln "    <python>"; ln "    for i in range(3):";
                  ln "        write(i)"; ln "    </python>"]
          = Ret (a ++ ln "    0" ++ ln "    1" ++ s2l "    2" ++ b)).
Proof.
  assert (H : render [ln "    <python>"; ln "    for i in range(3):";
                      ln "        write(i)"; ln "    </python>"]
              = Ret (ln "    012")) by (vm_compute; reflexivity).
  split; [done|]. rewrite H. intros (a & b & [= E]).
  apply (f_equal length) in E. rewrite !length_app in E. simpl in E. lia.
Qed.

(** ** Inline tags *)

(** A search for a text finds its first occurrence. *)
Lemma re_search_lit_first (w s : pystr) (m : nat * nat) :
  re_search (lit w) s = Some m ->
  snd m = fst m + length w
  /\ take (length w) (drop (fst m) s) = w
  /\ forall t, t < fst m -> take (length w) (drop t s) <> w.
Proof.
  intros H. apply re_search_from_first in H as (j & n & -> & Hn & Hfirst).
  rewrite <- (app_nil_r (lit w)) in Hn.
  apply match_here_lit_app in Hn as (s' & n' & Hj & [= <-] & ->).
  simpl. repeat split.
  - lia.
  - rewrite Hj. by rewrite take_app_length.
  - intros t Ht Hw. specialize (Hfirst t Ht).
    rewrite <- (take_drop (length w) (drop t s)), Hw, match_here_lit in Hfirst.
    discriminate.
Qed.

Lemma scan_lines_snoc (st : scan_state) (lines : list pystr) (line : pystr) :
  scan_lines st (lines ++ [line]) = st' ← scan_lines st lines; scan_line st' line.
Proof.
  rewrite scan_lines_app. destruct (scan_lines st lines) as [st'| |]; simpl; [|done|done].
  by destruct (scan_line st' line).
Qed.




(** ** Errors of the evaluated code *)

(** C4.  When the evaluation of the program of a document raises, [pypage]
    raises the same exception: it returns no text, partial or empty. *)
Theorem evaluation_error_is_fatal
    (exec : pystr -> namespace -> outcome namespace)
    (lines : list pystr) (r : list element) (e : exn) :
  process_python_tags lines = Ret r ->
  exec (program (code_objects_of r)) (new_module (s2l "pypage_transient"))
  = Raise e ->
  pypage exec lines = Raise e /\ forall out, pypage exec lines <> Ret out.
Proof.
  intros Hr He.
  assert (H : pypage exec lines = Raise e).
  { unfold pypage. rewrite Hr. simpl.
    unfold execPythonCode, importCode. by rewrite He. }
  split; [done|]. intros out. by rewrite H.
Qed.

Lemma evaluation_error_is_fatal_witness :
  process_python_tags [ln "<py>write(1)</py>"; ln "x<py>raise ValueError(2)</py>"]
  = Ret [Text []; Py (mkPythonCode (s2l "write(1)") 0); Text (NL :: s2l "x");
         Py (mkPythonCode (s2l "raise ValueError(2)") 0); Text [NL]]
  /\ MiniPy.exec
       (program (code_objects_of
                   [Text []; Py (mkPythonCode (s2l "write(1)") 0);
                    Text (NL :: s2l "x");
                    Py (mkPythonCode (s2l "raise ValueError(2)") 0); Text [NL]]))
       (new_module (s2l "pypage_transient"))
     = Raise (PyExn (s2l "ValueError"))
  /\ (pypage MiniPy.exec
        [ln "<py>write(1)</py>"; ln "x<py>raise ValueError(2)</py>"]
      = Raise (PyExn (s2l "ValueError"))
      /\ forall out,
           pypage MiniPy.exec
             [ln "<py>write(1)</py>"; ln "x<py>raise ValueError(2)</py>"]
           <> Ret out).
Proof.
  split; [reflexivity|]. split; [vm_compute; reflexivity|].
  apply (evaluation_error_is_fatal MiniPy.exec
           [ln "<py>write(1)</py>"; ln "x<py>raise ValueError(2)</py>"]
           [Text []; Py (mkPythonCode (s2l "write(1)") 0); Text (NL :: s2l "x");
            Py (mkPythonCode (s2l "raise ValueError(2)") 0); Text [NL]]
           (PyExn (s2l "ValueError"))).
  - reflexivity.
  - vm_compute. reflexivity.
Defined.

(** ** The text of the program *)

Lemma join_cons (sep x : pystr) (l : list pystr) :
  join sep (x :: l) = x ++ concat (map (fun y => sep ++ y) l).
Proof.
  revert x. induction l as [|y l IH]; intros x.
  - simpl. by rewrite app_nil_r.
  - change (join sep (x :: y :: l)) with (x ++ sep ++ join sep (y :: l)).
    rewrite IH. simpl. by rewrite <- app_assoc.
Qed.

Lemma concat_sep_shift (sep : pystr) (l : list pystr) :
  concat (map (fun y => sep ++ y) l) ++ sep
  = sep ++ concat (map (fun y => y ++ sep) l).
Proof.
  induction l as [|y l IH]; simpl; [by rewrite app_nil_r|].
  by rewrite <- !app_assoc, IH.
Qed.

Lemma join_app_cons (sep : pystr) (l1 : list pystr) (x : pystr) (l2 : list pystr) :
  join sep (l1 ++ x :: l2)
  = concat (map (fun y => y ++ sep) l1) ++ x ++ concat (map (fun y => sep ++ y) l2).
Proof.
  destruct l1 as [|y l1]; [apply join_cons|].
  rewrite <- app_comm_cons, join_cons, map_app, concat_app. simpl.
  rewrite <- !app_assoc. f_equal. rewrite !app_assoc. f_equal. f_equal.
  apply concat_sep_shift.
Qed.

(** The program holds the section of every code object: the assignment of
    its ordinal to [__section__], on a line, and then its code. *)
Lemma program_section (code_objects : list PythonCode) (i : nat) (co : PythonCode) :
  code_objects !! i = Some co ->
  exists a b : pystr,
    program code_objects
    = prelude (length code_objects) ++ a
      ++ (s2l "__section__ = " ++ fmt_d i ++ [NL] ++ code co) ++ b.
Proof.
  intros Hi.
  assert (Hs : exists a b, join [NL] (imap section_text code_objects)
                           = a ++ section_text i co ++ b).
  { rewrite <- (take_drop_middle code_objects i co Hi).
    rewrite imap_app, imap_cons, join_app_cons.
    rewrite length_take_le by (apply lookup_lt_Some in Hi; lia).
    rewrite Nat.add_0_r. eauto. }
  destruct Hs as (a & b & Hs). exists a, b. unfold program. by rewrite Hs.
Qed.

(** The sections stand in the order of the code objects. *)
Lemma program_sections_ordered (code_objects : list PythonCode)
    (i j : nat) (ci cj : PythonCode) :
  i < j ->
  code_objects !! i = Some ci ->
  code_objects !! j = Some cj ->
  exists a b c : pystr,
    program code_objects
    = a ++ section_text i ci ++ b ++ section_text j cj ++ c.
Proof.
  intros Hij Hi Hj.
  assert (Hj' : drop (S i) code_objects !! (j - S i) = Some cj).
  { rewrite lookup_drop. rewrite <- Hj. f_equal. lia. }
  assert (Hl : length (take i code_objects) = i)
    by (apply length_take_le; apply lookup_lt_Some in Hi; lia).
  assert (Hl' : length (take (j - S i) (drop (S i) code_objects)) = j - S i)
    by (apply length_take_le; apply lookup_lt_Some in Hj'; lia).
  assert (Hs : exists a b c, join [NL] (imap section_text code_objects)
                             = a ++ section_text i ci ++ b ++ section_text j cj ++ c).
  { rewrite <- (take_drop_middle code_objects i ci Hi).
    rewrite <- (take_drop_middle _ _ _ Hj').
    rewrite imap_app, imap_cons, join_app_cons.
    rewrite imap_app, imap_cons, map_app, concat_app, map_cons, concat_cons.
    unfold compose. rewrite Hl, Hl', Nat.add_0_r.
    replace (i + S (j - S i + 0)) with j by lia.
    rewrite <- !app_assoc.
    match goal with
    | |- exists a b c, ?X ++ _ ++ ?Y ++ [NL] ++ _ ++ ?Z = _ =>
        exists X, (Y ++ [NL]), Z
    end.
    by rewrite <- (app_assoc _ [NL]). }
  destruct Hs as (a & b & c & Hs). unfold program. rewrite Hs.
  exists (prelude (length code_objects) ++ a), b, c. by rewrite <- app_assoc.
Qed.

(** ** One program, one namespace *)

(** The rendering asks one thing of the evaluation facility: the outcome of
    the program of the document in the namespace of a fresh module. *)
Lemma pypage_one_evaluation
    (exec1 exec2 : pystr -> namespace -> outcome namespace)
    (lines : list pystr) (r : list element) :
  process_python_tags lines = Ret r ->
  exec1 (program (code_objects_of r)) (new_module (s2l "pypage_transient"))
  = exec2 (program (code_objects_of r)) (new_module (s2l "pypage_transient")) ->
  pypage exec1 lines = pypage exec2 lines.
Proof.
  intros Hr He. unfold pypage, execPythonCode, importCode.
  rewrite Hr. cbn [mbind outcome_bind]. by rewrite He.
Qed.

Lemma scan_block_then_inline (pre : list pystr) (k : nat) (ol : pystr)
    (body : list pystr) (cl : pystr) (mid : list pystr) (il : pystr)
    (mo mc : nat * nat) (post : list pystr) :
  tag_free pre = true ->
  block_open ol = true ->
  find_indentation_level ol = Ret k ->
  forallb plain_line body = true ->
  block_close cl = true ->
  tag_free mid = true ->
  block_open il = false ->
  block_close il = false ->
  re_search re_short_open il = Some mo ->
  re_search re_short_close il = Some mc ->
  tag_free post = true ->
  process_python_tags (pre ++ (ol :: body ++ [cl]) ++ mid ++ il :: post)
  = Ret [Text (concat pre);
         Py (mkPythonCode (concat (map (dedent k) body)) k);
         Text ((NL :: concat mid) ++ take (fst mo) il);
         Py (mkPythonCode (slice (snd mo) (fst mc) il) 0);
         Text (drop (snd mc) il ++ concat post)].
Proof.
  intros Hpre Ho Hk Hb Hc Hmid Hio Hic Hmo Hmc Hpost.
  unfold process_python_tags.
  rewrite scan_lines_app, scan_lines_plain by exact Hpre.
  cbn [mbind outcome_bind].
  rewrite scan_lines_app, (scan_block _ k _ _ _ Ho Hk Hb Hc).
  cbn [mbind outcome_bind].
  rewrite scan_lines_app, scan_lines_plain by exact Hmid.
  cbn [mbind outcome_bind scan_lines].
  rewrite (scan_line_inline _ il mo mc Hio Hic Hmo Hmc).
  cbn [mbind outcome_bind].
  rewrite scan_lines_plain by exact Hpost.
  cbn [mbind outcome_bind mret outcome_ret st_result st_collect st_mode
         st_id_level scan_init contribution app].
  by rewrite !map_id.
Qed.

Lemma execPythonCode_shared_scope :
  execPythonCode MiniPy.exec
    [mkPythonCode (s2l "x = " ++ quoted "A" ++ [NL]) 0;
     mkPythonCode (s2l "write(x)") 0]
  = Ret [[]; s2l "A"].
Proof. vm_compute. reflexivity. Qed.



(** The document of claim C2 in its shortest form. *)
Example shared_scope_rendered :
  render [ln "<python>"; s2l "x = " ++ quoted "A" ++ [NL]; ln "</python>";
          s2l "<py>write(x)</py>"]
  = Ret (NL :: s2l "A").
Proof. vm_compute. reflexivity. Qed.

(** A function defined by a block is called by a later inline tag, and
    writes to the buffer of the tag that calls it. *)
Example shared_definition_rendered :
  render [ln "<python>"; ln "def twice(s):"; ln "    write(s + s)";
          ln "</python>"; ln "<p><py>twice(21)</py></p>"]
  = Ret (NL :: ln "<p>42</p>").
Proof. vm_compute. reflexivity. Qed.

(** ** Numbers in the text of the program *)

Lemma uint_chars_digits (d : Decimal.uint) :
  Forall (fun c => MiniPy.is_digit c = true) (uint_chars d).
Proof. induction d; simpl; constructor; auto. Qed.

Lemma chars_uint_uint_chars (d : Decimal.uint) :
  MiniPy.chars_uint (uint_chars d) = Some d.
Proof. induction d; simpl; [done|..]; by rewrite IHd. Qed.

Lemma span_all (p : N -> bool) (s : pystr) :
  Forall (fun c => p c = true) s -> MiniPy.span p s = (s, []).
Proof.
  induction 1 as [|c s Hc _ IH]; simpl; [done|]. by rewrite Hc, IH.
Qed.

Lemma to_uint_normal (n : nat) :
  Nat.to_uint n = Decimal.D0 Decimal.Nil
  \/ match Nat.to_uint n with
     | Decimal.Nil | Decimal.D0 _ => False
     | _ => True
     end.
Proof.
  pose proof (Unsigned.to_of (Nat.to_uint n)) as H.
  rewrite Unsigned.of_to in H. rewrite H. unfold Decimal.unorm.
  pose proof (nzhead_nonzero (Nat.to_uint n)) as Hnz.
  destruct (Decimal.nzhead (Nat.to_uint n)); auto.
  exfalso. by eapply Hnz.
Qed.

Lemma number_fmt_d (n : nat) : MiniPy.number (fmt_d n) = Some (Z.of_nat n).
Proof.
  unfold MiniPy.number, fmt_d. rewrite chars_uint_uint_chars. simpl.
  rewrite Unsigned.of_to.
  destruct (to_uint_normal n) as [->|H]; [done|].
  destruct (Nat.to_uint n); done.
Qed.

Lemma tokenize_fmt_d (f : nat) (n : nat) :
  MiniPy.tokenize (S f) (fmt_d n) = Some [MiniPy.TInt (Z.of_nat n)].
Proof.
  pose proof (number_fmt_d n) as Hn.
  pose proof (span_all _ _ (uint_chars_digits (Nat.to_uint n))) as Hs.
  pose proof (uint_chars_digits (Nat.to_uint n)) as Hd.
  unfold fmt_d in *.
  destruct (uint_chars (Nat.to_uint n)) as [|c r] eqn:E.
  - exfalso. destruct (to_uint_normal n) as [H|H]; [by rewrite H in E|].
    destruct (Nat.to_uint n); done.
  - apply Forall_cons in Hd as [Hc _].
    cbn [MiniPy.tokenize].
    assert ((c =? 32)%N = false) as ->.
    { unfold MiniPy.is_digit in Hc. apply N.eqb_neq. intros ->. done. }
    rewrite Hc, Hs, Hn. reflexivity.
Qed.

(** Steps of the tokenizer. *)
Lemma tokenize_space (f : nat) (r : pystr) :
  MiniPy.tokenize (S f) (32%N :: r) = MiniPy.tokenize f r.
Proof. reflexivity. Qed.

Lemma tokenize_equals (f : nat) (r : pystr) :
  MiniPy.tokenize (S f) (61%N :: r)
  = ts ← MiniPy.tokenize f r; Some (MiniPy.TPunct 61 :: ts).
Proof. reflexivity. Qed.

Lemma tokenize_bracket_open (f : nat) (r : pystr) :
  MiniPy.tokenize (S f) (91%N :: r)
  = ts ← MiniPy.tokenize f r; Some (MiniPy.TPunct 91 :: ts).
Proof. reflexivity. Qed.

Lemma tokenize_bracket_close (f : nat) (r : pystr) :
  MiniPy.tokenize (S f) (93%N :: r)
  = ts ← MiniPy.tokenize f r; Some (MiniPy.TPunct 93 :: ts).
Proof. reflexivity. Qed.

Lemma tokenize_times (f : nat) (r : pystr) :
  MiniPy.tokenize (S f) (42%N :: r)
  = ts ← MiniPy.tokenize f r; Some (MiniPy.TPunct 42 :: ts).
Proof. reflexivity. Qed.

Lemma tokenize_empty_string (f : nat) (r : pystr) :
  MiniPy.tokenize (S f) (DQ :: DQ :: r)
  = ts ← MiniPy.tokenize f r; Some (MiniPy.TStr [] :: ts).
Proof. reflexivity. Qed.

Lemma tokenize_dunder_output (f : nat) (r : pystr) :
  MiniPy.tokenize (S f) (s2l "__output__" ++ 32%N :: r)
  = ts ← MiniPy.tokenize f (32%N :: r);
    Some (MiniPy.TName (s2l "__output__") :: ts).
Proof. reflexivity. Qed.

Lemma tokenize_dunder_section (f : nat) (r : pystr) :
  MiniPy.tokenize (S f) (s2l "__section__" ++ 32%N :: r)
  = ts ← MiniPy.tokenize f (32%N :: r);
    Some (MiniPy.TName (s2l "__section__") :: ts).
Proof. reflexivity. Qed.

Lemma tokenize_output_line (n : nat) :
  MiniPy.tokenize (S (length (output_line n))) (output_line n)
  = Some [MiniPy.TName (s2l "__output__"); MiniPy.TPunct 61; MiniPy.TPunct 91;
          MiniPy.TStr []; MiniPy.TPunct 93; MiniPy.TPunct 42;
          MiniPy.TInt (Z.of_nat n)].
Proof.
  assert (Hl : length (output_line n) = 18 + length (fmt_d n)).
  { unfold output_line. rewrite !length_app. reflexivity. }
  rewrite Hl. generalize (length (fmt_d n)) as m. intros m.
  change (output_line n)
    with (s2l "__output__"
          ++ 32%N :: 61%N :: 32%N :: 91%N :: DQ :: DQ :: 93%N :: 42%N :: fmt_d n).
  change (S (18 + m)) with (S (S (S (S (S (S (S (S (S (10 + m)))))))))).
  rewrite tokenize_dunder_output, tokenize_space, tokenize_equals,
    tokenize_space, tokenize_bracket_open, tokenize_empty_string,
    tokenize_bracket_close, tokenize_times.
  change (10 + m) with (S (9 + m)). rewrite tokenize_fmt_d. reflexivity.
Qed.

Lemma tokenize_section_line (i : nat) :
  MiniPy.tokenize (S (length (section_line i))) (section_line i)
  = Some [MiniPy.TName (s2l "__section__"); MiniPy.TPunct 61;
          MiniPy.TInt (Z.of_nat i)].
Proof.
  assert (Hl : length (section_line i) = 14 + length (fmt_d i)).
  { unfold section_line. rewrite !length_app. reflexivity. }
  rewrite Hl. generalize (length (fmt_d i)) as m. intros m.
  change (section_line i)
    with (s2l "__section__" ++ 32%N :: 61%N :: 32%N :: fmt_d i).
  change (S (14 + m)) with (S (S (S (S (S (10 + m)))))).
  rewrite tokenize_dunder_section, tokenize_space, tokenize_equals,
    tokenize_space.
  change (10 + m) with (S (9 + m)). rewrite tokenize_fmt_d. reflexivity.
Qed.

(** ** The lines of the program *)

Lemma split_nl_nonempty (s : pystr) : split_nl s <> [].
Proof.
  destruct s as [|c s]; [done|]. cbn [split_nl].
  destruct (c =? NL)%N; [done|]. by destruct (split_nl s).
Qed.

Lemma split_nl_app (a b : pystr) :
  split_nl (a ++ NL :: b) = split_nl a ++ split_nl b.
Proof.
  induction a as [|c a IH]; [reflexivity|].
  change ((c :: a) ++ NL :: b) with (c :: (a ++ NL :: b)).
  cbn [split_nl]. rewrite IH.
  destruct (c =? NL)%N; [reflexivity|].
  pose proof (split_nl_nonempty a).
  by destruct (split_nl a).
Qed.

Lemma split_nl_one_line (a : pystr) :
  Forall (fun c => c <> NL) a -> split_nl a = [a].
Proof.
  induction 1 as [|c a Hc _ IH]; [reflexivity|].
  cbn [split_nl]. rewrite IH.
  destruct (N.eqb_spec c NL); [done|reflexivity].
Qed.

Lemma digits_no_line_feed (n : nat) : Forall (fun c => c <> NL) (fmt_d n).
Proof.
  eapply Forall_impl; [apply uint_chars_digits|].
  intros c Hc ->. discriminate Hc.
Qed.

Lemma split_nl_section_line (i : nat) : split_nl (section_line i) = [section_line i].
Proof.
  apply split_nl_one_line. unfold section_line. apply Forall_app. split.
  - by repeat constructor.
  - apply digits_no_line_feed.
Qed.

Lemma split_nl_output_line (n : nat) : split_nl (output_line n) = [output_line n].
Proof.
  apply split_nl_one_line. unfold output_line.
  rewrite !Forall_app. repeat split; try (by repeat constructor).
  apply digits_no_line_feed.
Qed.

Lemma parse_lines_app (l1 l2 : list pystr) :
  MiniPy.parse_lines (l1 ++ l2)
  = hs1 ← MiniPy.parse_lines l1; hs2 ← MiniPy.parse_lines l2; Some (hs1 ++ hs2).
Proof.
  induction l1 as [|l l1 IH].
  - simpl. by destruct (MiniPy.parse_lines l2).
  - change ((l :: l1) ++ l2) with (l :: (l1 ++ l2)).
    cbn [MiniPy.parse_lines]. rewrite IH.
    destruct (MiniPy.span _ l) as [ind content].
    destruct content as [|c content]; [reflexivity|].
    destruct (MiniPy.tokenize _ _) as [ts|]; [|reflexivity]. simpl.
    destruct (MiniPy.parse_line ts) as [h|]; [|reflexivity]. simpl.
    destruct (MiniPy.parse_lines l1) as [hs1|]; [|reflexivity]. simpl.
    by destruct (MiniPy.parse_lines l2).
Qed.

Lemma parse_lines_unindented (l : pystr) (r : list pystr) (c : N) (l' : pystr) :
  l = c :: l' ->
  (c =? 32)%N = false ->
  MiniPy.parse_lines (l :: r)
  = ts ← MiniPy.tokenize (S (length l)) l;
    h ← MiniPy.parse_line ts;
    hs ← MiniPy.parse_lines r;
    Some ((0, h) :: hs).
Proof. intros -> Hc. cbn [MiniPy.parse_lines MiniPy.span]. by rewrite Hc. Qed.

Lemma parse_lines_section_line (i : nat) :
  MiniPy.parse_lines [section_line i]
  = Some [(0, MiniPy.HSimple (SAssign (s2l "__section__") (EInt (Z.of_nat i))))].
Proof.
  rewrite (parse_lines_unindented (section_line i) [] 95 (tl (section_line i))
             eq_refl eq_refl).
  rewrite tokenize_section_line. reflexivity.
Qed.

Lemma parse_lines_output_line (n : nat) :
  MiniPy.parse_lines [output_line n]
  = Some [(0, MiniPy.HSimple
                (SAssign (s2l "__output__")
                   (EMul (EList (EStr [])) (EInt (Z.of_nat n)))))].
Proof.
  rewrite (parse_lines_unindented (output_line n) [] 95 (tl (output_line n))
             eq_refl eq_refl).
  rewrite tokenize_output_line. reflexivity.
Qed.

(** ** The blocks of the program *)

Lemma parse_block_mono (f f' ind : nat) (ls : list (nat * MiniPy.header))
    (res : list stmt * list (nat * MiniPy.header)) :
  MiniPy.parse_block f ind ls = Some res -> f <= f' ->
  MiniPy.parse_block f' ind ls = Some res.
Proof.
  revert f' ind ls res. induction f as [|f IH]; intros f' ind ls res; [done|].
  intros H Hle. destruct f' as [|f']; [lia|]. apply le_S_n in Hle.
  cbn [MiniPy.parse_block] in *.
  destruct ls as [|[k h] r]; [done|].
  destruct (k <? ind); [done|]. destruct (ind <? k); [done|].
  destruct h as [s|x e|g p].
  - destruct (MiniPy.parse_block f ind r) as [[ss r']|] eqn:E; [|done].
    by rewrite (IH _ _ _ _ E Hle).
  - destruct r as [|[k' h'] r]; [done|]. destruct (ind <? k'); [|done].
    destruct (MiniPy.parse_block f k' _) as [[body r1]|] eqn:E1; [|done].
    rewrite (IH _ _ _ _ E1 Hle). simpl in *.
    destruct (MiniPy.parse_block f ind r1) as [[ss r2]|] eqn:E2; [|done].
    by rewrite (IH _ _ _ _ E2 Hle).
  - destruct r as [|[k' h'] r]; [done|]. destruct (ind <? k'); [|done].
    destruct (MiniPy.parse_block f k' _) as [[body r1]|] eqn:E1; [|done].
    rewrite (IH _ _ _ _ E1 Hle). simpl in *.
    destruct (MiniPy.parse_block f ind r1) as [[ss r2]|] eqn:E2; [|done].
    by rewrite (IH _ _ _ _ E2 Hle).
Qed.

Lemma parse_block_rest_length (f ind : nat) (ls : list (nat * MiniPy.header))
    (ss : list stmt) (r : list (nat * MiniPy.header)) :
  MiniPy.parse_block f ind ls = Some (ss, r) -> length r <= length ls.
Proof.
  revert ind ls ss r. induction f as [|f IH]; intros ind ls ss r; [done|].
  cbn [MiniPy.parse_block].
  destruct ls as [|[k h] ls]; [by intros [= <- <-]|].
  destruct (k <? ind); [by intros [= <- <-]|]. destruct (ind <? k); [done|].
  destruct h as [s|x e|g p].
  - destruct (MiniPy.parse_block f ind ls) as [[ss' r']|] eqn:E; [|done].
    intros [= <- <-]. apply IH in E. simpl. lia.
  - destruct ls as [|[k' h'] ls]; [done|]. destruct (ind <? k'); [|done].
    destruct (MiniPy.parse_block f k' _) as [[body r1]|] eqn:E1; [|done]. simpl.
    destruct (MiniPy.parse_block f ind r1) as [[ss' r2]|] eqn:E2; [|done].
    intros [= <- <-]. apply IH in E1. apply IH in E2. simpl in *. lia.
  - destruct ls as [|[k' h'] ls]; [done|]. destruct (ind <? k'); [|done].
    destruct (MiniPy.parse_block f k' _) as [[body r1]|] eqn:E1; [|done]. simpl.
    destruct (MiniPy.parse_block f ind r1) as [[ss' r2]|] eqn:E2; [|done].
    intros [= <- <-]. apply IH in E1. apply IH in E2. simpl in *. lia.
Qed.

(** The fuel that [parse_program] gives is enough for every text that can
    be parsed at all. *)
Lemma parse_block_enough (f ind : nat) (ls : list (nat * MiniPy.header))
    (res : list stmt * list (nat * MiniPy.header)) :
  MiniPy.parse_block f ind ls = Some res ->
  MiniPy.parse_block (S (length ls)) ind ls = Some res.
Proof.
  revert ind ls res. induction f as [|f IH]; intros ind ls res; [done|].
  cbn [MiniPy.parse_block].
  destruct ls as [|[k h] ls]; [done|].
  destruct (k <? ind); [done|]. destruct (ind <? k); [done|].
  cbn [length].
  destruct h as [s|x e|g p].
  - destruct (MiniPy.parse_block f ind ls) as [[ss r']|] eqn:E; [|done].
    by rewrite (IH _ _ _ E).
  - destruct ls as [|[k' h'] ls]; [done|]. destruct (ind <? k'); [|done].
    destruct (MiniPy.parse_block f k' _) as [[body r1]|] eqn:E1; [|done].
    rewrite (IH _ _ _ E1). simpl.
    destruct (MiniPy.parse_block f ind r1) as [[ss r2]|] eqn:E2; [|done].
    apply parse_block_rest_length in E1.
    pose proof (parse_block_mono _ (S (length ((k', h') :: ls))) _ _ _
                  (IH _ _ _ E2) ltac:(lia)) as E3.
    simpl in E3. by rewrite E3.
  - destruct ls as [|[k' h'] ls]; [done|]. destruct (ind <? k'); [|done].
    destruct (MiniPy.parse_block f k' _) as [[body r1]|] eqn:E1; [|done].
    rewrite (IH _ _ _ E1). simpl.
    destruct (MiniPy.parse_block f ind r1) as [[ss r2]|] eqn:E2; [|done].
    apply parse_block_rest_length in E1.
    pose proof (parse_block_mono _ (S (length ((k', h') :: ls))) _ _ _
                  (IH _ _ _ E2) ltac:(lia)) as E3.
    simpl in E3. by rewrite E3.
Qed.

(** A line at the margin ends every indented block. *)
Lemma parse_block_app_inner (f ind : nat) (hs1 : list (nat * MiniPy.header))
    (h : MiniPy.header) (t : list (nat * MiniPy.header))
    (ss : list stmt) (r : list (nat * MiniPy.header)) :
  0 < ind ->
  MiniPy.parse_block f ind hs1 = Some (ss, r) ->
  MiniPy.parse_block f ind (hs1 ++ (0, h) :: t) = Some (ss, r ++ (0, h) :: t).
Proof.
  intros Hind. revert ind Hind hs1 ss r.
  induction f as [|f IH]; intros ind Hind hs1 ss r; [done|].
  cbn [MiniPy.parse_block].
  destruct hs1 as [|[k h1] ls].
  - intros [= <- <-]. simpl.
    destruct (Nat.ltb_spec 0 ind); [done|lia].
  - rewrite <- app_comm_cons.
    destruct (k <? ind); [by intros [= <- <-]|]. destruct (ind <? k) eqn:Hk; [done|].
    destruct h1 as [s|x e|g p].
    + destruct (MiniPy.parse_block f ind ls) as [[ss' r']|] eqn:E; [|done].
      intros [= <- <-]. by rewrite (IH _ Hind _ _ _ E).
    + destruct ls as [|[k' h'] ls]; [done|]. rewrite <- app_comm_cons.
      destruct (ind <? k') eqn:Hk'; [|done].
      destruct (MiniPy.parse_block f k' _) as [[body r1]|] eqn:E1; [|done]. simpl.
      destruct (MiniPy.parse_block f ind r1) as [[ss' r2]|] eqn:E2; [|done].
      intros [= <- <-].
      assert (0 < k') by (apply Nat.ltb_lt in Hk'; lia).
      rewrite app_comm_cons, (IH _ H _ _ _ E1). simpl.
      by rewrite (IH _ Hind _ _ _ E2).
    + destruct ls as [|[k' h'] ls]; [done|]. rewrite <- app_comm_cons.
      destruct (ind <? k') eqn:Hk'; [|done].
      destruct (MiniPy.parse_block f k' _) as [[body r1]|] eqn:E1; [|done]. simpl.
      destruct (MiniPy.parse_block f ind r1) as [[ss' r2]|] eqn:E2; [|done].
      intros [= <- <-].
      assert (0 < k') by (apply Nat.ltb_lt in Hk'; lia).
      rewrite app_comm_cons, (IH _ H _ _ _ E1). simpl.
      by rewrite (IH _ Hind _ _ _ E2).
Qed.

(** Two texts that start at the margin are parsed one after the other. *)
Lemma parse_block_app_top (f1 f2 : nat) (hs1 hs2 : list (nat * MiniPy.header))
    (ss1 ss2 : list stmt) (r1 r2 : list (nat * MiniPy.header)) :
  at_margin hs2 ->
  MiniPy.parse_block f1 0 hs1 = Some (ss1, r1) ->
  MiniPy.parse_block f2 0 hs2 = Some (ss2, r2) ->
  MiniPy.parse_block (f1 + f2) 0 (hs1 ++ hs2) = Some (ss1 ++ ss2, r2).
Proof.
  intros Hm H1 H2. revert hs1 ss1 r1 H1.
  induction f1 as [|f IH]; intros hs1 ss1 r1 H1; [done|].
  destruct hs1 as [|[k h1] ls].
  - cbn [MiniPy.parse_block] in H1. injection H1 as <- <-. simpl app.
    eapply parse_block_mono; [exact H2|lia].
  - rewrite <- app_comm_cons. cbn [MiniPy.parse_block Nat.add] in *.
    destruct (k <? 0) eqn:Hk0; [by apply Nat.ltb_lt in Hk0; lia|].
    destruct (0 <? k); [done|].
    destruct h1 as [s|x e|g p].
    + destruct (MiniPy.parse_block f 0 ls) as [[ss' r']|] eqn:E; [|done].
      injection H1 as <- <-. by rewrite (IH _ _ _ E).
    + destruct ls as [|[k' h'] ls]; [done|]. rewrite <- app_comm_cons.
      destruct (0 <? k') eqn:Hk'; [|done].
      destruct (MiniPy.parse_block f k' _) as [[body ra]|] eqn:E1; [|done].
      simpl in H1.
      destruct (MiniPy.parse_block f 0 ra) as [[ss' rb]|] eqn:E2; [|done].
      injection H1 as <- <-. apply Nat.ltb_lt in Hk'.
      assert (Hb : MiniPy.parse_block (f + f2) k' (((k', h') :: ls) ++ hs2)
                   = Some (body, ra ++ hs2)).
      { destruct hs2 as [|[k2 h2] t].
        - rewrite !app_nil_r. eapply parse_block_mono; [exact E1|lia].
        - simpl in Hm. subst k2.
          eapply parse_block_mono; [by apply parse_block_app_inner|lia]. }
      rewrite app_comm_cons, Hb. simpl. by rewrite (IH _ _ _ E2).
    + destruct ls as [|[k' h'] ls]; [done|]. rewrite <- app_comm_cons.
      destruct (0 <? k') eqn:Hk'; [|done].
      destruct (MiniPy.parse_block f k' _) as [[body ra]|] eqn:E1; [|done].
      simpl in H1.
      destruct (MiniPy.parse_block f 0 ra) as [[ss' rb]|] eqn:E2; [|done].
      injection H1 as <- <-. apply Nat.ltb_lt in Hk'.
      assert (Hb : MiniPy.parse_block (f + f2) k' (((k', h') :: ls) ++ hs2)
                   = Some (body, ra ++ hs2)).
      { destruct hs2 as [|[k2 h2] t].
        - rewrite !app_nil_r. eapply parse_block_mono; [exact E1|lia].
        - simpl in Hm. subst k2.
          eapply parse_block_mono; [by apply parse_block_app_inner|lia]. }
      rewrite app_comm_cons, Hb. simpl. by rewrite (IH _ _ _ E2).
Qed.

(** ** The statements of the program *)

Lemma parse_program_inv (text : pystr) (ss : list stmt) :
  MiniPy.parse_program text = Some ss ->
  exists hs f, MiniPy.parse_lines (split_nl text) = Some hs
               /\ MiniPy.parse_block f 0 hs = Some (ss, []).
Proof.
  unfold MiniPy.parse_program.
  destruct (MiniPy.parse_lines (split_nl text)) as [hs|];
    cbn [mbind option_bind]; [|intros [=]].
  destruct (MiniPy.parse_block (S (length hs)) 0 hs) as [[ss' r]|] eqn:E;
    cbn [mbind option_bind]; [|intros [=]].
  destruct r; [|intros [=]]. intros [= ->]. eauto.
Qed.

Lemma parse_program_intro (text : pystr) (hs : list (nat * MiniPy.header))
    (f : nat) (ss : list stmt) :
  MiniPy.parse_lines (split_nl text) = Some hs ->
  MiniPy.parse_block f 0 hs = Some (ss, []) ->
  MiniPy.parse_program text = Some ss.
Proof.
  intros Hl Hb. unfold MiniPy.parse_program. rewrite Hl.
  cbn [mbind option_bind]. by rewrite (parse_block_enough _ _ _ _ Hb).
Qed.

Lemma split_nl_join (x : pystr) (l : list pystr) :
  split_nl (join [NL] (x :: l)) = concat (map split_nl (x :: l)).
Proof.
  revert x. induction l as [|y l IH]; intros x.
  - simpl. by rewrite app_nil_r.
  - change (join [NL] (x :: y :: l)) with (x ++ NL :: join [NL] (y :: l)).
    by rewrite split_nl_app, IH.
Qed.

Lemma split_nl_section_text (i : nat) (co : PythonCode) :
  split_nl (section_text i co) = section_line i :: split_nl (code co).
Proof.
  unfold section_text.
  change (s2l "__section__ = " ++ fmt_d i ++ [NL] ++ code co)
    with (s2l "__section__ = " ++ fmt_d i ++ NL :: code co).
  rewrite app_assoc. fold (section_line i).
  by rewrite split_nl_app, split_nl_section_line.
Qed.

Lemma split_nl_prelude (n : nat) (rest : pystr) :
  split_nl (prelude n ++ rest)
  = [[]; output_line n; []; s2l "def write(s):";
     s2l "    __output__[__section__] += str(s)"; []]
    ++ split_nl rest.
Proof.
  assert (E : prelude n ++ rest
              = [] ++ NL :: output_line n
                ++ NL :: (NL :: ln "def write(s):"
                            ++ s2l "    __output__[__section__] += str(s)"
                            ++ [NL])
                ++ NL :: rest).
  { unfold prelude, output_line, ln. rewrite <- !app_assoc. reflexivity. }
  rewrite E, !split_nl_app, split_nl_output_line. reflexivity.
Qed.

(** The sections, from the ordinal [i0] on. *)
Lemma sections_parse (i0 : nat) (cos : list PythonCode) (sss : list (list stmt)) :
  Forall2 (fun co ss => MiniPy.parse_program (code co) = Some ss) cos sss ->
  exists hs f,
    MiniPy.parse_lines
      (concat (imap (fun i co => split_nl (section_text (i0 + i) co)) cos))
    = Some hs
    /\ at_margin hs
    /\ MiniPy.parse_block f 0 hs
       = Some (concat (imap (fun i => section_stmts (i0 + i)) sss), []).
Proof.
  intros H. revert i0.
  induction H as [|co ss cos sss Hco _ IH]; intros i0.
  - exists [], 1. done.
  - destruct (IH (S i0)) as (hs & f & Hl & Hm & Hb).
    apply parse_program_inv in Hco as (hs0 & f0 & Hl0 & Hb0).
    exists ((0, MiniPy.HSimple (SAssign (s2l "__section__") (EInt (Z.of_nat i0))))
              :: hs0 ++ hs), (S f0 + f).
    rewrite !imap_cons. cbn [concat].
    rewrite (imap_ext _ (fun i co => split_nl (section_text (S i0 + i) co)))
      by (intros; simpl; by rewrite Nat.add_succ_r).
    rewrite (imap_ext (_ ∘ S) (fun i => section_stmts (S i0 + i)))
      by (intros; simpl; by rewrite Nat.add_succ_r).
    rewrite Nat.add_0_r, split_nl_section_text.
    repeat split.
    + change (section_line i0 :: split_nl (code co))
        with ([section_line i0] ++ split_nl (code co)).
      rewrite !parse_lines_app, parse_lines_section_line, Hl0, Hl. reflexivity.
    + rewrite app_comm_cons.
      apply (parse_block_app_top (S f0) f _ hs _ _ [] []); [done| |done].
      cbn [MiniPy.parse_block]. simpl. by rewrite Hb0.
Qed.

Lemma imap_add_0 {A B} (f : nat -> A -> B) (l : list A) :
  imap (fun i => f (0 + i)) l = imap f l.
Proof. by apply imap_ext. Qed.

(** The program of code objects whose codes can be parsed: the statements
    of the prelude, and for each code object the assignment of its ordinal
    to [__section__] and then its statements. *)
Lemma parse_program_program (cos : list PythonCode) (sss : list (list stmt)) :
  Forall2 (fun co ss => MiniPy.parse_program (code co) = Some ss) cos sss ->
  MiniPy.parse_program (program cos) = Some (program_stmts (length cos) sss).
Proof.
  intros H. destruct (sections_parse 0 cos sss H) as (hs & f & Hl & Hm & Hb).
  assert (Hlines : MiniPy.parse_lines (split_nl (join [NL] (imap section_text cos)))
                   = Some hs).
  { destruct cos as [|co cos].
    - inversion H; subst. simpl in Hl. injection Hl as <-. reflexivity.
    - rewrite imap_cons, split_nl_join, <- imap_cons.
      rewrite <- Hl. f_equal. f_equal.
      change (map split_nl (imap section_text (co :: cos)))
        with (split_nl <$> imap section_text (co :: cos)).
      rewrite fmap_imap. by apply imap_ext. }
  unfold program.
  apply (parse_program_intro _
           ([(0, MiniPy.HSimple
                   (SAssign (s2l "__output__")
                      (EMul (EList (EStr [])) (EInt (Z.of_nat (length cos))))));
             (0, MiniPy.HDef (s2l "write") (s2l "s"));
             (4, MiniPy.HSimple
                   (SAugSub (s2l "__output__") (EName (s2l "__section__"))
                      (ECall (EName (s2l "str")) (EName (s2l "s")))))] ++ hs)
           (4 + f)).
  - rewrite split_nl_prelude.
    change [[]; output_line (length cos); []; s2l "def write(s):";
            s2l "    __output__[__section__] += str(s)"; []]
      with ([[]] ++ [output_line (length cos)]
            ++ [[]; s2l "def write(s):";
                s2l "    __output__[__section__] += str(s)"; []]).
    rewrite <- !app_assoc, !parse_lines_app, parse_lines_output_line, Hlines.
    reflexivity.
  - unfold program_stmts.
    rewrite <- (imap_add_0 section_stmts).
    apply (parse_block_app_top 4 f _ hs _ _ [] []); [done|reflexivity|done].
Qed.

(** ** The evaluation of the program *)

Lemma concat_replicate_singleton {A} (n : nat) (x : A) :
  concat (replicate n [x]) = replicate n x.
Proof. induction n as [|n IH]; simpl; [done|]. by rewrite IH. Qed.

(** The statements of the prelude make [count] empty buffers and define
    [write]. *)
Lemma exec_prelude_stmts (f : nat) (g : namespace) (n : nat) (rest : list stmt) :
  MiniPy.exec_block (5 + f) None g (prelude_stmts n ++ rest)
  = MiniPy.exec_block (3 + f) None (prelude_namespace n g) rest.
Proof.
  unfold prelude_stmts, prelude_namespace.
  change (MiniPy.exec_block (5 + f) None g
            ([SAssign (s2l "__output__")
                (EMul (EList (EStr [])) (EInt (Z.of_nat n)));
              SDef (s2l "write") (s2l "s") write_body] ++ rest))
    with (MiniPy.exec_block (3 + f) None
            (<[s2l "write" := VFun (s2l "s") write_body]>
               (<[s2l "__output__"
                  := VList (concat (replicate (Z.to_nat (Z.of_nat n)) [VStr []]))]> g))
            rest).
  by rewrite Nat2Z.id, concat_replicate_singleton.
Qed.

(** The directive of a section sets the cursor to its ordinal, and the
    statements of the section follow. *)
Lemma exec_section_stmts (f : nat) (g : namespace) (i : nat)
    (ss rest : list stmt) :
  MiniPy.exec_block (3 + f) None g (section_stmts i ss ++ rest)
  = MiniPy.exec_block (2 + f) None
      (<[s2l "__section__" := VInt (Z.of_nat i)]> g) (ss ++ rest).
Proof. reflexivity. Qed.

(** [write(v)]: the text of [v] is appended to the buffer at the cursor. *)
Lemma exec_write_body (f : nat) (g : namespace) (bufs : list value)
    (i : nat) (old : pystr) (v : value) (sv : pystr) :
  g !! s2l "__output__" = Some (VList bufs) ->
  g !! s2l "__section__" = Some (VInt (Z.of_nat i)) ->
  g !! s2l "str" = None ->
  bufs !! i = Some (VStr old) ->
  MiniPy.str_value v = Ret (VStr sv) ->
  MiniPy.exec_block (6 + f) (Some (s2l "s", v)) g write_body
  = Ret (<[s2l "__output__" := VList (<[i := VStr (old ++ sv)]> bufs)]> g).
Proof.
  intros Ho Hs Hstr Hi Hv. unfold write_body.
  cbn [MiniPy.exec_block MiniPy.exec_stmt Nat.add].
  change (bool_decide (s2l "__output__" = s2l "s")) with false. cbv iota.
  cbn [MiniPy.aug_sub MiniPy.eval_expr MiniPy.lookup_name].
  change (bool_decide (s2l "__section__" = s2l "s")) with false. cbv iota.
  rewrite Hs. cbn [mbind outcome_bind mret outcome_ret]. rewrite Ho.
  destruct (Z.ltb_spec (Z.of_nat i) 0) as [?|_]; [lia|].
  destruct (Z.ltb_spec (Z.of_nat i) 0) as [?|_]; [lia|].
  rewrite Nat2Z.id, Hi. cbn [MiniPy.immutable].
  change (bool_decide (s2l "str" = s2l "s")) with false. cbv iota.
  rewrite Hstr.
  change (MiniPy.builtin (s2l "str")) with (Some (VBuiltin (s2l "str"))).
  cbn [mbind outcome_bind mret outcome_ret].
  change (bool_decide (s2l "s" = s2l "s")) with true. cbv iota.
  assert (Hnl : match v with VList _ => NoResult | _ => mret (v, g) end
                = Ret (v, g)) by (by destruct v).
  rewrite Hnl. cbn [mbind outcome_bind mret outcome_ret].
  change (MiniPy.call_builtin (s2l "str") v) with (MiniPy.str_value v).
  rewrite Hv. cbn [mbind outcome_bind mret outcome_ret MiniPy.add_values].
  rewrite Ho. reflexivity.
Qed.

Lemma exec_program (cos : list PythonCode) (sss : list (list stmt))
    (g : namespace) :
  Forall2 (fun co ss => MiniPy.parse_program (code co) = Some ss) cos sss ->
  MiniPy.exec (program cos) g
  = MiniPy.exec_block 998 None (prelude_namespace (length cos) g)
      (concat (imap section_stmts sss)).
Proof.
  intros H. unfold MiniPy.exec. rewrite (parse_program_program cos sss H).
  unfold program_stmts. apply (exec_prelude_stmts 995).
Qed.

Lemma exec_stmt_expr (f : nat) (loc : option (pystr * value)) (g : namespace)
    (e : expr) :
  MiniPy.exec_stmt (S f) loc g (SExpr e)
  = '(_, g1) ← MiniPy.eval_expr f loc g e; mret g1.
Proof. reflexivity. Qed.

Lemma eval_expr_call (f : nat) (loc : option (pystr * value)) (g : namespace)
    (fe arg : expr) :
  MiniPy.eval_expr (S f) loc g (ECall fe arg)
  = '(vf, g1) ← MiniPy.eval_expr f loc g fe;
    '(va, g2) ← MiniPy.eval_expr f loc g1 arg;
    match vf with
    | VFun p body =>
        g3 ← MiniPy.exec_block f (Some (p, va)) g2 body; mret (VNone, g3)
    | VBuiltin name => v ← MiniPy.call_builtin name va; mret (v, g2)
    | VExnClass c => mret (VExn c, g2)
    | _ => Raise TypeError
    end.
Proof. reflexivity. Qed.

Lemma eval_expr_name (f : nat) (loc : option (pystr * value)) (g : namespace)
    (x : pystr) :
  MiniPy.eval_expr (S f) loc g (EName x)
  = match MiniPy.lookup_name loc g x with
    | Some (VList _) => NoResult
    | Some v => mret (v, g)
    | None => NoResult
    end.
Proof. reflexivity. Qed.

(** A call [write(e)], for an argument [e] whose evaluation leaves the
    namespace as it is. *)
Lemma exec_write_call (f : nat) (g : namespace) (bufs : list value)
    (i : nat) (old : pystr) (e : expr) (v : value) (sv : pystr) :
  g !! s2l "write" = Some (VFun (s2l "s") write_body) ->
  g !! s2l "__output__" = Some (VList bufs) ->
  g !! s2l "__section__" = Some (VInt (Z.of_nat i)) ->
  g !! s2l "str" = None ->
  bufs !! i = Some (VStr old) ->
  MiniPy.eval_expr (7 + f) None g e = Ret (v, g) ->
  MiniPy.str_value v = Ret (VStr sv) ->
  MiniPy.exec_stmt (9 + f) None g (SExpr (ECall (EName (s2l "write")) e))
  = Ret (<[s2l "__output__" := VList (<[i := VStr (old ++ sv)]> bufs)]> g).
Proof.
  intros Hw Ho Hs Hstr Hi He Hv.
  pose proof (exec_write_body (S f) g bufs i old v sv Ho Hs Hstr Hi Hv) as Hb.
  change (6 + S f) with (S (6 + f)) in Hb.
  change (7 + f) with (S (6 + f)) in He.
  change (9 + f) with (S (S (S (6 + f)))).
  rewrite exec_stmt_expr, eval_expr_call, eval_expr_name.
  unfold MiniPy.lookup_name. rewrite Hw.
  cbn [mbind outcome_bind mret outcome_ret]. rewrite He.
  cbn [mbind outcome_bind mret outcome_ret]. rewrite Hb. reflexivity.
Qed.

(** ** Ordinals and buffers *)

Lemma ordinal_cons_text (s : pystr) (r : list element) (j : nat) :
  ordinal (Text s :: r) (S j) = ordinal r j.
Proof. reflexivity. Qed.

Lemma ordinal_cons_py (c : PythonCode) (r : list element) (j : nat) :
  ordinal (Py c :: r) (S j) = S (ordinal r j).
Proof. reflexivity. Qed.

(** The code object at position [j] of the scanned list is the one of
    ordinal [ordinal result j] in the list handed to the engine. *)
Lemma ordinal_lookup (r : list element) (j : nat) (c : PythonCode) :
  r !! j = Some (Py c) -> code_objects_of r !! ordinal r j = Some c.
Proof.
  revert j. induction r as [|[s|c'] r IH]; intros j; [done|..].
  - destruct j as [|j]; [done|]. simpl lookup. rewrite ordinal_cons_text.
    apply IH.
  - destruct j as [|j].
    + by intros [= ->].
    + rewrite ordinal_cons_py. apply IH.
Qed.

(** Ordinals grow with the position: no two code objects share one. *)
Lemma ordinal_lt (r : list element) (j j' : nat) (c : PythonCode) :
  j < j' -> r !! j = Some (Py c) -> ordinal r j < ordinal r j'.
Proof.
  revert j j'. induction r as [|[s|c'] r IH]; intros j j' Hlt; [done|..].
  - destruct j as [|j]; [done|]. destruct j' as [|j']; [lia|].
    simpl lookup. rewrite !ordinal_cons_text. apply IH. lia.
  - destruct j' as [|j']; [lia|]. rewrite ordinal_cons_py.
    destruct j as [|j].
    + intros _. unfold ordinal. simpl. lia.
    + rewrite ordinal_cons_py. intros H.
      apply -> Nat.succ_lt_mono. apply IH; [lia|exact H].
Qed.

Lemma substitute_spec (r : list element) (outs r' : list pystr) :
  substitute r outs = Ret r' ->
  length r' = length r
  /\ length (code_objects_of r) <= length outs
  /\ forall j,
       match r !! j with
       | Some (Text s) => r' !! j = Some s
       | Some (Py c) => r' !! j = outs !! ordinal r j
       | None => True
       end.
Proof.
  revert outs r'. induction r as [|[s|c] r IH]; intros outs r'; simpl.
  - intros [= <-]. split; [done|]. split; [lia|]. by intros j.
  - destruct (substitute r outs) as [r1| |] eqn:E; simpl; [|done|done].
    intros [= <-]. destruct (IH _ _ E) as (Hl & Hc & Hj).
    split; [simpl; lia|]. split; [done|]. intros [|j]; [done|].
    rewrite ordinal_cons_text. apply Hj.
  - destruct outs as [|o outs]; [done|].
    destruct (substitute r outs) as [r1| |] eqn:E; simpl; [|done|done].
    intros [= <-]. destruct (IH _ _ E) as (Hl & Hc & Hj).
    split; [simpl; lia|]. split; [simpl; lia|]. intros [|j]; [done|].
    rewrite ordinal_cons_py. apply Hj.
Qed.

Lemma apply_indentation_all (ids : list nat) (j0 : nat) (out : list value)
    (outs : list pystr) (i : nat) (v : value) :
  apply_indentation ids j0 out = Ret outs ->
  out !! i = Some v ->
  (exists s k, v = VStr s /\ ids !! (j0 + i) = Some k
               /\ outs !! i = Some (reindent k s))
  \/ (v = VBuiltin (s2l "str") /\ outs !! i = Some []).
Proof.
  revert j0 outs i. induction out as [|o out IH]; intros j0 outs i; simpl; [done|].
  destruct o; try done.
  - destruct (ids !! j0) as [k|] eqn:Hk; [|done].
    destruct (apply_indentation ids (S j0) out) as [r| |] eqn:E; simpl;
      [|done|done].
    intros [= <-]. destruct i as [|i]; simpl.
    + intros [= <-]. left. exists s, k. by rewrite Nat.add_0_r.
    + intros Hi. rewrite <- Nat.add_succ_comm. by apply (IH _ _ _ E).
  - case_bool_decide as Hn; [subst name|done].
    destruct (apply_indentation ids (S j0) out) as [r| |] eqn:E; simpl;
      [|done|done].
    intros [= <-]. destruct i as [|i]; simpl.
    + intros [= <-]. by right.
    + intros Hi. rewrite <- Nat.add_succ_comm. by apply (IH _ _ _ E).
Qed.

(** What a successful rendering is made of: one list of buffers, at least
    as many as there are code objects and exactly as many when all are
    [str]s, and in the rendered text every literal as it is and, at the
    place of every code object, the re-indented buffer of its ordinal (the
    empty text when that buffer is the class [str]). *)
Lemma pypage_success (exec : pystr -> namespace -> outcome namespace)
    (lines : list pystr) (text : pystr) :
  pypage exec lines = Ret text ->
  exists (r : list element) (m : namespace) (bufs : list value)
         (r' : list pystr),
    process_python_tags lines = Ret r
    /\ exec (program (code_objects_of r)) (new_module (s2l "pypage_transient"))
       = Ret m
    /\ m !! s2l "__output__" = Some (VList bufs)
    /\ length (code_objects_of r) <= length bufs
    /\ ((forall v, v ∈ bufs -> exists s, v = VStr s) ->
        length bufs = length (code_objects_of r))
    /\ text = concat r'
    /\ length r' = length r
    /\ forall j,
         match r !! j with
         | Some (Text s) => r' !! j = Some s
         | Some (Py c) =>
             (exists s, bufs !! ordinal r j = Some (VStr s)
                        /\ r' !! j = Some (reindent (id_level c) s))
             \/ (bufs !! ordinal r j = Some (VBuiltin (s2l "str"))
                 /\ r' !! j = Some [])
         | None => True
         end.
Proof.
  unfold pypage, execPythonCode, importCode.
  destruct (process_python_tags lines) as [r| |]; [|done|done].
  cbn [mbind outcome_bind].
  destruct (exec _ _) as [m| |] eqn:Hm; [|done|done].
  cbn [mbind outcome_bind].
  destruct (m !! s2l "__output__") as [[| | |bufs| | | | |]|] eqn:Ho; try done.
  destruct (apply_indentation _ 0 bufs) as [outs| |] eqn:Hi; [|done|done].
  cbn [mbind outcome_bind].
  destruct (substitute r outs) as [r'| |] eqn:Hs; [|done|done].
  cbn [mbind outcome_bind]. intros [= <-].
  destruct (substitute_spec _ _ _ Hs) as (Hl & Hc & Hj).
  pose proof (apply_indentation_length _ _ _ _ Hi) as Hlo.
  assert (Hle : length (code_objects_of r) <= length bufs) by lia.
  exists r, m, bufs, r'.
  split; [done|]. split; [done|]. split; [done|]. split; [done|].
  split; [|split; [done|split; [done|]]].
  - intros Hstr. apply Nat.le_antisymm; [|done].
    destruct (decide (length bufs = 0)) as [->|Hne]; [lia|].
    destruct (lookup_lt_is_Some_2 bufs (length bufs - 1)) as [v Hv]; [lia|].
    destruct (Hstr v) as [s ->]; [by eapply list_elem_of_lookup_2|].
    destruct (apply_indentation_lookup _ _ _ _ _ _ Hi Hv) as (k & Hk & _).
    apply lookup_lt_Some in Hk. rewrite length_map in Hk. simpl in Hk. lia.
  - intros j. specialize (Hj j).
    destruct (r !! j) as [[s|c]|] eqn:Hrj; [done| |done].
    pose proof (ordinal_lookup _ _ _ Hrj) as Hco.
    assert (Hlt : ordinal r j < length bufs).
    { apply lookup_lt_Some in Hco. lia. }
    destruct (lookup_lt_is_Some_2 _ _ Hlt) as [v Hv].
    destruct (apply_indentation_all _ _ _ _ _ _ Hi Hv)
      as [(s & k & -> & Hk & Hr)|[-> Hr]].
    + simpl in Hk. rewrite list_lookup_fmap, Hco in Hk. injection Hk as <-.
      left. exists s. split; [done|]. by rewrite Hj.
    + right. split; [done|]. by rewrite Hj.
Qed.

Lemma prelude_namespace_lookup (n : nat) (g : namespace) :
  prelude_namespace n g !! s2l "__output__" = Some (VList (replicate n (VStr [])))
  /\ prelude_namespace n g !! s2l "write" = Some (VFun (s2l "s") write_body).
Proof.
  unfold prelude_namespace. split.
  - rewrite lookup_insert_ne by done. apply lookup_insert_eq.
  - apply lookup_insert_eq.
Qed.




(** The buffers of the program of two code objects, as [MiniPy] leaves
    them: each tag wrote to the buffer of its own ordinal. *)
Example two_sections_two_buffers :
  (m ← MiniPy.exec
         (program [mkPythonCode (s2l "write(1)") 0;
                   mkPythonCode (ln "write(2)" ++ ln "write(3)") 0])
         (new_module (s2l "pypage_transient"));
   mret (m !! s2l "__output__", m !! s2l "__section__"))
  = Ret (Some (VList [VStr (s2l "1"); VStr (s2l "23")]), Some (VInt 1)).
Proof. vm_compute. reflexivity. Qed.

(** * Further properties of the scanner *)

(** ** Which lines are block lines *)

Lemma star_complete (a : atom) (k : pystr -> option nat) (w s : pystr) :
  Forall (fun c => atom_matches a c = true) w ->
  is_Some (k s) -> is_Some (star a k (w ++ s)).
Proof.
  intros Hw Hk. induction Hw as [|c w Hc _ IH]; simpl.
  - destruct s as [|d s]; simpl; [done|].
    destruct (atom_matches a d); [|done]. by destruct (star a k s).
  - rewrite Hc. destruct IH as [n ->]. eauto.
Qed.

(** A line matches [\s*TAG\s*\n] exactly when it is white space, the tag,
    white space and a line feed, whatever comes after the line feed. *)
Lemma delimiter_line_iff (w : pystr) (line : pystr) :
  is_Some (match_here (Star Space :: lit w ++ [Star Space; One (Chr NL)]) line)
  <-> exists ws ws' rest : pystr,
        line = ws ++ w ++ ws' ++ NL :: rest
        /\ Forall (fun c => isspace c = true) ws
        /\ Forall (fun c => isspace c = true) ws'.
Proof.
  split.
  - intros [n E]. rewrite match_here_star in E.
    apply star_inv in E as (j & _ & E & Hws).
    apply match_here_lit_app in E as (s' & m & Hj & E & _).
    rewrite match_here_star in E.
    apply star_inv in E as (j' & _ & E & Hws').
    cbn [match_here atom_matches] in E.
    destruct (drop j' s') as [|c rest] eqn:Hd; [done|].
    destruct (N.eqb_spec NL c) as [<-|]; [|done].
    exists (take j line), (take j' s'), rest. repeat split; [|done|done].
    rewrite <- Hd, take_drop, <- Hj. by rewrite take_drop.
  - intros (ws & ws' & rest & -> & Hws & Hws').
    rewrite match_here_star. apply star_complete; [done|].
    assert (H : is_Some (match_here [Star Space; One (Chr NL)] (ws' ++ NL :: rest))).
    { rewrite match_here_star. apply star_complete; [done|]. simpl. eauto. }
    destruct H as [m Hm]. exists (length w + m).
    apply match_here_lit_app. eauto.
Qed.

(** X1.  A line is a block-open line exactly when it is made of white
    space, [<python>], white space and a line feed, followed by anything;
    and a block-close line exactly when it is so with [</python>]. *)
Theorem block_lines_characterised (line : pystr) :
  (block_open line = true
   <-> exists ws ws' rest : pystr,
         line = ws ++ multiline_delimiter_open ++ ws' ++ NL :: rest
         /\ Forall (fun c => isspace c = true) ws
         /\ Forall (fun c => isspace c = true) ws')
  /\ (block_close line = true
      <-> exists ws ws' rest : pystr,
            line = ws ++ multiline_delimiter_close ++ ws' ++ NL :: rest
            /\ Forall (fun c => isspace c = true) ws
            /\ Forall (fun c => isspace c = true) ws').
Proof.
  split.
  - rewrite <- delimiter_line_iff, <- re_delimiter_open_eq.
    unfold block_open, re_match.
    destruct (match_here re_delimiter_open line); simpl; split;
      try done; try (intros [? [=]]); eauto.
  - rewrite <- delimiter_line_iff, <- re_delimiter_close_eq.
    unfold block_close, re_match.
    destruct (match_here re_delimiter_close line); simpl; split;
      try done; try (intros [? [=]]); eauto.
Qed.

Lemma block_lines_characterised_witness :
  (block_open (9%N :: ln "  <python> ") = true
   <-> exists ws ws' rest : pystr,
         9%N :: ln "  <python> "
         = ws ++ multiline_delimiter_open ++ ws' ++ NL :: rest
         /\ Forall (fun c => isspace c = true) ws
         /\ Forall (fun c => isspace c = true) ws')
  /\ (block_close (9%N :: ln "  <python> ") = true
      <-> exists ws ws' rest : pystr,
            9%N :: ln "  <python> "
            = ws ++ multiline_delimiter_close ++ ws' ++ NL :: rest
            /\ Forall (fun c => isspace c = true) ws
            /\ Forall (fun c => isspace c = true) ws').
Proof. exact (block_lines_characterised (9%N :: ln "  <python> ")). Defined.

(** X2.  A line without a line feed is neither a block-open nor a
    block-close line: a closing tag on a last line that does not end with a
    line feed leaves the block open. *)
Theorem unterminated_line_is_no_block_line (lines : list pystr) (line : pystr) :
  NL ∉ line ->
  block_open line = false /\ block_close line = false
  /\ pending_open (lines ++ [line]) = pending_open lines.
Proof.
  intros Hnl.
  assert (Ho : block_open line = false).
  { destruct (block_open line) eqn:E; [|done]. exfalso.
    apply (proj1 (block_lines_characterised line)) in E
      as (ws & ws' & rest & -> & _). apply Hnl. set_solver. }
  assert (Hc : block_close line = false).
  { destruct (block_close line) eqn:E; [|done]. exfalso.
    apply (proj2 (block_lines_characterised line)) in E
      as (ws & ws' & rest & -> & _). apply Hnl. set_solver. }
  split; [done|]. split; [done|].
  unfold pending_open. generalize false.
  induction lines as [|l lines IH]; intros b; simpl.
  - by rewrite Ho, Hc.
  - apply IH.
Qed.

Lemma unterminated_line_is_no_block_line_witness :
  (NL ∉ s2l "</python>")
  /\ block_open (s2l "</python>") = false
  /\ block_close (s2l "</python>") = false
  /\ pending_open ([ln "<python>"; ln "x = 1"] ++ [s2l "</python>"])
     = pending_open [ln "<python>"; ln "x = 1"].
Proof.
  assert (H : NL ∉ s2l "</python>")
    by (apply (bool_decide_eq_true_1 _); vm_compute; reflexivity).
  split; [exact H|].
  exact (unterminated_line_is_no_block_line [ln "<python>"; ln "x = 1"]
           (s2l "</python>") H).
Defined.

(** The script of that document is rendered as text, the tag with it. *)
Example close_tag_without_line_feed_rendered :
  render [ln "<python>"; ln "x = 1"; s2l "</python>"]
  = Ret (ln "x = 1" ++ s2l "</python>").
Proof. vm_compute. reflexivity. Qed.

(** ** How many elements the scanner returns *)

Lemma scan_line_counts (st st' : scan_state) (line : pystr) :
  scan_line st line = Ret st' ->
  length (st_result st')
  = length (st_result st)
    + (if block_open line then 1 else 0)
    + (if block_close line then 1 else 0)
    + (if inline_line line then 2 else 0)
  /\ length (code_objects_of (st_result st'))
     = length (code_objects_of (st_result st))
       + (if block_close line then 1 else 0)
       + (if inline_line line then 1 else 0).
Proof.
  unfold inline_line.
  destruct (block_open line) eqn:Ho.
  - destruct (scan_line_open st line Ho) as (k & _ & ->).
    destruct (block_close line) eqn:Hc;
      [by rewrite (block_close_not_open _ Hc) in Ho|].
    intros [= <-]. simpl.
    rewrite code_objects_of_app, !length_app. simpl. lia.
  - destruct (block_close line) eqn:Hc.
    + rewrite scan_line_close by done. intros [= <-]. simpl.
      rewrite code_objects_of_app, !length_app. simpl. lia.
    + destruct (inline_pair line) eqn:Hi.
      * unfold inline_pair in Hi.
        destruct (re_search re_short_open line) as [mo|] eqn:Eo; [|done].
        destruct (re_search re_short_close line) as [mc|] eqn:Ec; [|done].
        rewrite (scan_line_inline st line mo mc Ho Hc Eo Ec).
        intros [= <-]. simpl.
        rewrite code_objects_of_app, !length_app. simpl. lia.
      * rewrite scan_line_plain by (unfold plain_line; by rewrite Ho, Hc, Hi).
        intros [= <-]. simpl. lia.
Qed.

Lemma scan_lines_counts (st st' : scan_state) (lines : list pystr) :
  scan_lines st lines = Ret st' ->
  length (st_result st')
  = length (st_result st) + count_lines block_open lines
    + count_lines block_close lines + 2 * count_lines inline_line lines
  /\ length (code_objects_of (st_result st'))
     = length (code_objects_of (st_result st))
       + count_lines block_close lines + count_lines inline_line lines.
Proof.
  unfold count_lines. revert st.
  induction lines as [|l lines IH]; intros st; simpl.
  - intros [= <-]. lia.
  - destruct (scan_line st l) as [st1| |] eqn:E; simpl; [|done|done].
    intros H. apply scan_line_counts in E as [E1 E2].
    apply IH in H as [H1 H2]. rewrite H1, H2, E1, E2.
    destruct (block_open l), (block_close l), (inline_line l); simpl; lia.
Qed.

(** X3.  The list that [process_python_tags] returns has one element for
    each block-open line, one for each block-close line, two for each line
    with an inline pair, and one more at the end; its code objects are as
    many as the block-close lines and the lines with an inline pair
    together: a block-open line makes no code object. *)
Theorem scanned_elements_counted (lines : list pystr) (r : list element) :
  process_python_tags lines = Ret r ->
  length r
  = 1 + count_lines block_open lines + count_lines block_close lines
    + 2 * count_lines inline_line lines
  /\ length (code_objects_of r)
     = count_lines block_close lines + count_lines inline_line lines.
Proof.
  destruct (process_python_tags_total lines) as (st & Hst & ->).
  intros [= <-]. apply scan_lines_counts in Hst as [H1 H2].
  rewrite code_objects_of_app, !length_app, H1, H2. simpl. lia.
Qed.

Lemma scanned_elements_counted_witness :
  process_python_tags
    [ln "<p><py>write(1)</py></p>"; ln "<python>"; ln "write(2)";
     ln "</python>"; ln "</python>"]
  = Ret [Text (s2l "<p>"); Py (mkPythonCode (s2l "write(1)") 0);
         Text (ln "</p>"); Py (mkPythonCode (ln "write(2)") 0);
         Py (mkPythonCode [NL] 0); Text [NL]]
  /\ (length [Text (s2l "<p>"); Py (mkPythonCode (s2l "write(1)") 0);
              Text (ln "</p>"); Py (mkPythonCode (ln "write(2)") 0);
              Py (mkPythonCode [NL] 0); Text [NL]]
      = 1 + count_lines block_open
              [ln "<p><py>write(1)</py></p>"; ln "<python>"; ln "write(2)";
               ln "</python>"; ln "</python>"]
        + count_lines block_close
            [ln "<p><py>write(1)</py></p>"; ln "<python>"; ln "write(2)";
             ln "</python>"; ln "</python>"]
        + 2 * count_lines inline_line
                [ln "<p><py>write(1)</py></p>"; ln "<python>"; ln "write(2)";
                 ln "</python>"; ln "</python>"]
      /\ length (code_objects_of
                   [Text (s2l "<p>"); Py (mkPythonCode (s2l "write(1)") 0);
                    Text (ln "</p>"); Py (mkPythonCode (ln "write(2)") 0);
                    Py (mkPythonCode [NL] 0); Text [NL]])
         = count_lines block_close
             [ln "<p><py>write(1)</py></p>"; ln "<python>"; ln "write(2)";
              ln "</python>"; ln "</python>"]
           + count_lines inline_line
               [ln "<p><py>write(1)</py></p>"; ln "<python>"; ln "write(2)";
                ln "</python>"; ln "</python>"]).
Proof.
  split; [reflexivity|].
  apply (scanned_elements_counted
           [ln "<p><py>write(1)</py></p>"; ln "<python>"; ln "write(2)";
            ln "</python>"; ln "</python>"]).
  reflexivity.
Defined.

(** ** The mode and the indentation level *)

Lemma scan_line_level (st st' : scan_state) (line : pystr) :
  scan_line st line = Ret st' ->
  st_id_level st'
  = (if block_open line then
       from_option fst 0 (re_search re_delimiter_open_tag_only line)
     else if block_close line then 0 else st_id_level st).
Proof.
  destruct (block_open line) eqn:Ho.
  - destruct (scan_line_open st line Ho) as (k & Hk & ->).
    intros [= <-]. simpl. unfold find_indentation_level in Hk.
    destruct (re_search re_delimiter_open_tag_only line); [|done].
    by injection Hk as <-.
  - destruct (block_close line) eqn:Hc.
    + rewrite scan_line_close by done. by intros [= <-].
    + destruct (inline_pair line) eqn:Hi.
      * unfold inline_pair in Hi.
        destruct (re_search re_short_open line) as [mo|] eqn:Eo; [|done].
        destruct (re_search re_short_close line) as [mc|] eqn:Ec; [|done].
        rewrite (scan_line_inline st line mo mc Ho Hc Eo Ec).
        by intros [= <-].
      * rewrite scan_line_plain by (unfold plain_line; by rewrite Ho, Hc, Hi).
        by intros [= <-].
Qed.

Lemma scan_lines_level (st st' : scan_state) (lines : list pystr) :
  scan_lines st lines = Ret st' ->
  st_id_level st' = open_level_from (st_id_level st) lines.
Proof.
  revert st. induction lines as [|l lines IH]; intros st; simpl.
  - by intros [= <-].
  - destruct (scan_line st l) as [st1| |] eqn:E; simpl; [|done|done].
    intros H. apply scan_line_level in E. apply IH in H. by rewrite H, E.
Qed.

(** X4.  The mode and the indentation level depend on the block lines
    only: after any lines the mode is [code] exactly when the last block
    line is a block-open line, the level is then the column of its opening
    delimiter, and in mode [plain] the level is 0. *)
Theorem mode_and_level_follow_block_lines (lines : list pystr) (st : scan_state) :
  scan_lines scan_init lines = Ret st ->
  (st_mode st = mode_code <-> pending_open lines = true)
  /\ st_id_level st = open_level_from 0 lines
  /\ (st_mode st = mode_plain -> st_id_level st = 0).
Proof.
  intros H. destruct (scan_lines_mode _ _ _ H) as [Hm Hinv].
  split; [|split].
  - unfold pending_open. simpl in Hm. rewrite <- Hm.
    by destruct (st_mode st).
  - by apply scan_lines_level in H.
  - by apply Hinv.
Qed.

Lemma mode_and_level_follow_block_lines_witness :
  scan_lines scan_init [ln "</python>"; ln "    <python>"; ln "    x = 1"]
  = Ret (mkScan [Py (mkPythonCode [] 0); Text [NL]] (ln "x = 1") 4 mode_code)
  /\ ((mode_code = mode_code
       <-> pending_open [ln "</python>"; ln "    <python>"; ln "    x = 1"]
           = true)
      /\ 4 = open_level_from 0
               [ln "</python>"; ln "    <python>"; ln "    x = 1"]
      /\ (mode_code = mode_plain -> 4 = 0)).
Proof.
  split; [reflexivity|].
  apply (mode_and_level_follow_block_lines
           [ln "</python>"; ln "    <python>"; ln "    x = 1"]
           (mkScan [Py (mkPythonCode [] 0); Text [NL]] (ln "x = 1") 4 mode_code)).
  reflexivity.
Defined.

(** ** The slices of a line with an inline pair *)

Lemma lookup_of_occurrence (w line : pystr) (i d : nat) (c : N) :
  take (length w) (drop i line) = w -> w !! d = Some c ->
  line !! (i + d) = Some c.
Proof.
  intros H Hd. rewrite <- H in Hd.
  apply lookup_take_Some in Hd as [Hd _]. by rewrite lookup_drop in Hd.
Qed.

(** The two inline delimiters do not overlap. *)
Lemma inline_delimiters_apart (line : pystr) (i j : nat) :
  take 4 (drop i line) = inline_delimiter_open ->
  take 5 (drop j line) = inline_delimiter_close ->
  (i < j -> i + 4 <= j) /\ (j < i -> j + 5 <= i).
Proof.
  intros Ho Hc.
  pose proof (lookup_of_occurrence inline_delimiter_open line i 0 60 Ho eq_refl) as O0.
  pose proof (lookup_of_occurrence inline_delimiter_open line i 1 112 Ho eq_refl) as O1.
  pose proof (lookup_of_occurrence inline_delimiter_open line i 2 121 Ho eq_refl) as O2.
  pose proof (lookup_of_occurrence inline_delimiter_open line i 3 62 Ho eq_refl) as O3.
  pose proof (lookup_of_occurrence inline_delimiter_close line j 0 60 Hc eq_refl) as C0.
  pose proof (lookup_of_occurrence inline_delimiter_close line j 1 47 Hc eq_refl) as C1.
  pose proof (lookup_of_occurrence inline_delimiter_close line j 2 112 Hc eq_refl) as C2.
  pose proof (lookup_of_occurrence inline_delimiter_close line j 3 121 Hc eq_refl) as C3.
  pose proof (lookup_of_occurrence inline_delimiter_close line j 4 62 Hc eq_refl) as C4.
  rewrite Nat.add_0_r in O0, C0.
  split; intros Hlt.
  - destruct (decide (j = i + 1)) as [->|]; [congruence|].
    destruct (decide (j = i + 2)) as [->|]; [congruence|].
    destruct (decide (j = i + 3)) as [->|]; [congruence|]. lia.
  - destruct (decide (i = j + 1)) as [->|]; [congruence|].
    destruct (decide (i = j + 2)) as [->|]; [congruence|].
    destruct (decide (i = j + 3)) as [->|]; [congruence|].
    destruct (decide (i = j + 4)) as [->|]; [congruence|]. lia.
Qed.

Lemma drop_occurrence (w line : pystr) (i : nat) :
  take (length w) (drop i line) = w -> drop i line = w ++ drop (i + length w) line.
Proof.
  intros H. rewrite <- (take_drop (length w) (drop i line)) at 1.
  by rewrite H, drop_drop.
Qed.

Lemma drop_slice (i j : nat) (line : pystr) :
  i <= j -> drop i line = slice i j line ++ drop j line.
Proof.
  intros H. unfold slice.
  rewrite <- (take_drop (j - i) (drop i line)) at 1.
  rewrite drop_drop. do 2 f_equal. lia.
Qed.

Lemma take_slice (i j : nat) (line : pystr) :
  i <= j -> take j line = take i line ++ slice i j line.
Proof.
  intros H. unfold slice.
  rewrite <- (take_drop i (take j line)).
  rewrite take_take, Nat.min_l by lia. f_equal.
  by rewrite take_drop_commute, Nat.add_comm, Nat.sub_add.
Qed.

(** X6.  When the first opening inline delimiter of a line stands before
    its first closing delimiter, the closing one starts at or after the end
    of the opening one, and the text before, the code and the text after
    that the scanner takes are the line without the two delimiters: with
    them they rebuild the line. *)
Theorem inline_slices_rebuild_line (line : pystr) (mo mc : nat * nat) :
  re_search re_short_open line = Some mo ->
  re_search re_short_close line = Some mc ->
  fst mo < fst mc ->
  snd mo <= fst mc
  /\ line
     = take (fst mo) line ++ inline_delimiter_open
       ++ slice (snd mo) (fst mc) line ++ inline_delimiter_close
       ++ drop (snd mc) line.
Proof.
  intros Ho Hc Hlt.
  apply (re_search_lit_first inline_delimiter_open) in Ho as (Ho1 & Ho2 & _).
  apply (re_search_lit_first inline_delimiter_close) in Hc as (Hc1 & Hc2 & _).
  destruct (inline_delimiters_apart line _ _ Ho2 Hc2) as [Hap _].
  specialize (Hap Hlt). change (length inline_delimiter_open) with 4 in *.
  change (length inline_delimiter_close) with 5 in *.
  split; [lia|].
  rewrite <- (take_drop (fst mo) line) at 1. f_equal.
  rewrite (drop_occurrence inline_delimiter_open) by done. f_equal.
  change (length inline_delimiter_open) with 4. rewrite <- Ho1.
  rewrite (drop_slice (snd mo) (fst mc)) by lia. f_equal.
  rewrite (drop_occurrence inline_delimiter_close) by done. f_equal.
  change (length inline_delimiter_close) with 5. by rewrite <- Hc1.
Qed.

Lemma inline_slices_rebuild_line_witness :
  re_search re_short_open (ln "Hello <py>write(1)</py>!") = Some (6, 10)
  /\ re_search re_short_close (ln "Hello <py>write(1)</py>!") = Some (18, 23)
  /\ 6 < 18
  /\ 10 <= 18
  /\ ln "Hello <py>write(1)</py>!"
     = take 6 (ln "Hello <py>write(1)</py>!") ++ inline_delimiter_open
       ++ slice 10 18 (ln "Hello <py>write(1)</py>!") ++ inline_delimiter_close
       ++ drop 23 (ln "Hello <py>write(1)</py>!").
Proof.
  split; [reflexivity|]. split; [reflexivity|]. split; [lia|].
  apply (inline_slices_rebuild_line (ln "Hello <py>write(1)</py>!")
           (6, 10) (18, 23)); [reflexivity|reflexivity|simpl; lia].
Defined.

(** X5.  When the first closing inline delimiter of a line stands before
    its first opening delimiter, the line still takes the inline branch:
    the code object is empty, both delimiters stay in the text, and the
    text between the closing and the opening delimiter is emitted twice, at
    the end of the literal and at the start of the accumulator. *)
Theorem inline_close_before_open (st : scan_state) (line : pystr)
    (mo mc : nat * nat) :
  block_open line = false ->
  block_close line = false ->
  re_search re_short_open line = Some mo ->
  re_search re_short_close line = Some mc ->
  fst mc < fst mo ->
  snd mc <= fst mo
  /\ line = take (snd mc) line ++ slice (snd mc) (fst mo) line
            ++ drop (fst mo) line
  /\ scan_line st line
     = Ret (mkScan
              (st_result st
               ++ [Text (st_collect st ++ take (snd mc) line
                         ++ slice (snd mc) (fst mo) line);
                   Py (mkPythonCode [] 0)])
              (slice (snd mc) (fst mo) line ++ drop (fst mo) line)
              (st_id_level st) (st_mode st)).
Proof.
  intros Hbo Hbc Ho Hc Hlt.
  rewrite (scan_line_inline st line mo mc Hbo Hbc Ho Hc).
  apply (re_search_lit_first inline_delimiter_open) in Ho as (Ho1 & Ho2 & _).
  apply (re_search_lit_first inline_delimiter_close) in Hc as (Hc1 & Hc2 & _).
  destruct (inline_delimiters_apart line _ _ Ho2 Hc2) as [_ Hap].
  specialize (Hap Hlt). change (length inline_delimiter_open) with 4 in *.
  change (length inline_delimiter_close) with 5 in *.
  split; [lia|]. split.
  - rewrite <- (take_drop (snd mc) line) at 1. f_equal.
    apply drop_slice. lia.
  - rewrite (take_slice (snd mc) (fst mo)) by lia.
    rewrite <- (drop_slice (snd mc) (fst mo)) by lia.
    assert (slice (snd mo) (fst mc) line = []) as ->.
    { unfold slice. replace (fst mc - snd mo) with 0 by lia. apply take_0. }
    reflexivity.
Qed.

Lemma inline_close_before_open_witness :
  block_open (ln "a</py>b<py>c") = false
  /\ block_close (ln "a</py>b<py>c") = false
  /\ re_search re_short_open (ln "a</py>b<py>c") = Some (7, 11)
  /\ re_search re_short_close (ln "a</py>b<py>c") = Some (1, 6)
  /\ 1 < 7
  /\ 6 <= 7
  /\ ln "a</py>b<py>c"
     = take 6 (ln "a</py>b<py>c") ++ slice 6 7 (ln "a</py>b<py>c")
       ++ drop 7 (ln "a</py>b<py>c")
  /\ scan_line scan_init (ln "a</py>b<py>c")
     = Ret (mkScan
              ([] ++ [Text ([] ++ take 6 (ln "a</py>b<py>c")
                            ++ slice 6 7 (ln "a</py>b<py>c"));
                      Py (mkPythonCode [] 0)])
              (slice 6 7 (ln "a</py>b<py>c") ++ drop 7 (ln "a</py>b<py>c"))
              0 mode_plain).
Proof.
  do 4 (split; [reflexivity|]). split; [lia|].
  apply (inline_close_before_open scan_init (ln "a</py>b<py>c") (7, 11) (1, 6));
    [reflexivity|reflexivity|reflexivity|reflexivity|simpl; lia].
Defined.

(** The rendering of that line: [b] is written twice. *)
Example inline_close_before_open_rendered :
  render [ln "a</py>b<py>c"] = Ret (ln "a</py>bb<py>c").
Proof. vm_compute. reflexivity. Qed.

(** ** No text is lost outside the block lines *)

Lemma pieces_app (a b : list element) : pieces (a ++ b) = pieces a ++ pieces b.
Proof. unfold pieces. by rewrite map_app, concat_app. Qed.

Lemma scan_lines_pieces (st st' : scan_state) (lines : list pystr) :
  forallb (fun l => negb (block_open l) && negb (block_close l)) lines = true ->
  st_mode st = mode_plain ->
  scan_lines st lines = Ret st' ->
  st_mode st' = mode_plain
  /\ pieces (st_result st') ++ st_collect st'
     = pieces (st_result st) ++ st_collect st
       ++ concat (map inline_stripped lines).
Proof.
  revert st. induction lines as [|l lines IH]; intros st; simpl.
  - intros _ Hm [= <-]. by rewrite app_nil_r.
  - intros [[Ho Hc]%andb_prop Hr]%andb_prop Hm.
    apply negb_true_iff in Ho, Hc.
    unfold inline_stripped at 1.
    destruct (re_search re_short_open l) as [mo|] eqn:Eo.
    + destruct (re_search re_short_close l) as [mc|] eqn:Ec.
      * rewrite (scan_line_inline st l mo mc Ho Hc Eo Ec). simpl.
        intros H. apply IH in H as [Hm' H]; [|done|done].
        split; [done|]. rewrite H. simpl.
        rewrite pieces_app. unfold pieces at 2. simpl.
        by rewrite app_nil_r, <- !app_assoc.
      * rewrite scan_line_plain
          by (unfold plain_line, inline_pair; by rewrite Ho, Hc, Eo, Ec).
        simpl. intros H. apply IH in H as [Hm' H]; [|done|done].
        split; [done|]. rewrite H. simpl. rewrite Hm. simpl.
        by rewrite <- !app_assoc.
    + rewrite scan_line_plain
        by (unfold plain_line, inline_pair; by rewrite Ho, Hc, Eo).
      simpl. intros H. apply IH in H as [Hm' H]; [|done|done].
      split; [done|]. rewrite H. simpl. rewrite Hm. simpl.
      by rewrite <- !app_assoc.
Qed.



(** ** A block opened twice *)

(** X8.  A block-open line met while a block is open flushes the script
    collected so far as a literal, not as code: of two block-open lines
    without a block-close line between them, only the lines after the
    second one become the code object that the block-close line emits. *)
Theorem reopened_block_is_literal (pre : list pystr) (k1 k2 : nat)
    (ol1 : pystr) (body1 : list pystr) (ol2 : pystr) (body2 : list pystr)
    (cl : pystr) :
  tag_free pre = true ->
  block_open ol1 = true -> find_indentation_level ol1 = Ret k1 ->
  forallb plain_line body1 = true ->
  block_open ol2 = true -> find_indentation_level ol2 = Ret k2 ->
  forallb plain_line body2 = true ->
  block_close cl = true ->
  process_python_tags (pre ++ (ol1 :: body1) ++ (ol2 :: body2 ++ [cl]))
  = Ret [Text (concat pre);
         Text (concat (map (dedent k1) body1));
         Py (mkPythonCode (concat (map (dedent k2) body2)) k2);
         Text [NL]].
Proof.
  intros Hpre Ho1 Hk1 Hb1 Ho2 Hk2 Hb2 Hc. unfold process_python_tags.
  rewrite scan_lines_app, scan_lines_plain by exact Hpre.
  cbn [mbind outcome_bind].
  rewrite scan_lines_app.
  change (scan_lines ?s (ol1 :: body1))
    with (st' ← scan_line s ol1; scan_lines st' body1).
  destruct (scan_line_open
              (mkScan (st_result scan_init)
                 (st_collect scan_init
                  ++ concat (map (contribution (st_mode scan_init)
                                    (st_id_level scan_init)) pre))
                 (st_id_level scan_init) (st_mode scan_init)) ol1 Ho1)
    as (k & Hk & ->).
  assert (k = k1) as -> by congruence.
  cbn [mbind outcome_bind].
  rewrite scan_lines_plain by exact Hb1.
  cbn [mbind outcome_bind].
  rewrite (scan_block _ k2 ol2 body2 cl Ho2 Hk2 Hb2 Hc).
  cbn [mbind outcome_bind mret outcome_ret st_result st_collect st_mode
         st_id_level scan_init contribution app].
  by rewrite map_id.
Qed.

Lemma reopened_block_is_literal_witness :
  tag_free [ln "<ul>"] = true
  /\ block_open (ln "  <python>") = true
  /\ find_indentation_level (ln "  <python>") = Ret 2
  /\ forallb plain_line [ln "  write(1)"] = true
  /\ block_open (ln "<python>") = true
  /\ find_indentation_level (ln "<python>") = Ret 0
  /\ forallb plain_line [ln "write(2)"] = true
  /\ block_close (ln "</python>") = true
  /\ process_python_tags
       ([ln "<ul>"] ++ (ln "  <python>" :: [ln "  write(1)"])
        ++ (ln "<python>" :: [ln "write(2)"] ++ [ln "</python>"]))
     = Ret [Text (concat [ln "<ul>"]);
            Text (concat (map (dedent 2) [ln "  write(1)"]));
            Py (mkPythonCode (concat (map (dedent 0) [ln "write(2)"])) 0);
            Text [NL]].
Proof.
  do 8 (split; [reflexivity|]).
  apply (reopened_block_is_literal [ln "<ul>"] 2 0 (ln "  <python>")
           [ln "  write(1)"] (ln "<python>") [ln "write(2)"] (ln "</python>"));
    reflexivity.
Defined.

(** The rendering of that document: the first script is text. *)
Example reopened_block_rendered :
  render [ln "<ul>"; ln "  <python>"; ln "  write(1)"; ln "<python>";
          ln "write(2)"; ln "</python>"]
  = Ret (ln "<ul>" ++ ln "write(1)" ++ ln "2").
Proof. vm_compute. reflexivity. Qed.

(** ** The lines of a code object *)

Lemma is_line_dedent (k : nat) (l : pystr) : is_line l -> is_line (dedent k l).
Proof.
  intros (s & -> & Hs). unfold dedent. rewrite length_app. simpl.
  case_decide as Hk.
  - exists (drop k s). split.
    + rewrite drop_app_le by lia. done.
    + intros H. apply Hs. exact (subseteq_drop k s _ H).
  - exists []. split; [done|]. set_solver.
Qed.

Lemma split_nl_lines (ls : list pystr) :
  Forall is_line ls -> length (split_nl (concat ls)) = S (length ls).
Proof.
  induction 1 as [|l ls (s & -> & Hs) _ IH]; [reflexivity|].
  cbn [concat]. rewrite <- app_assoc. cbn [app].
  rewrite split_nl_app, length_app, IH.
  rewrite split_nl_one_line; [reflexivity|].
  apply Forall_forall. intros c Hc ->. done.
Qed.

(** X9.  Stripping the indentation keeps the lines of a block apart: every
    line that ends with its only line feed still does so after the
    stripping, a line of at most [id_level] characters becoming an empty
    line; so the code of a block has exactly as many lines as the block has
    between its delimiters. *)
Theorem dedent_keeps_lines (k : nat) (body : list pystr) :
  Forall is_line body ->
  Forall is_line (map (dedent k) body)
  /\ length (split_nl (concat (map (dedent k) body))) = S (length body).
Proof.
  intros H.
  assert (H' : Forall is_line (map (dedent k) body)).
  { apply Forall_fmap. eapply Forall_impl; [exact H|].
    intros l Hl. by apply is_line_dedent. }
  split; [done|]. rewrite split_nl_lines by done. by rewrite length_map.
Qed.

Lemma dedent_keeps_lines_witness :
  Forall is_line [ln "    for i in range(3):"; ln "x"; ln "        write(i)"]
  /\ Forall is_line
       (map (dedent 4) [ln "    for i in range(3):"; ln "x"; ln "        write(i)"])
  /\ length (split_nl
               (concat (map (dedent 4)
                          [ln "    for i in range(3):"; ln "x";
                           ln "        write(i)"])))
     = S (length [ln "    for i in range(3):"; ln "x"; ln "        write(i)"]).
Proof.
  assert (H : Forall is_line
                [ln "    for i in range(3):"; ln "x"; ln "        write(i)"]).
  { repeat constructor; eexists; (split; [reflexivity|]);
      apply (bool_decide_eq_true_1 _); vm_compute; reflexivity. }
  split; [exact H|].
  exact (dedent_keeps_lines 4 _ H).
Defined.

(** * Further properties of the engine *)

(** ** The number and the type of the buffers *)

Lemma apply_indentation_short (ids : list nat) (j : nat) (ss : list pystr) :
  j <= length ids -> length ids < j + length ss ->
  apply_indentation ids j (VStr <$> ss) = Raise IndexError.
Proof.
  revert j. induction ss as [|s ss IH]; intros j Hj Hl; simpl in *; [lia|].
  destruct (ids !! j) as [k|] eqn:Hk; [|reflexivity].
  apply lookup_lt_Some in Hk. rewrite IH by lia. reflexivity.
Qed.

Lemma apply_indentation_enough (ids : list nat) (j : nat) (ss : list pystr) :
  j + length ss <= length ids ->
  apply_indentation ids j (VStr <$> ss)
  = Ret (zip_with reindent (drop j ids) ss).
Proof.
  revert j. induction ss as [|s ss IH]; intros j Hl; simpl in *.
  - by destruct (drop j ids).
  - destruct (ids !! j) as [k|] eqn:Hk.
    + rewrite IH by lia. simpl.
      by rewrite (drop_S _ _ _ Hk).
    + apply lookup_ge_None in Hk. lia.
Qed.

Lemma apply_indentation_no_split (ids : list nat) (j : nat) (ss : list pystr)
    (v : value) (rest : list value) :
  match v with
  | VStr _ => False
  | VBuiltin name => name <> s2l "str"
  | _ => True
  end ->
  j + length ss <= length ids ->
  apply_indentation ids j ((VStr <$> ss) ++ v :: rest) = Raise AttributeError.
Proof.
  intros Hv. revert j. induction ss as [|s ss IH]; intros j Hl; simpl in *.
  - destruct v; try done. by rewrite bool_decide_eq_false_2.
  - destruct (ids !! j) as [k|] eqn:Hk.
    + rewrite IH by lia. reflexivity.
    + apply lookup_ge_None in Hk. lia.
Qed.

Lemma apply_indentation_returns (ids : list nat) (j : nat) (out : list value) :
  (forall i v, out !! i = Some v ->
     (exists s, v = VStr s /\ j + i < length ids)
     \/ v = VBuiltin (s2l "str")) ->
  exists outs, apply_indentation ids j out = Ret outs.
Proof.
  revert j. induction out as [|o out IH]; intros j H; simpl; [eauto|].
  destruct (IH (S j)) as [outs Houts].
  { intros i v Hi. destruct (H (S i) v Hi) as [(s & -> & Hlt)| ->]; [|by right].
    left. exists s. split; [done|lia]. }
  destruct (H 0 o eq_refl) as [(s & -> & Hlt)| ->].
  - destruct (lookup_lt_is_Some_2 ids j) as [k ->]; [lia|].
    rewrite Houts. simpl. eauto.
  - rewrite bool_decide_eq_true_2 by done. rewrite Houts. simpl. eauto.
Qed.

Lemma substitute_short (r : list element) (outs : list pystr) :
  length outs < length (code_objects_of r) ->
  substitute r outs = Raise StopIteration.
Proof.
  revert outs. induction r as [|[s|c] r IH]; intros outs; simpl.
  - lia.
  - intros H. by rewrite IH.
  - destruct outs as [|o outs]; [done|]. simpl. intros H.
    rewrite IH by lia. reflexivity.
Qed.

Lemma substitute_enough (r : list element) (outs : list pystr) :
  length (code_objects_of r) <= length outs ->
  exists r', substitute r outs = Ret r'.
Proof.
  revert outs. induction r as [|[s|c] r IH]; intros outs; simpl.
  - eauto.
  - intros H. destruct (IH _ H) as [r' ->]. simpl. eauto.
  - destruct outs as [|o outs]; simpl; [lia|]. intros H.
    destruct (IH outs) as [r' ->]; [lia|]. simpl. eauto.
Qed.

Section Buffers.

Variable exec : pystr -> namespace -> outcome namespace.
Variables (lines : list pystr) (r : list element) (m : namespace).
Hypothesis Hr : process_python_tags lines = Ret r.
Hypothesis Hm :
  exec (program (code_objects_of r)) (new_module (s2l "pypage_transient"))
  = Ret m.

Lemma pypage_buffers (out : list value) :
  m !! s2l "__output__" = Some (VList out) ->
  pypage exec lines
  = output ← apply_indentation (map id_level (code_objects_of r)) 0 out;
    result' ← substitute r output;
    mret (concat result').
Proof.
  intros Ho. unfold pypage. rewrite Hr. cbn [mbind outcome_bind].
  unfold execPythonCode, importCode. rewrite Hm. cbn [mbind outcome_bind].
  by rewrite Ho.
Qed.

(** X10.  When the evaluated module leaves more [str] buffers in
    [__output__] than the document has code objects, the loop that applies
    the indentation runs past the last indentation level and the rendering
    fails with [IndexError]. *)
Theorem more_buffers_than_sections_raises (ss : list pystr) :
  m !! s2l "__output__" = Some (VList (VStr <$> ss)) ->
  length (code_objects_of r) < length ss ->
  pypage exec lines = Raise IndexError.
Proof.
  intros Ho Hl. rewrite (pypage_buffers _ Ho).
  rewrite apply_indentation_short; [reflexivity|lia|].
  rewrite length_map. lia.
Qed.

(** X11.  When the evaluated module leaves fewer [str] buffers than the
    document has code objects, the indentation is applied without error and
    the rendering fails later, with the [StopIteration] of the exhausted
    output iterator. *)
Theorem fewer_buffers_than_sections_raises (ss : list pystr) :
  m !! s2l "__output__" = Some (VList (VStr <$> ss)) ->
  length ss < length (code_objects_of r) ->
  execPythonCode exec (code_objects_of r)
  = Ret (zip_with reindent (map id_level (code_objects_of r)) ss)
  /\ pypage exec lines = Raise StopIteration.
Proof.
  intros Ho Hl. split.
  - unfold execPythonCode, importCode. rewrite Hm. cbn [mbind outcome_bind].
    rewrite Ho. rewrite apply_indentation_enough; [done|].
    rewrite length_map. lia.
  - rewrite (pypage_buffers _ Ho).
    rewrite apply_indentation_enough by (rewrite length_map; lia).
    cbn [mbind outcome_bind]. rewrite substitute_short; [reflexivity|].
    rewrite length_zip_with, drop_0, length_map. lia.
Qed.

(** X12.  A buffer without [split], which among the values of the
    fragment is every value but a [str] and the class [str], makes the
    rendering fail with [AttributeError], provided the buffers before it
    are [str]s and are not more than the code objects. *)
Theorem buffer_without_split_raises (ss : list pystr) (v : value)
    (rest : list value) :
  m !! s2l "__output__" = Some (VList ((VStr <$> ss) ++ v :: rest)) ->
  match v with
  | VStr _ => False
  | VBuiltin name => name <> s2l "str"
  | _ => True
  end ->
  length ss <= length (code_objects_of r) ->
  pypage exec lines = Raise AttributeError.
Proof.
  intros Ho Hv Hl. rewrite (pypage_buffers _ Ho).
  rewrite apply_indentation_no_split; [reflexivity|done|].
  rewrite length_map. lia.
Qed.

(** X13.  The rendering returns a text exactly when [__output__] has at
    least as many entries as the document has code objects and every entry
    is a [str] at an index below the number of code objects or the class
    [str], whose [split] yields nothing. *)
Theorem rendering_succeeds_iff_buffers_fit (out : list value) :
  m !! s2l "__output__" = Some (VList out) ->
  (exists text, pypage exec lines = Ret text)
  <-> length (code_objects_of r) <= length out
      /\ forall i v, out !! i = Some v ->
           (exists s, v = VStr s /\ i < length (code_objects_of r))
           \/ v = VBuiltin (s2l "str").
Proof.
  intros Ho. rewrite (pypage_buffers _ Ho). split.
  - intros [text H].
    destruct (apply_indentation (map id_level (code_objects_of r)) 0 out)
      as [outs| |] eqn:E; [|done|done].
    cbn [mbind outcome_bind] in H.
    destruct (substitute r outs) as [r'| |] eqn:Es; [|done|done].
    pose proof (apply_indentation_length _ _ _ _ E) as Hl.
    destruct (substitute_spec _ _ _ Es) as (_ & Hc & _).
    split; [lia|]. intros i v Hi.
    destruct (apply_indentation_all _ _ _ _ _ _ E Hi)
      as [(s & k & -> & Hk & _)|[-> _]]; [|by right].
    left. exists s. split; [done|].
    apply lookup_lt_Some in Hk. rewrite length_map in Hk. simpl in Hk. lia.
  - intros [Hlen Hall].
    destruct (apply_indentation_returns (map id_level (code_objects_of r)) 0 out)
      as [outs E].
    { intros i v Hi. destruct (Hall i v Hi) as [(s & -> & Hlt)| ->]; [|by right].
      left. exists s. split; [done|]. rewrite length_map. simpl. lia. }
    rewrite E. cbn [mbind outcome_bind].
    pose proof (apply_indentation_length _ _ _ _ E) as Hl.
    destruct (substitute_enough r outs) as [r' ->]; [lia|].
    simpl. eauto.
Qed.

End Buffers.

Lemma more_buffers_than_sections_raises_witness :
  exists m,
    process_python_tags [ln "<py>__output__ = ['']*2</py>"]
    = Ret [Text []; Py (mkPythonCode (s2l "__output__ = ['']*2") 0); Text [NL]]
    /\ MiniPy.exec
         (program (code_objects_of
                     [Text []; Py (mkPythonCode (s2l "__output__ = ['']*2") 0);
                      Text [NL]]))
         (new_module (s2l "pypage_transient"))
       = Ret m
    /\ m !! s2l "__output__" = Some (VList (VStr <$> [[]; []]))
    /\ length (code_objects_of
                 [Text []; Py (mkPythonCode (s2l "__output__ = ['']*2") 0);
                  Text [NL]])
       < length [[]; []: pystr]
    /\ pypage MiniPy.exec [ln "<py>__output__ = ['']*2</py>"] = Raise IndexError.
Proof.
  assert (Hr : process_python_tags [ln "<py>__output__ = ['']*2</py>"]
               = Ret [Text []; Py (mkPythonCode (s2l "__output__ = ['']*2") 0); Text [NL]])
    by (vm_compute; reflexivity).
  assert (H : exists m,
             MiniPy.exec
               (program (code_objects_of [Text []; Py (mkPythonCode (s2l "__output__ = ['']*2") 0); Text [NL]]))
               (new_module (s2l "pypage_transient"))
             = Ret m
             /\ m !! s2l "__output__" = Some (VList (VStr <$> [[]; []]))).
  { assert (H : (m ← MiniPy.exec
                      (program (code_objects_of [Text []; Py (mkPythonCode (s2l "__output__ = ['']*2") 0); Text [NL]]))
                      (new_module (s2l "pypage_transient"));
                 mret (m !! s2l "__output__"))
                = Ret (Some (VList (VStr <$> [[]; []]))))
      by (vm_compute; reflexivity).
    destruct (MiniPy.exec _ _) as [m| |]; [|discriminate H..].
    exists m. split; [reflexivity|]. by injection H. }
  destruct H as (m & Hm & Ho). exists m.
  assert (Hl : length (code_objects_of [Text []; Py (mkPythonCode (s2l "__output__ = ['']*2") 0); Text [NL]]) < length [[]; [] : pystr]) by (simpl; lia).
  exact (conj Hr (conj Hm (conj Ho (conj Hl
           (more_buffers_than_sections_raises MiniPy.exec _ _ _ Hr Hm _ Ho Hl))))).
Defined.

Lemma fewer_buffers_than_sections_raises_witness :
  exists m,
    process_python_tags [ln "<py>__output__ = ['']*0</py>"]
    = Ret [Text []; Py (mkPythonCode (s2l "__output__ = ['']*0") 0); Text [NL]]
    /\ MiniPy.exec
         (program (code_objects_of
                     [Text []; Py (mkPythonCode (s2l "__output__ = ['']*0") 0);
                      Text [NL]]))
         (new_module (s2l "pypage_transient"))
       = Ret m
    /\ m !! s2l "__output__" = Some (VList (VStr <$> []))
    /\ length ([] : list pystr)
       < length (code_objects_of
                   [Text []; Py (mkPythonCode (s2l "__output__ = ['']*0") 0);
                    Text [NL]])
    /\ execPythonCode MiniPy.exec
         (code_objects_of
            [Text []; Py (mkPythonCode (s2l "__output__ = ['']*0") 0); Text [NL]])
       = Ret (zip_with reindent
                (map id_level
                   (code_objects_of
                      [Text []; Py (mkPythonCode (s2l "__output__ = ['']*0") 0);
                       Text [NL]])) [])
    /\ pypage MiniPy.exec [ln "<py>__output__ = ['']*0</py>"]
       = Raise StopIteration.
Proof.
  assert (Hr : process_python_tags [ln "<py>__output__ = ['']*0</py>"]
               = Ret [Text []; Py (mkPythonCode (s2l "__output__ = ['']*0") 0); Text [NL]])
    by (vm_compute; reflexivity).
  assert (H : exists m,
             MiniPy.exec
               (program (code_objects_of [Text []; Py (mkPythonCode (s2l "__output__ = ['']*0") 0); Text [NL]]))
               (new_module (s2l "pypage_transient"))
             = Ret m
             /\ m !! s2l "__output__" = Some (VList (VStr <$> []))).
  { assert (H : (m ← MiniPy.exec
                      (program (code_objects_of [Text []; Py (mkPythonCode (s2l "__output__ = ['']*0") 0); Text [NL]]))
                      (new_module (s2l "pypage_transient"));
                 mret (m !! s2l "__output__"))
                = Ret (Some (VList (VStr <$> []))))
      by (vm_compute; reflexivity).
    destruct (MiniPy.exec _ _) as [m| |]; [|discriminate H..].
    exists m. split; [reflexivity|]. by injection H. }
  destruct H as (m & Hm & Ho). exists m.
  assert (Hl : length ([] : list pystr) < length (code_objects_of [Text []; Py (mkPythonCode (s2l "__output__ = ['']*0") 0); Text [NL]])) by (simpl; lia).
  exact (conj Hr (conj Hm (conj Ho (conj Hl
           (fewer_buffers_than_sections_raises MiniPy.exec _ _ _ Hr Hm _ Ho Hl))))).
Defined.

Lemma buffer_without_split_raises_witness :
  exists m,
    process_python_tags [ln "<py>__output__ = [0]*1</py>"]
    = Ret [Text []; Py (mkPythonCode (s2l "__output__ = [0]*1") 0); Text [NL]]
    /\ MiniPy.exec
         (program (code_objects_of
                     [Text []; Py (mkPythonCode (s2l "__output__ = [0]*1") 0);
                      Text [NL]]))
         (new_module (s2l "pypage_transient"))
       = Ret m
    /\ m !! s2l "__output__" = Some (VList ((VStr <$> []) ++ VInt 0 :: []))
    /\ length ([] : list pystr)
       <= length (code_objects_of
                    [Text []; Py (mkPythonCode (s2l "__output__ = [0]*1") 0);
                     Text [NL]])
    /\ pypage MiniPy.exec [ln "<py>__output__ = [0]*1</py>"]
       = Raise AttributeError.
Proof.
  assert (Hr : process_python_tags [ln "<py>__output__ = [0]*1</py>"]
               = Ret [Text []; Py (mkPythonCode (s2l "__output__ = [0]*1") 0); Text [NL]])
    by (vm_compute; reflexivity).
  assert (H : exists m,
             MiniPy.exec
               (program (code_objects_of [Text []; Py (mkPythonCode (s2l "__output__ = [0]*1") 0); Text [NL]]))
               (new_module (s2l "pypage_transient"))
             = Ret m
             /\ m !! s2l "__output__" = Some (VList ((VStr <$> []) ++ VInt 0 :: []))).
  { assert (H : (m ← MiniPy.exec
                      (program (code_objects_of [Text []; Py (mkPythonCode (s2l "__output__ = [0]*1") 0); Text [NL]]))
                      (new_module (s2l "pypage_transient"));
                 mret (m !! s2l "__output__"))
                = Ret (Some (VList ((VStr <$> []) ++ VInt 0 :: []))))
      by (vm_compute; reflexivity).
    destruct (MiniPy.exec _ _) as [m| |]; [|discriminate H..].
    exists m. split; [reflexivity|]. by injection H. }
  destruct H as (m & Hm & Ho). exists m.
  assert (Hl : length ([] : list pystr) <= length (code_objects_of [Text []; Py (mkPythonCode (s2l "__output__ = [0]*1") 0); Text [NL]])) by (simpl; lia).
  exact (conj Hr (conj Hm (conj Ho (conj Hl
           (buffer_without_split_raises MiniPy.exec _ _ _ Hr Hm _ _ _ Ho I Hl))))).
Defined.

Lemma rendering_succeeds_iff_buffers_fit_witness :
  exists m,
    process_python_tags [ln "<py>__output__ = [str]*2</py>"]
    = Ret [Text []; Py (mkPythonCode (s2l "__output__ = [str]*2") 0);
           Text [NL]]
    /\ MiniPy.exec
         (program (code_objects_of
          [Text []; Py (mkPythonCode (s2l "__output__ = [str]*2") 0);
           Text [NL]]))
         (new_module (s2l "pypage_transient"))
       = Ret m
    /\ m !! s2l "__output__" = Some (VList [VBuiltin (s2l "str"); VBuiltin (s2l "str")])
    /\ ((exists text,
           pypage MiniPy.exec [ln "<py>__output__ = [str]*2</py>"] = Ret text)
        <-> length (code_objects_of
          [Text []; Py (mkPythonCode (s2l "__output__ = [str]*2") 0);
           Text [NL]])
            <= length [VBuiltin (s2l "str"); VBuiltin (s2l "str")]
            /\ forall i v,
                 [VBuiltin (s2l "str"); VBuiltin (s2l "str")] !! i = Some v ->
                 (exists s, v = VStr s
                            /\ i < length (code_objects_of
          [Text []; Py (mkPythonCode (s2l "__output__ = [str]*2") 0);
           Text [NL]]))
                 \/ v = VBuiltin (s2l "str")).
Proof.
  assert (Hr : process_python_tags [ln "<py>__output__ = [str]*2</py>"]
               = Ret [Text []; Py (mkPythonCode (s2l "__output__ = [str]*2") 0);
           Text [NL]])
    by (vm_compute; reflexivity).
  assert (H : exists m,
             MiniPy.exec
               (program (code_objects_of
          [Text []; Py (mkPythonCode (s2l "__output__ = [str]*2") 0);
           Text [NL]]))
               (new_module (s2l "pypage_transient"))
             = Ret m
             /\ m !! s2l "__output__" = Some (VList [VBuiltin (s2l "str"); VBuiltin (s2l "str")])).
  { assert (H : (m ← MiniPy.exec
                      (program (code_objects_of
          [Text []; Py (mkPythonCode (s2l "__output__ = [str]*2") 0);
           Text [NL]]))
                      (new_module (s2l "pypage_transient"));
                 mret (m !! s2l "__output__"))
                = Ret (Some (VList [VBuiltin (s2l "str"); VBuiltin (s2l "str")])))
      by (vm_compute; reflexivity).
    destruct (MiniPy.exec _ _) as [m| |]; [|discriminate H..].
    exists m. split; [reflexivity|]. by injection H. }
  destruct H as (m & Hm & Ho). exists m.
  exact (conj Hr (conj Hm (conj Ho
           (rendering_succeeds_iff_buffers_fit MiniPy.exec _ _ _ Hr Hm _ Ho)))).
Defined.

(** ** The indentation of the outputs *)

Lemma join_app (sep : pystr) (l1 l2 : list pystr) :
  l1 <> [] -> l2 <> [] ->
  join sep (l1 ++ l2) = join sep l1 ++ sep ++ join sep l2.
Proof.
  intros H1 H2. destruct l2 as [|x l2]; [done|].
  destruct l1 as [|y l1]; [done|].
  rewrite join_app_cons, !join_cons. cbn [map concat].
  rewrite <- !app_assoc. f_equal.
  rewrite (app_assoc (concat _) sep), concat_sep_shift.
  by rewrite <- !app_assoc.
Qed.

Lemma reindent_line_feed (k : nat) (a b : pystr) :
  reindent k (a ++ NL :: b) = reindent k a ++ NL :: reindent k b.
Proof.
  unfold reindent. rewrite split_nl_app, map_app, join_app; [done| |].
  - pose proof (split_nl_nonempty a). by destruct (split_nl a).
  - pose proof (split_nl_nonempty b). by destruct (split_nl b).
Qed.

Lemma reindent_one_line (k : nat) (s : pystr) :
  NL ∉ s -> reindent k s = spaces k ++ s.
Proof.
  intros H. unfold reindent. rewrite split_nl_one_line; [done|].
  apply Forall_forall. intros c Hc ->. done.
Qed.

(** X14.  Re-indenting an output puts the indentation before every line of
    it, and also before what follows the last line feed, even when nothing
    follows it: an output that ends with a line feed is rendered with
    [id_level] spaces after it. *)
Theorem reindent_prefixes_every_line (k : nat) (ls : list pystr) (last : pystr) :
  Forall (fun l => NL ∉ l) ls -> NL ∉ last ->
  reindent k (concat (map (fun l => l ++ [NL]) ls) ++ last)
  = concat (map (fun l => spaces k ++ l ++ [NL]) ls) ++ spaces k ++ last.
Proof.
  intros Hls Hlast. induction Hls as [|l ls Hl _ IH]; cbn [map concat app].
  - by apply reindent_one_line.
  - rewrite <- !app_assoc. cbn [app].
    rewrite reindent_line_feed, IH, reindent_one_line by done.
    rewrite <- !app_assoc. reflexivity.
Qed.

Lemma reindent_prefixes_every_line_witness :
  Forall (fun l => NL ∉ l) [s2l "<li>a</li>"; s2l "<li>b</li>"]
  /\ (NL ∉ ([] : pystr))
  /\ reindent 2
       (concat (map (fun l => l ++ [NL]) [s2l "<li>a</li>"; s2l "<li>b</li>"])
        ++ [])
     = concat (map (fun l => spaces 2 ++ l ++ [NL])
                 [s2l "<li>a</li>"; s2l "<li>b</li>"])
       ++ spaces 2 ++ [].
Proof.
  assert (H1 : Forall (fun l => NL ∉ l) [s2l "<li>a</li>"; s2l "<li>b</li>"]).
  { repeat constructor; apply (bool_decide_eq_true_1 _); vm_compute; reflexivity. }
  assert (H2 : NL ∉ ([] : pystr)).
  { apply (bool_decide_eq_true_1 _); vm_compute; reflexivity. }
  exact (conj H1 (conj H2 (reindent_prefixes_every_line 2 _ _ H1 H2))).
Defined.

Lemma join_split_nl (s : pystr) : join [NL] (split_nl s) = s.
Proof.
  induction s as [|c s IH]; [reflexivity|]. cbn [split_nl].
  pose proof (split_nl_nonempty s) as Hne.
  destruct (N.eqb_spec c NL) as [->|Hc].
  - destruct (split_nl s) as [|h t] eqn:E; [done|].
    change (join [NL] ([] :: h :: t)) with (NL :: join [NL] (h :: t)).
    by rewrite IH.
  - destruct (split_nl s) as [|h t] eqn:E; [done|].
    rewrite join_cons. rewrite join_cons in IH.
    rewrite <- app_comm_cons. by rewrite IH.
Qed.

(** X15.  Splitting a text at its line feeds and joining the pieces with
    line feeds gives the text back, so an output of indentation level 0,
    which is the level of every inline tag, is yielded exactly as it was
    written. *)
Theorem reindent_zero_identity (s : pystr) :
  join [NL] (split_nl s) = s /\ reindent 0 s = s.
Proof.
  split; [apply join_split_nl|]. unfold reindent.
  assert (H : forall l : list pystr, map (fun s => spaces 0 ++ s) l = l).
  { induction l as [|x l IH]; [done|]. cbn [map]. rewrite IH. reflexivity. }
  rewrite H. apply join_split_nl.
Qed.

Lemma zip_with_reindent_zero (ids : list nat) (ss : list pystr) :
  Forall (fun k => k = 0) ids -> length ss <= length ids ->
  zip_with reindent ids ss = ss.
Proof.
  intros H. revert ss. induction H as [|k ids -> _ IH]; intros ss Hl.
  - destruct ss; [done|simpl in Hl; lia].
  - destruct ss as [|s ss]; [done|]. simpl in *.
    rewrite IH by lia. f_equal. apply reindent_zero_identity.
Qed.

Lemma scan_line_levels_zero (st st' : scan_state) (line : pystr) :
  block_open line = false ->
  st_id_level st = 0 ->
  Forall (fun c => id_level c = 0) (code_objects_of (st_result st)) ->
  scan_line st line = Ret st' ->
  st_id_level st' = 0
  /\ Forall (fun c => id_level c = 0) (code_objects_of (st_result st')).
Proof.
  intros Ho H0 HF. destruct (block_close line) eqn:Hc.
  - rewrite scan_line_close by done. intros [= <-]. simpl. split; [done|].
    rewrite code_objects_of_app. apply Forall_app. split; [done|].
    simpl. by constructor.
  - destruct (inline_pair line) eqn:Hi.
    + unfold inline_pair in Hi.
      destruct (re_search re_short_open line) as [mo|] eqn:Eo; [|done].
      destruct (re_search re_short_close line) as [mc|] eqn:Ec; [|done].
      rewrite (scan_line_inline st line mo mc Ho Hc Eo Ec).
      intros [= <-]. simpl. split; [done|].
      rewrite code_objects_of_app. apply Forall_app. split; [done|].
      simpl. by constructor.
    + rewrite scan_line_plain by (unfold plain_line; by rewrite Ho, Hc, Hi).
      by intros [= <-].
Qed.

Lemma scan_lines_levels_zero (st st' : scan_state) (lines : list pystr) :
  forallb (fun l => negb (block_open l)) lines = true ->
  st_id_level st = 0 ->
  Forall (fun c => id_level c = 0) (code_objects_of (st_result st)) ->
  scan_lines st lines = Ret st' ->
  st_id_level st' = 0
  /\ Forall (fun c => id_level c = 0) (code_objects_of (st_result st')).
Proof.
  revert st. induction lines as [|l lines IH]; intros st; simpl.
  - intros _ H0 HF [= <-]. done.
  - intros [Hl Hr]%andb_prop H0 HF.
    destruct (scan_line st l) as [st1| |] eqn:E; simpl; [|done|done].
    apply negb_true_iff in Hl.
    destruct (scan_line_levels_zero _ _ _ Hl H0 HF E) as [H0' HF'].
    by apply IH.
Qed.

(** X16.  In a document without block-open lines every code object has
    indentation level 0, and the rendering inserts each buffer exactly as
    the script wrote it: the result is the scanned list with the buffers,
    unchanged, at the places of the code objects. *)
Theorem outputs_verbatim_without_block_open
    (exec : pystr -> namespace -> outcome namespace)
    (lines : list pystr) (r : list element) (m : namespace)
    (ss : list pystr) :
  forallb (fun l => negb (block_open l)) lines = true ->
  process_python_tags lines = Ret r ->
  exec (program (code_objects_of r)) (new_module (s2l "pypage_transient"))
  = Ret m ->
  m !! s2l "__output__" = Some (VList (VStr <$> ss)) ->
  length ss = length (code_objects_of r) ->
  Forall (fun c => id_level c = 0) (code_objects_of r)
  /\ pypage exec lines = (r' ← substitute r ss; mret (concat r')).
Proof.
  intros Hno Hr Hm Ho Hl.
  assert (HF : Forall (fun c => id_level c = 0) (code_objects_of r)).
  { unfold process_python_tags in Hr.
    destruct (scan_lines scan_init lines) as [st| |] eqn:E; [|done|done].
    injection Hr as <-.
    destruct (scan_lines_levels_zero scan_init st lines Hno eq_refl
                (Forall_nil_2 _) E) as [_ HF].
    rewrite code_objects_of_app. simpl. by rewrite app_nil_r. }
  split; [done|].
  rewrite (pypage_buffers exec lines r m Hr Hm _ Ho).
  rewrite apply_indentation_enough by (rewrite length_map; simpl; lia).
  cbn [mbind outcome_bind]. rewrite drop_0.
  rewrite zip_with_reindent_zero; [done| |by rewrite length_map; lia].
  apply Forall_fmap. eapply Forall_impl; [exact HF|]. done.
Qed.

Lemma outputs_verbatim_without_block_open_witness :
  exists m,
    forallb (fun l => negb (block_open l))
      [ln "<p><py>write('x')</py></p>"; ln "  <py>write('y')</py>"; ln "</python>"]
    = true
    /\ process_python_tags
         [ln "<p><py>write('x')</py></p>"; ln "  <py>write('y')</py>"; ln "</python>"]
       = Ret [Text (s2l "<p>"); Py (mkPythonCode (s2l "write('x')") 0);
            Text (ln "</p>" ++ s2l "  ");
            Py (mkPythonCode (s2l "write('y')") 0);
            Py (mkPythonCode [NL] 0); Text [NL]]
    /\ MiniPy.exec
         (program (code_objects_of
           [Text (s2l "<p>"); Py (mkPythonCode (s2l "write('x')") 0);
            Text (ln "</p>" ++ s2l "  ");
            Py (mkPythonCode (s2l "write('y')") 0);
            Py (mkPythonCode [NL] 0); Text [NL]]))
         (new_module (s2l "pypage_transient"))
       = Ret m
    /\ m !! s2l "__output__" = Some (VList (VStr <$> [s2l "x"; s2l "y"; []]))
    /\ length [s2l "x"; s2l "y"; []]
       = length (code_objects_of
           [Text (s2l "<p>"); Py (mkPythonCode (s2l "write('x')") 0);
            Text (ln "</p>" ++ s2l "  ");
            Py (mkPythonCode (s2l "write('y')") 0);
            Py (mkPythonCode [NL] 0); Text [NL]])
    /\ Forall (fun c => id_level c = 0)
         (code_objects_of
           [Text (s2l "<p>"); Py (mkPythonCode (s2l "write('x')") 0);
            Text (ln "</p>" ++ s2l "  ");
            Py (mkPythonCode (s2l "write('y')") 0);
            Py (mkPythonCode [NL] 0); Text [NL]])
    /\ pypage MiniPy.exec
         [ln "<p><py>write('x')</py></p>"; ln "  <py>write('y')</py>"; ln "</python>"]
       = (r' ← substitute
                 [Text (s2l "<p>"); Py (mkPythonCode (s2l "write('x')") 0);
            Text (ln "</p>" ++ s2l "  ");
            Py (mkPythonCode (s2l "write('y')") 0);
            Py (mkPythonCode [NL] 0); Text [NL]]
                 [s2l "x"; s2l "y"; []];
          mret (concat r')).
Proof.
  assert (Hno : forallb (fun l => negb (block_open l))
                  [ln "<p><py>write('x')</py></p>"; ln "  <py>write('y')</py>"; ln "</python>"]
                = true) by (vm_compute; reflexivity).
  assert (Hr : process_python_tags
                 [ln "<p><py>write('x')</py></p>"; ln "  <py>write('y')</py>"; ln "</python>"]
               = Ret [Text (s2l "<p>"); Py (mkPythonCode (s2l "write('x')") 0);
            Text (ln "</p>" ++ s2l "  ");
            Py (mkPythonCode (s2l "write('y')") 0);
            Py (mkPythonCode [NL] 0); Text [NL]])
    by (vm_compute; reflexivity).
  assert (H : exists m,
             MiniPy.exec
               (program (code_objects_of
                 [Text (s2l "<p>"); Py (mkPythonCode (s2l "write('x')") 0);
            Text (ln "</p>" ++ s2l "  ");
            Py (mkPythonCode (s2l "write('y')") 0);
            Py (mkPythonCode [NL] 0); Text [NL]]))
               (new_module (s2l "pypage_transient"))
             = Ret m
             /\ m !! s2l "__output__" = Some (VList (VStr <$> [s2l "x"; s2l "y"; []]))).
  { assert (H : (m ← MiniPy.exec
                      (program (code_objects_of
                        [Text (s2l "<p>"); Py (mkPythonCode (s2l "write('x')") 0);
            Text (ln "</p>" ++ s2l "  ");
            Py (mkPythonCode (s2l "write('y')") 0);
            Py (mkPythonCode [NL] 0); Text [NL]]))
                      (new_module (s2l "pypage_transient"));
                 mret (m !! s2l "__output__"))
                = Ret (Some (VList (VStr <$> [s2l "x"; s2l "y"; []]))))
      by (vm_compute; reflexivity).
    destruct (MiniPy.exec _ _) as [m| |]; [|discriminate H..].
    exists m. split; [reflexivity|]. by injection H. }
  destruct H as (m & Hm & Ho). exists m.
  assert (Hl : length [s2l "x"; s2l "y"; []]
               = length (code_objects_of
                   [Text (s2l "<p>"); Py (mkPythonCode (s2l "write('x')") 0);
            Text (ln "</p>" ++ s2l "  ");
            Py (mkPythonCode (s2l "write('y')") 0);
            Py (mkPythonCode [NL] 0); Text [NL]]))
    by reflexivity.
  exact (conj Hno (conj Hr (conj Hm (conj Ho (conj Hl
           (outputs_verbatim_without_block_open MiniPy.exec _ _ _ _
              Hno Hr Hm Ho Hl)))))).
Defined.

(** The rendering of that document. *)
Example outputs_verbatim_rendered :
  render [ln "<p><py>write('x')</py></p>"; ln "  <py>write('y')</py>"; ln "</python>"]
  = Ret (ln "<p>x</p>" ++ ln "  y").
Proof. vm_compute. reflexivity. Qed.

(** * Properties of the file level *)

(** ** The lines of a file *)

Lemma readlines_concat (s : pystr) : concat (readlines s) = s.
Proof.
  induction s as [|c s IH]; [reflexivity|]. cbn [readlines].
  destruct (N.eqb_spec c NL) as [->|Hc].
  - cbn [concat app]. by rewrite IH.
  - destruct (readlines s) as [|h t]; simpl in *; by rewrite <- IH.
Qed.

Lemma readlines_no_line_feed (s : pystr) :
  NL ∉ s -> readlines s = match s with [] => [] | _ => [s] end.
Proof.
  induction s as [|c s IH]; [done|]. intros H.
  apply not_elem_of_cons in H as [Hc Hs]. cbn [readlines].
  destruct (N.eqb_spec c NL) as [->|_]; [done|].
  rewrite (IH Hs). by destruct s.
Qed.

Lemma readlines_line (s rest : pystr) :
  NL ∉ s -> readlines (s ++ NL :: rest) = (s ++ [NL]) :: readlines rest.
Proof.
  induction s as [|c s IH]; intros H.
  - reflexivity.
  - apply not_elem_of_cons in H as [Hc Hs].
    rewrite <- !app_comm_cons. cbn [readlines]. rewrite (IH Hs).
    by destruct (N.eqb_spec c NL) as [->|_].
Qed.

Lemma readlines_of_lines (ls : list pystr) (last : pystr) :
  Forall is_line ls -> NL ∉ last ->
  readlines (concat ls ++ last)
  = ls ++ match last with [] => [] | _ => [last] end.
Proof.
  intros Hls Hlast. induction Hls as [|l ls (s & -> & Hs) _ IH].
  - by apply readlines_no_line_feed.
  - cbn [concat]. rewrite <- !app_assoc. cbn [app].
    rewrite readlines_line by done. rewrite IH. reflexivity.
Qed.

Lemma text_lines (s : pystr) :
  exists (ls : list pystr) (last : pystr),
    Forall is_line ls /\ (NL ∉ last) /\ s = concat ls ++ last.
Proof.
  induction s as [|c s (ls & last & Hls & Hlast & ->)].
  - exists [], []. split; [constructor|]. split; [set_solver|done].
  - destruct (N.eqb_spec c NL) as [->|Hc].
    + exists ([NL] :: ls), last. split; [|done].
      constructor; [|done]. exists []. split; [done|set_solver].
    + destruct ls as [|l ls].
      * exists [], (c :: last). split; [done|]. split; [|done].
        apply not_elem_of_cons. by split; [congruence|].
      * apply Forall_cons in Hls as [(s0 & -> & Hs0) Hls].
        exists ((c :: s0 ++ [NL]) :: ls), last.
        split; [|done]. constructor; [|done].
        exists (c :: s0). split; [done|].
        apply not_elem_of_cons. by split; [congruence|].
Qed.

(** X17.  [readlines] loses nothing and cuts after every line feed: the
    lines concatenate to the text, every line but the last ends with its
    only line feed, and the last one either does too or is a non-empty
    rest without line feed. *)
Theorem readlines_cuts_after_line_feeds (s : pystr) :
  concat (readlines s) = s
  /\ exists (ls : list pystr) (last : pystr),
       Forall is_line ls /\ (NL ∉ last)
       /\ readlines s = ls ++ match last with [] => [] | _ => [last] end.
Proof.
  split; [apply readlines_concat|].
  destruct (text_lines s) as (ls & last & Hls & Hlast & ->).
  exists ls, last. split; [done|]. split; [done|].
  by apply readlines_of_lines.
Qed.

Section FileProperties.

Variable exec : pystr -> namespace -> outcome namespace.
Variable fs : file_system.
Variable BeautifulSoup_prettify : pystr -> outcome pystr.

(** X18.  A file whose lines hold no tag is rendered as its own text, and
    [main] without [prettify] returns it, after the notice when [verbose]
    is set: with every evaluation facility that runs the program of a
    document without code. *)
Theorem tag_free_file_unchanged (input_file text : pystr) (m : namespace)
    (verbose : bool) :
  fs !! input_file = Some text ->
  tag_free (readlines text) = true ->
  exec (program []) (new_module (s2l "pypage_transient")) = Ret m ->
  m !! s2l "__output__" = Some (VList []) ->
  pypage_input_file exec fs input_file = Ret text
  /\ main exec fs BeautifulSoup_prettify input_file verbose false
     = (if verbose then notice input_file else [], Ret text).
Proof.
  intros Hf Ht He Hm.
  assert (H : pypage_input_file exec fs input_file = Ret text).
  { unfold pypage_input_file, open_read. rewrite Hf. cbn [mbind outcome_bind].
    rewrite (pypage_tag_free exec m _ Ht He Hm). by rewrite readlines_concat. }
  split; [done|]. unfold main. by rewrite H.
Qed.

(** X19.  When [open] raises for the path, [pypage] and [main] raise the
    same exception, whatever the options: nothing is evaluated and nothing
    is prettified, but the notice of [verbose] has been printed. *)
Theorem open_error_propagates (input_file : pystr) (verbose prettify : bool) :
  fs !! input_file = None ->
  pypage_input_file exec fs input_file = Raise (fs_open_error fs input_file)
  /\ main exec fs BeautifulSoup_prettify input_file verbose prettify
     = (if verbose then notice input_file else [],
        Raise (fs_open_error fs input_file)).
Proof.
  intros Hf.
  assert (H : pypage_input_file exec fs input_file
              = Raise (fs_open_error fs input_file)).
  { unfold pypage_input_file, open_read. by rewrite Hf. }
  split; [done|]. unfold main. by rewrite H.
Qed.

Lemma preprocess_files_spec (path : pystr) (files : list pystr)
    (verbose prettify : bool) (acc d : gmap pystr pystr) (out : pystr) :
  preprocess_files exec fs BeautifulSoup_prettify path files verbose prettify acc = (out, Ret d) ->
  out = concat (map (fun f => fst (main exec fs BeautifulSoup_prettify (path ++ s2l "/" ++ f) verbose prettify))
                  files)
  /\ forall f,
       (f ∈ files ->
        exists text,
          snd (main exec fs BeautifulSoup_prettify (path ++ s2l "/" ++ f) verbose prettify) = Ret text
          /\ d !! f = Some text)
       /\ (f ∉ files -> d !! f = acc !! f).
Proof.
  revert acc out. induction files as [|f0 files IH]; intros acc out.
  - cbn [preprocess_files]. intros [= <- <-]. split; [done|].
    intros f. split; [by intros ?%elem_of_nil|done].
  - cbn [preprocess_files].
    destruct (main exec fs BeautifulSoup_prettify (path ++ s2l "/" ++ f0) verbose prettify) as [o r] eqn:E0.
    destruct r as [t0| |]; [|by intros [=]|by intros [=]].
    destruct (preprocess_files exec fs BeautifulSoup_prettify path files verbose prettify (<[f0:=t0]> acc))
      as [o' r'] eqn:E. intros [= <- ->].
    destruct (IH _ _ E) as [-> Hd]. split.
    + cbn [map concat]. by rewrite E0.
    + intros f. destruct (Hd f) as [Hin Hout]. split.
      * intros [->|Hf]%elem_of_cons.
        -- destruct (decide (f0 ∈ files)) as [Hf|Hf]; [by apply Hd|].
           exists t0. rewrite E0. split; [done|].
           rewrite Hout by done. by rewrite lookup_insert_eq.
        -- by apply Hin.
      * intros Hf. apply not_elem_of_cons in Hf as [Hne Hf].
        rewrite Hout by done. by rewrite lookup_insert_ne.
Qed.

(** X20.  When [preprocess_multiple_files] returns, it has printed what
    [main] prints for each file in turn, and its dict has exactly the
    requested names as keys, each with what [main] returns for the path
    [path + '/' + filename]. *)
Theorem preprocess_multiple_files_result (path : pystr) (files : list pystr)
    (verbose prettify : bool) (d : gmap pystr pystr) (out : pystr) :
  preprocess_multiple_files exec fs BeautifulSoup_prettify path files verbose prettify = (out, Ret d) ->
  out = concat (map (fun f => fst (main exec fs BeautifulSoup_prettify (path ++ s2l "/" ++ f) verbose prettify))
                  files)
  /\ forall f,
       (f ∈ files ->
        exists text,
          snd (main exec fs BeautifulSoup_prettify (path ++ s2l "/" ++ f) verbose prettify) = Ret text
          /\ d !! f = Some text)
       /\ (f ∉ files -> d !! f = None).
Proof.
  intros H. destruct (preprocess_files_spec _ _ _ _ _ _ _ H) as [-> Hd].
  split; [done|]. intros f. destruct (Hd f) as [Hin Hout].
  split; [done|]. intros Hf. by rewrite Hout.
Qed.

Lemma preprocess_files_failure (path : pystr) (done_files : list pystr)
    (filename : pystr) (rest : list pystr) (verbose prettify : bool)
    (acc : gmap pystr pystr) (e : exn) :
  Forall (fun f => exists text,
            snd (main exec fs BeautifulSoup_prettify (path ++ s2l "/" ++ f) verbose prettify) = Ret text)
    done_files ->
  snd (main exec fs BeautifulSoup_prettify (path ++ s2l "/" ++ filename) verbose prettify) = Raise e ->
  preprocess_files exec fs BeautifulSoup_prettify path (done_files ++ filename :: rest) verbose prettify acc
  = (concat (map (fun f => fst (main exec fs BeautifulSoup_prettify (path ++ s2l "/" ++ f) verbose prettify))
               (done_files ++ [filename])),
     Raise e).
Proof.
  intros Hd He. revert acc. induction Hd as [|f0 fsd [t0 H0] _ IH]; intros acc.
  - cbn [app map concat preprocess_files].
    destruct (main exec fs BeautifulSoup_prettify (path ++ s2l "/" ++ filename) verbose prettify) as [o r].
    simpl in He. subst r. simpl. by rewrite app_nil_r.
  - rewrite <- !app_comm_cons. cbn [map concat preprocess_files].
    destruct (main exec fs BeautifulSoup_prettify (path ++ s2l "/" ++ f0) verbose prettify) as [o r].
    simpl in H0. subst r. rewrite IH. reflexivity.
Qed.

(** X21.  [preprocess_multiple_files] stops at the first file for which
    [main] raises: it raises the same exception, having printed what
    [main] prints for the files up to and including that one, and the
    files after it are not opened. *)
Theorem preprocess_multiple_files_first_failure (path : pystr)
    (done_files : list pystr) (filename : pystr) (rest : list pystr)
    (verbose prettify : bool) (e : exn) :
  Forall (fun f => exists text,
            snd (main exec fs BeautifulSoup_prettify (path ++ s2l "/" ++ f) verbose prettify) = Ret text)
    done_files ->
  snd (main exec fs BeautifulSoup_prettify (path ++ s2l "/" ++ filename) verbose prettify) = Raise e ->
  preprocess_multiple_files exec fs BeautifulSoup_prettify path (done_files ++ filename :: rest)
    verbose prettify
  = (concat (map (fun f => fst (main exec fs BeautifulSoup_prettify (path ++ s2l "/" ++ f) verbose prettify))
               (done_files ++ [filename])),
     Raise e).
Proof. intros Hd He. by apply preprocess_files_failure. Qed.

End FileProperties.

Lemma tag_free_file_unchanged_witness :
  exists m,
    example_site !! s2l "pages/b.html" = Some (ln "<html>" ++ s2l "x")
    /\ tag_free (readlines (ln "<html>" ++ s2l "x")) = true
    /\ MiniPy.exec (program []) (new_module (s2l "pypage_transient")) = Ret m
    /\ m !! s2l "__output__" = Some (VList [])
    /\ pypage_input_file MiniPy.exec example_site (s2l "pages/b.html")
       = Ret (ln "<html>" ++ s2l "x")
    /\ main MiniPy.exec example_site no_bs4 (s2l "pages/b.html") true false
       = (if true then notice (s2l "pages/b.html") else [],
          Ret (ln "<html>" ++ s2l "x")).
Proof.
  assert (Hf : example_site !! s2l "pages/b.html"
               = Some (ln "<html>" ++ s2l "x")) by (vm_compute; reflexivity).
  assert (Ht : tag_free (readlines (ln "<html>" ++ s2l "x")) = true)
    by (vm_compute; reflexivity).
  assert (H : exists m,
             MiniPy.exec (program []) (new_module (s2l "pypage_transient"))
             = Ret m
             /\ m !! s2l "__output__" = Some (VList [])).
  { assert (H : (m ← MiniPy.exec (program [])
                      (new_module (s2l "pypage_transient"));
                 mret (m !! s2l "__output__"))
                = Ret (Some (VList [])))
      by (vm_compute; reflexivity).
    destruct (MiniPy.exec _ _) as [m| |]; [|discriminate H..].
    exists m. split; [reflexivity|]. by injection H. }
  destruct H as (m & He & Hm). exists m.
  exact (conj Hf (conj Ht (conj He (conj Hm
           (tag_free_file_unchanged MiniPy.exec example_site no_bs4
              (s2l "pages/b.html") (ln "<html>" ++ s2l "x") m true
              Hf Ht He Hm))))).
Defined.

Lemma open_error_propagates_witness :
  example_site !! s2l "pages" = None
  /\ pypage_input_file MiniPy.exec example_site (s2l "pages")
     = Raise (fs_open_error example_site (s2l "pages"))
  /\ main MiniPy.exec example_site no_bs4 (s2l "pages") true true
     = (if true then notice (s2l "pages") else [],
        Raise (fs_open_error example_site (s2l "pages"))).
Proof.
  assert (Hf : example_site !! s2l "pages" = None)
    by (vm_compute; reflexivity).
  exact (conj Hf
           (open_error_propagates MiniPy.exec example_site no_bs4
              (s2l "pages") true true Hf)).
Defined.

(** Opening the directory of the pages, and a page that does not exist. *)
Example open_errors_rendered :
  main MiniPy.exec example_site no_bs4 (s2l "pages") true true
  = (ln "Preprocessing file pages", Raise IsADirectoryError)
  /\ main MiniPy.exec example_site no_bs4 (s2l "pages/c.html") false false
     = ([], Raise FileNotFoundError).
Proof. split; vm_compute; reflexivity. Qed.

Lemma preprocess_multiple_files_result_witness :
  exists (out : pystr) (d : gmap pystr pystr),
    preprocess_multiple_files MiniPy.exec example_site no_bs4 (s2l "pages")
      [s2l "a.html"; s2l "b.html"; s2l "a.html"] true false
    = (out, Ret d)
    /\ out = concat
               (map (fun f =>
                       fst (main MiniPy.exec example_site no_bs4
                              (s2l "pages" ++ s2l "/" ++ f) true false))
                  [s2l "a.html"; s2l "b.html"; s2l "a.html"])
    /\ forall f,
         (f ∈ [s2l "a.html"; s2l "b.html"; s2l "a.html"] ->
          exists text,
            snd (main MiniPy.exec example_site no_bs4
                   (s2l "pages" ++ s2l "/" ++ f) true false) = Ret text
            /\ d !! f = Some text)
         /\ (f ∉ [s2l "a.html"; s2l "b.html"; s2l "a.html"] -> d !! f = None).
Proof.
  assert (H : match
                snd (preprocess_multiple_files MiniPy.exec example_site no_bs4
                       (s2l "pages")
                       [s2l "a.html"; s2l "b.html"; s2l "a.html"] true false)
              with Ret _ => True | _ => False end)
    by (vm_compute; exact I).
  destruct (preprocess_multiple_files MiniPy.exec example_site no_bs4
              (s2l "pages") [s2l "a.html"; s2l "b.html"; s2l "a.html"]
              true false) as [out [d| |]] eqn:E; [|destruct H..].
  exists out, d. split; [reflexivity|].
  exact (preprocess_multiple_files_result MiniPy.exec example_site no_bs4
           (s2l "pages") [s2l "a.html"; s2l "b.html"; s2l "a.html"]
           true false d out E).
Defined.

(** What that call prints, and the page it returns for a name. *)
Example preprocess_multiple_files_rendered :
  fst (preprocess_multiple_files MiniPy.exec example_site no_bs4 (s2l "pages")
         [s2l "a.html"; s2l "b.html"; s2l "a.html"] true false)
  = ln "Preprocessing file pages/a.html" ++ ln "Preprocessing file pages/b.html"
    ++ ln "Preprocessing file pages/a.html"
  /\ (d ← snd (preprocess_multiple_files MiniPy.exec example_site no_bs4
                 (s2l "pages") [s2l "a.html"; s2l "b.html"; s2l "a.html"]
                 true false);
      mret (d !! s2l "a.html", d !! s2l "b.html", d !! s2l "pages/a.html"))
     = Ret (Some (ln "<p>1</p>"), Some (ln "<html>" ++ s2l "x"), None).
Proof. split; vm_compute; reflexivity. Qed.

Lemma preprocess_multiple_files_first_failure_witness :
  Forall (fun f => exists text,
            snd (main MiniPy.exec example_site no_bs4
                   (s2l "pages" ++ s2l "/" ++ f) true false) = Ret text)
    [s2l "a.html"]
  /\ snd (main MiniPy.exec example_site no_bs4
            (s2l "pages" ++ s2l "/" ++ s2l "c.html") true false)
     = Raise FileNotFoundError
  /\ preprocess_multiple_files MiniPy.exec example_site no_bs4 (s2l "pages")
       ([s2l "a.html"] ++ s2l "c.html" :: [s2l "b.html"]) true false
     = (concat
          (map (fun f =>
                  fst (main MiniPy.exec example_site no_bs4
                         (s2l "pages" ++ s2l "/" ++ f) true false))
             ([s2l "a.html"] ++ [s2l "c.html"])),
        Raise FileNotFoundError).
Proof.
  assert (Hd : Forall (fun f => exists text,
                         snd (main MiniPy.exec example_site no_bs4
                                (s2l "pages" ++ s2l "/" ++ f) true false)
                         = Ret text)
                 [s2l "a.html"]).
  { constructor; [|constructor]. exists (ln "<p>1</p>").
    vm_compute. reflexivity. }
  assert (He : snd (main MiniPy.exec example_site no_bs4
                      (s2l "pages" ++ s2l "/" ++ s2l "c.html") true false)
               = Raise FileNotFoundError) by (vm_compute; reflexivity).
  exact (conj Hd (conj He
           (preprocess_multiple_files_first_failure MiniPy.exec example_site
              no_bs4 (s2l "pages") [s2l "a.html"] (s2l "c.html")
              [s2l "b.html"] true false FileNotFoundError Hd He))).
Defined.
